(** * xalloc: the pluggable allocators of [mem.c]

    A shallow embedding of [src/mem.c] and [src/mem.h] and the properties of
    the three allocators ([BasicAllocator], [SafeAllocator],
    [DebugAllocator]), the leak report and [xstrdup].

    The C heap is a flat store of cells addressed by [Z] together with the
    table of the blocks that the system allocator has handed out and not yet
    taken back.  [size_t] is 64 bits wide (LP64); additions and subtractions
    on it wrap, which is written out with [wrap].  A [DebugHeader] is four
    eight-byte fields, so [sizeof(DebugHeader)] is 32.

    What the system allocator answers (failure, or the address of the block)
    is not decided by the program: every function that reaches [malloc] or
    [realloc] takes that answer as its first argument.  [realloc(p, 0)] on a
    live block releases it and returns null, as glibc does.

    A call ends in one of four ways: it returns ([Ok]), it goes through
    [panic] and the process exits ([Panic]), it does something C leaves
    undefined ([Fault]), or a loop runs out of fuel ([Spin]). *)

From stdpp Require Import gmap strings list fin_maps pretty sorting.
From Stdlib Require Import ZArith Lia.
Local Open Scope Z_scope.

(** ** Machine integers and the layout of [DebugHeader] *)

Definition SIZE_MOD : Z := 2 ^ 64.
Definition wrap (z : Z) : Z := z mod SIZE_MOD.
Definition NULL : Z := 0.

Definition sizeof_DebugHeader : Z := 32.
Definition off_size : Z := 0.
Definition off_allocNumber : Z := 8.
Definition off_next : Z := 16.
Definition off_prev : Z := 24.

(** ** Program state *)

(** What the system allocator was asked to do, most recent first. *)
Inductive event : Type :=
| EvMalloc (n : Z)
| EvFree (p : Z)
| EvRealloc (p n : Z).

Record state : Type := mkState {
  mem : gmap Z Z;              (* cell contents, by address *)
  blocks : gmap Z Z;           (* live blocks: base address to byte size *)
  dbgHead : Z;                 (* static DebugHeader *dbgHead *)
  debugBytesAlive : Z;         (* static size_t debugBytesAlive *)
  debugAllocCount : Z;         (* static size_t debugAllocCount *)
  calls : list event;          (* requests served by the system allocator *)
  stderr : list string         (* what each fprintf(stderr, ...) wrote, in order *)
}.

Definition init : state :=
  {| mem := ∅; blocks := ∅; dbgHead := NULL; debugBytesAlive := 0;
     debugAllocCount := 0; calls := []; stderr := [] |}.

Definition set_mem (m : gmap Z Z) (s : state) : state :=
  mkState m (blocks s) (dbgHead s) (debugBytesAlive s) (debugAllocCount s)
          (calls s) (stderr s).
Definition set_blocks (b : gmap Z Z) (s : state) : state :=
  mkState (mem s) b (dbgHead s) (debugBytesAlive s) (debugAllocCount s)
          (calls s) (stderr s).
Definition set_dbgHead (h : Z) (s : state) : state :=
  mkState (mem s) (blocks s) h (debugBytesAlive s) (debugAllocCount s)
          (calls s) (stderr s).
Definition set_debugBytesAlive (n : Z) (s : state) : state :=
  mkState (mem s) (blocks s) (dbgHead s) n (debugAllocCount s)
          (calls s) (stderr s).
Definition set_debugAllocCount (n : Z) (s : state) : state :=
  mkState (mem s) (blocks s) (dbgHead s) (debugBytesAlive s) n
          (calls s) (stderr s).
Definition log_call (e : event) (s : state) : state :=
  mkState (mem s) (blocks s) (dbgHead s) (debugBytesAlive s) (debugAllocCount s)
          (e :: calls s) (stderr s).
Definition put_stderr (line : string) (s : state) : state :=
  mkState (mem s) (blocks s) (dbgHead s) (debugBytesAlive s) (debugAllocCount s)
          (calls s) (stderr s ++ [line]).

(** ** Outcomes and the monad of C statements *)

Inductive outcome (A : Type) : Type :=
| Ok (v : A) (s : state)      (* normal return *)
| Panic (msg : string)        (* panic(msg): diagnostic, then exit(1) *)
| Fault                       (* undefined behaviour: access outside every live
                                 block, read of a cell never written, free of
                                 something that is not a live block *)
| Spin.                       (* a loop that used up its fuel *)
Arguments Ok {A} v s.
Arguments Panic {A} msg.
Arguments Fault {A}.
Arguments Spin {A}.

Definition M (A : Type) : Type := state → outcome A.

Definition ret {A} (v : A) : M A := λ s, Ok v s.
Definition bind {A B} (c : M A) (k : A → M B) : M B := λ s,
  match c s with
  | Ok v s' => k v s'
  | Panic msg => Panic msg
  | Fault => Fault
  | Spin => Spin
  end.
Notation "'let*' x ':=' c 'in' k" := (bind c (λ x, k))
  (at level 10, x name, c at level 100, k at level 200).
Notation "c ';;' k" := (bind c (λ _, k))
  (at level 100, k at level 200, right associativity).

Definition gets {A} (f : state → A) : M A := λ s, Ok (f s) s.
Definition modify (f : state → state) : M unit := λ s, Ok tt (f s).
Definition panic {A} (msg : string) : M A := λ _, Panic msg.

(** ** Memory accesses *)

(** [valid_access s a n]: the [n] bytes at [a] lie inside one live block. *)
Definition valid_access (s : state) (a n : Z) : bool :=
  bool_decide (map_Exists (λ b m : Z, b ≤ a ∧ a + n ≤ b + m) (blocks s)).

(** [h->f] for a [DebugHeader *h]: the whole header has to be addressable. *)
Definition load_field (h off : Z) : M Z := λ s,
  if valid_access s h sizeof_DebugHeader then
    match mem s !! (h + off) with
    | Some v => Ok v s
    | None => Fault
    end
  else Fault.

Definition store_field (h off v : Z) : M unit := λ s,
  if valid_access s h sizeof_DebugHeader
  then Ok tt (set_mem (<[h + off := v]> (mem s)) s)
  else Fault.

(** [p[i] = c] for a [char *p]. *)
Definition store_char (a c : Z) : M unit := λ s,
  if valid_access s a 1
  then Ok tt (set_mem (<[a := c]> (mem s)) s)
  else Fault.

(** ** The system allocator *)

Definition shift (d k : Z) : Z := k + d.

Global Instance shift_inj d : Inj (=) (=) (shift d).
Proof. intros x y. unfold shift. lia. Qed.

(** The cells of [src, src+cnt) copied to [dst, dst+cnt), as [realloc] does
    when it moves a block; cells outside the destination are kept. *)
Definition move_cells (m : gmap Z Z) (src dst cnt : Z) : gmap Z Z :=
  kmap (shift (dst - src)) (filter (λ kv, src ≤ kv.1 < src + cnt) m)
  ∪ filter (λ kv, ¬ (dst ≤ kv.1 < dst + cnt)) m.

Module Libc.

(** [malloc(n)]: the answer [r] is [None] for a null result and [Some a] for
    a block of [n] bytes at [a]; its cells are left as they are. *)
Definition malloc (r : option Z) (n : Z) : M Z := λ s,
  let s := log_call (EvMalloc n) s in
  match r with
  | None => Ok NULL s
  | Some a => Ok a (set_blocks (<[a := n]> (blocks s)) s)
  end.

(** [free(p)]: nothing for a null pointer, undefined unless [p] is the base
    of a live block. *)
Definition free (p : Z) : M unit := λ s,
  if decide (p = NULL) then Ok tt s
  else
    let s := log_call (EvFree p) s in
    match blocks s !! p with
    | Some _ => Ok tt (set_blocks (delete p (blocks s)) s)
    | None => Fault
    end.

(** [realloc(p, n)]: [malloc(n)] for a null [p]; for a live [p] and [n = 0]
    the block is released and the result is null; otherwise the answer [r]
    is [None] (null result, block untouched), [Some p] (resized in place) or
    [Some a] (moved to [a], contents copied up to the smaller size). *)
Definition realloc (r : option Z) (p n : Z) : M Z := λ s,
  if decide (p = NULL) then malloc r n s
  else if decide (n = 0) then (free p ;; ret NULL) s
  else
    match blocks s !! p with
    | None => Fault
    | Some m =>
        let s := log_call (EvRealloc p n) s in
        match r with
        | None => Ok NULL s
        | Some a =>
            let cells := if decide (a = p) then mem s
                         else move_cells (mem s) p a (Z.min m n) in
            Ok a (set_blocks (<[a := n]> (delete p (blocks s)))
                    (set_mem cells s))
        end
    end.

End Libc.

(** ** mem.h: the allocator interface *)

Record Allocator : Type := mkAllocator {
  alloc : option Z → Z → M Z;
  free : Z → M unit;
  realloc : option Z → Z → Z → M Z
}.

(** ** mem.c *)

Definition checkPtr (ptr : Z) : M unit :=
  if decide (ptr = NULL) then panic "out of memory" else ret tt.

Definition xalloc (r : option Z) (sz : Z) : M Z :=
  if decide (sz = 0) then ret NULL
  else
    let* ptr := Libc.malloc r sz in
    checkPtr ptr ;;
    ret ptr.

Definition xrealloc (r : option Z) (ptr sz : Z) : M Z :=
  let* newPtr := Libc.realloc r ptr sz in
  checkPtr newPtr ;;
  ret newPtr.

Definition xfree (ptr : Z) : M unit :=
  if decide (ptr = NULL) then ret tt
  else
    let h := ptr - sizeof_DebugHeader in
    let* hprev := load_field h off_prev in
    (if decide (hprev ≠ NULL) then
       let* hprev := load_field h off_prev in
       let* hnext := load_field h off_next in
       store_field hprev off_next hnext
     else
       let* hnext := load_field h off_next in
       modify (set_dbgHead hnext)) ;;
    let* hnext := load_field h off_next in
    (if decide (hnext ≠ NULL) then
       let* hnext := load_field h off_next in
       let* hprev := load_field h off_prev in
       store_field hnext off_prev hprev
     else ret tt) ;;
    let* hsize := load_field h off_size in
    modify (λ s, set_debugBytesAlive (wrap (debugBytesAlive s - hsize)) s) ;;
    Libc.free h.

Definition debugAlloc (r : option Z) (sz : Z) : M Z :=
  if decide (sz = 0) then ret NULL
  else
    let* dh := Libc.malloc r (wrap (sizeof_DebugHeader + sz)) in
    checkPtr dh ;;
    modify (λ s, set_debugAllocCount (wrap (debugAllocCount s + 1)) s) ;;
    store_field dh off_size sz ;;
    let* count := gets debugAllocCount in
    store_field dh off_allocNumber count ;;
    let* head := gets dbgHead in
    store_field dh off_next head ;;
    store_field dh off_prev NULL ;;
    let* head := gets dbgHead in
    (if decide (head ≠ NULL) then
       let* head := gets dbgHead in
       store_field head off_prev dh
     else ret tt) ;;
    modify (set_dbgHead dh) ;;
    modify (λ s, set_debugBytesAlive (wrap (debugBytesAlive s + sz)) s) ;;
    ret (dh + sizeof_DebugHeader).

Definition debugFree (ptr : Z) : M unit :=
  if decide (ptr = NULL) then ret tt
  else
    let h := ptr - sizeof_DebugHeader in
    let* hprev := load_field h off_prev in
    (if decide (hprev ≠ NULL) then
       let* hprev := load_field h off_prev in
       let* hnext := load_field h off_next in
       store_field hprev off_next hnext
     else
       let* hnext := load_field h off_next in
       modify (set_dbgHead hnext)) ;;
    let* hnext := load_field h off_next in
    (if decide (hnext ≠ NULL) then
       let* hnext := load_field h off_next in
       let* hprev := load_field h off_prev in
       store_field hnext off_prev hprev
     else ret tt) ;;
    let* hsize := load_field h off_size in
    modify (λ s, set_debugBytesAlive (wrap (debugBytesAlive s - hsize)) s) ;;
    Libc.free h.

Definition debugRealloc (r : option Z) (ptr sz : Z) : M Z :=
  if decide (ptr = NULL) then debugAlloc r sz
  else if decide (sz = 0) then (debugFree ptr ;; ret NULL)
  else
    let old := ptr - sizeof_DebugHeader in
    let* oldSize := load_field old off_size in
    let* new := Libc.realloc r old (wrap (sizeof_DebugHeader + sz)) in
    checkPtr new ;;
    (if decide (new ≠ old) then
       let* nprev := load_field new off_prev in
       (if decide (nprev ≠ NULL) then
          let* nprev := load_field new off_prev in
          store_field nprev off_next new
        else modify (set_dbgHead new)) ;;
       let* nnext := load_field new off_next in
       (if decide (nnext ≠ NULL) then
          let* nnext := load_field new off_next in
          store_field nnext off_prev new
        else ret tt)
     else ret tt) ;;
    store_field new off_size sz ;;
    modify (λ s, set_debugBytesAlive (wrap (debugBytesAlive s - oldSize)) s) ;;
    modify (λ s, set_debugBytesAlive (wrap (debugBytesAlive s + sz)) s) ;;
    ret (new + sizeof_DebugHeader).

Definition BasicAllocator : Allocator :=
  {| alloc := Libc.malloc; free := Libc.free; realloc := Libc.realloc |}.

Definition SafeAllocator : Allocator :=
  {| alloc := xalloc; free := xfree; realloc := xrealloc |}.

Definition DebugAllocator : Allocator :=
  {| alloc := debugAlloc; free := debugFree; realloc := debugRealloc |}.

(** [%zu] *)
Definition zu (n : Z) : string := pretty n.

Definition nl : string := String (Ascii.ascii_of_nat 10) EmptyString.

Definition fprintf_stderr (line : string) : M unit := modify (put_stderr line).

Definition leak_line (allocNumber size : Z) : string :=
  "Leak: allocation " +:+ zu allocNumber +:+ " leaked " +:+ zu size
  +:+ " bytes " +:+ nl.

(** The [while (h)] loop of [debugReportLeaks]; [fuel] bounds the number of
    records visited. *)
Fixpoint report_loop (fuel : nat) (h : Z) : M unit :=
  if decide (h = NULL) then ret tt
  else
    match fuel with
    | O => λ _, Spin
    | S fuel' =>
        let* n := load_field h off_allocNumber in
        let* sz := load_field h off_size in
        fprintf_stderr (leak_line n sz) ;;
        let* hnext := load_field h off_next in
        report_loop fuel' hnext
    end.

Definition debugReportLeaks (fuel : nat) : M unit :=
  let* h := gets dbgHead in
  if decide (h = NULL) then
    fprintf_stderr ("No memory leaks detected." +:+ nl)
  else
    fprintf_stderr ("MEMORY LEAKS DETECTED:" +:+ nl) ;;
    report_loop fuel h ;;
    let* alive := gets debugBytesAlive in
    fprintf_stderr ("Total leaked: " +:+ zu alive +:+ " bytes" +:+ nl).

(** The characters of a C string: everything before the first NUL. *)
Fixpoint c_chars (s : string) : list Z :=
  match s with
  | EmptyString => []
  | String c s' =>
      if decide (c = Ascii.zero) then []
      else Z.of_N (Ascii.N_of_ascii c) :: c_chars s'
  end.

Definition strlen (s : string) : Z := Z.of_nat (length (c_chars s)).

(** [for (i = 0; i < len; i++) dup[i] = s[i];] with [cs] the characters
    [s[i..len)]. *)
Fixpoint copy_loop (dup i : Z) (cs : list Z) : M unit :=
  match cs with
  | [] => ret tt
  | c :: cs' => store_char (dup + i) c ;; copy_loop dup (i + 1) cs'
  end.

Definition xstrdup (allocator : Allocator) (r : option Z) (s : option string)
  : M Z :=
  match s with
  | None => ret NULL
  | Some s =>
      let len := strlen s in
      let* dup := alloc allocator r (wrap (len + 1)) in
      copy_loop dup 0 (c_chars s) ;;
      store_char (dup + len) 0 ;;
      ret dup
  end.

(** ** The bookkeeping list, seen from outside *)

(** One tracked allocation: where its header lives and the two fields that
    do not depend on its neighbours. *)
Record hdr : Type := mkHdr { h_addr : Z; h_size : Z; h_num : Z }.

Definition first_addr (l : list hdr) (dflt : Z) : Z :=
  match l with
  | [] => dflt
  | r :: _ => h_addr r
  end.

Definition last_addr (l : list hdr) (dflt : Z) : Z :=
  match last l with
  | Some r => h_addr r
  | None => dflt
  end.

(** [dll_seg m prv l nxt]: the cells of [m] hold the records of [l] as a
    doubly-linked segment entered from [prv] and left towards [nxt]. *)
Fixpoint dll_seg (m : gmap Z Z) (prv : Z) (l : list hdr) (nxt : Z) : Prop :=
  match l with
  | [] => True
  | r :: t =>
      m !! (h_addr r + off_size) = Some (h_size r) ∧
      m !! (h_addr r + off_allocNumber) = Some (h_num r) ∧
      m !! (h_addr r + off_next) = Some (first_addr t nxt) ∧
      m !! (h_addr r + off_prev) = Some prv ∧
      dll_seg m (h_addr r) t nxt
  end.

Definition sum_sizes (l : list hdr) : Z := foldr (λ r acc, h_size r + acc) 0 l.

(** What the system allocator guarantees about the blocks it has handed out:
    they lie in the address space, away from address 0, and do not overlap. *)
Record heap_ok (b : gmap Z Z) : Prop := mkHeapOk {
  heap_range : ∀ a n, b !! a = Some n → 0 < a ∧ 0 ≤ n ∧ a + n ≤ SIZE_MOD;
  heap_disjoint : ∀ a1 n1 a2 n2,
    b !! a1 = Some n1 → b !! a2 = Some n2 → a1 ≠ a2 →
    a1 + n1 ≤ a2 ∨ a2 + n2 ≤ a1
}.

(** [dbg_repr s l]: in state [s] the debug allocator tracks exactly the
    records [l], head first. *)
Record dbg_repr (s : state) (l : list hdr) : Prop := mkRepr {
  repr_head : dbgHead s = first_addr l NULL;
  repr_cells : dll_seg (mem s) NULL l NULL;
  repr_nodup : NoDup (h_addr <$> l);
  repr_blocks : ∀ a n,
    blocks s !! a = Some n ↔
    ∃ r, r ∈ l ∧ h_addr r = a ∧ n = sizeof_DebugHeader + h_size r;
  repr_sizes : Forall (λ r, 0 < h_size r) l;
  repr_heap : heap_ok (blocks s);
  repr_bytes : debugBytesAlive s = wrap (sum_sizes l);
  repr_count : 0 ≤ debugAllocCount s < SIZE_MOD
}.

Definition dbg_inv (s : state) : Prop := ∃ l, dbg_repr s l.

(** The records found by following [next] from [h], as the leak report does. *)
Fixpoint walk (fuel : nat) (m : gmap Z Z) (h : Z) : option (list hdr) :=
  if decide (h = NULL) then Some []
  else
    match fuel with
    | O => None
    | S fuel' =>
        sz ← m !! (h + off_size);
        num ← m !! (h + off_allocNumber);
        nxt ← m !! (h + off_next);
        t ← walk fuel' m nxt;
        Some (mkHdr h sz num :: t)
    end.

(** [in_list s r]: [r] is a record of the list headed by [dbgHead]. *)
Inductive in_list (s : state) : Z → Prop :=
| in_list_head : dbgHead s ≠ NULL → in_list s (dbgHead s)
| in_list_next r n :
    in_list s r → mem s !! (r + off_next) = Some n → n ≠ NULL → in_list s n.

(** The list is a valid doubly-linked structure. *)
Definition dll_valid (s : state) : Prop :=
  (dbgHead s ≠ NULL → mem s !! (dbgHead s + off_prev) = Some NULL) ∧
  ∀ r, in_list s r →
    valid_access s r sizeof_DebugHeader = true ∧
    ∃ n p,
      mem s !! (r + off_next) = Some n ∧
      mem s !! (r + off_prev) = Some p ∧
      (n ≠ NULL → mem s !! (n + off_prev) = Some r) ∧
      (p ≠ NULL → mem s !! (p + off_next) = Some r).

(** ** Sequences of operations on the debug allocator *)

Inductive op : Type :=
| OpAlloc (r : option Z) (sz : Z)
| OpFree (ptr : Z)
| OpRealloc (r : option Z) (ptr sz : Z).

Definition exec (o : op) : M Z :=
  match o with
  | OpAlloc r sz => alloc DebugAllocator r sz
  | OpFree ptr => free DebugAllocator ptr ;; ret NULL
  | OpRealloc r ptr sz => realloc DebugAllocator r ptr sz
  end.

(** The allocator's side of the contract: a block it hands out is new. *)
Definition fresh_block (b : gmap Z Z) (a n : Z) : Prop :=
  0 < a ∧ a + n ≤ SIZE_MOD ∧ b !! a = None ∧
  map_Forall (λ a' n', a + n ≤ a' ∨ a' + n' ≤ a) b.

Definition answer_ok (b : gmap Z Z) (r : option Z) (n : Z) : Prop :=
  match r with
  | None => True
  | Some a => fresh_block b a n
  end.

(** [op_ok s o]: the sizes are [size_t] values and the answer the system
    allocator gives inside [o] respects its contract in state [s] (a block
    being resized may stay where it is or overlap its old place). *)
Definition op_ok (s : state) (o : op) : Prop :=
  match o with
  | OpAlloc r sz =>
      0 ≤ sz < SIZE_MOD ∧
      answer_ok (blocks s) r (wrap (sizeof_DebugHeader + sz))
  | OpFree _ => True
  | OpRealloc r ptr sz =>
      0 ≤ sz < SIZE_MOD ∧
      answer_ok (if decide (ptr = NULL) then blocks s
                 else delete (ptr - sizeof_DebugHeader) (blocks s))
                r (wrap (sizeof_DebugHeader + sz))
  end.

(** The sequence number carried by the record that a step created, if it
    created one: read back from the header in front of the returned block. *)
Definition creates (o : op) : bool :=
  match o with
  | OpAlloc _ _ => true
  | OpFree _ => false
  | OpRealloc _ ptr _ => bool_decide (ptr = NULL)
  end.

Definition assigned (o : op) (v : Z) (s' : state) : list Z :=
  if creates o && bool_decide (v ≠ NULL) then
    match mem s' !! (v - sizeof_DebugHeader + off_allocNumber) with
    | Some n => [n]
    | None => []
    end
  else [].

(** Run a sequence of operations, collecting the sequence numbers assigned. *)
Fixpoint run (ops : list op) (s : state) : outcome (list Z) :=
  match ops with
  | [] => Ok [] s
  | o :: ops' =>
      match exec o s with
      | Ok v s1 =>
          match run ops' s1 with
          | Ok ns s2 => Ok (assigned o v s1 ++ ns) s2
          | other => other
          end
      | Panic msg => Panic msg
      | Fault => Fault
      | Spin => Spin
      end
  end.

Fixpoint ops_ok (ops : list op) (s : state) : Prop :=
  match ops with
  | [] => True
  | o :: ops' =>
      op_ok s o ∧
      match exec o s with
      | Ok _ s1 => ops_ok ops' s1
      | _ => True
      end
  end.

(** ** The leak report, as text *)

Definition no_leaks_line : string := "No memory leaks detected." +:+ nl.
Definition leaks_header : string := "MEMORY LEAKS DETECTED:" +:+ nl.
Definition total_line (alive : Z) : string :=
  "Total leaked: " +:+ zu alive +:+ " bytes" +:+ nl.

Definition report_of (l : list hdr) (alive : Z) : list string :=
  match l with
  | [] => [no_leaks_line]
  | _ => leaks_header :: ((λ r, leak_line (h_num r) (h_size r)) <$> l)
           ++ [total_line alive]
  end.

(** ** Vocabulary of the proofs *)

(** [set_stderr e s]: [s] with [e] as everything written to stderr. *)
Definition set_stderr (e : list string) (s : state) : state :=
  mkState (mem s) (blocks s) (dbgHead s) (debugBytesAlive s) (debugAllocCount s)
          (calls s) e.

(** Two headers that do not share a cell. *)
Definition far (a b : Z) : Prop :=
  a + sizeof_DebugHeader ≤ b ∨ b + sizeof_DebugHeader ≤ a.

(** What the bookkeeping of the debug allocator never writes itself: the
    table of live blocks, the log of requests to the system allocator, the
    allocation counter (outside [debugAlloc]) and stderr. *)
Definition outside (s : state) : gmap Z Z * list event * Z * list string :=
  (blocks s, calls s, debugAllocCount s, stderr s).

(** [keeps c]: whenever [c] returns, that part of the state is as before. *)
Definition keeps {A} (c : M A) : Prop :=
  ∀ s v s', c s = Ok v s' → outside s' = outside s.

(** Records ordered by the address of their header. *)
Definition addr_le (r1 r2 : hdr) : Prop := h_addr r1 ≤ h_addr r2.

Global Instance addr_le_dec r1 r2 : Decision (addr_le r1 r2).
Proof. unfold addr_le. apply _. Defined.

(** The contract of the system allocator can be checked by computation. *)
Global Instance fresh_block_dec b a n : Decision (fresh_block b a n).
Proof. unfold fresh_block. apply _. Defined.

Global Instance answer_ok_dec b r n : Decision (answer_ok b r n).
Proof. destruct r; simpl; apply _. Defined.

Global Instance op_ok_dec s o : Decision (op_ok s o).
Proof. destruct o; simpl; apply _. Defined.

Global Instance ops_ok_dec ops s : Decision (ops_ok ops s).
Proof.
  revert s. induction ops as [|o ops IH]; intros s; simpl; [apply _|].
  destruct (exec o s); apply _.
Defined.

(** The end-to-end scenario: allocate 10 and 20 bytes, free the first block,
    shrink the second to 5 bytes (the allocator moves it). *)
Definition demo_ops : list op :=
  [ OpAlloc (Some 4096) 10;
    OpAlloc (Some 8192) 20;
    OpFree (4096 + sizeof_DebugHeader);
    OpRealloc (Some 12288) (8192 + sizeof_DebugHeader) 5 ].

Definition final_state (ops : list op) (s : state) : state :=
  match run ops s with
  | Ok _ s' => s'
  | _ => s
  end.

Definition demo_state : state := final_state demo_ops init.

(** Two allocations, both outstanding. *)
Definition two_allocs : list op :=
  [ OpAlloc (Some 4096) 10; OpAlloc (Some 8192) 20 ].

Definition two_state : state := final_state two_allocs init.

(** The state after [xalloc(16)] on a fresh program, the block being at 4096. *)
Definition raw_state : state :=
  match alloc SafeAllocator (Some 4096) 16 init with
  | Ok _ s => s
  | _ => init
  end.

(** [allocate(0)] returns empty and changes nothing, the log of requests to
    the system allocator included. *)
Definition alloc0_silent (A : Allocator) : Prop :=
  ∀ r s, alloc A r 0 s = Ok NULL s.

(** Allocate one byte and free it again, [n] times over; done [2^64] times
    the allocation counter comes back to where it started. *)
Fixpoint churns (n : nat) : list op :=
  match n with
  | O => []
  | S n' =>
      OpAlloc (Some 4096) 1 :: OpFree (4096 + sizeof_DebugHeader) :: churns n'
  end.

Definition wrap_ops : list op := churns (Z.to_nat SIZE_MOD).

(** ** Legitimate requests *)

(** [usable s v]: [v] is null or the payload pointer of a live block. *)
Definition usable (s : state) (v : Z) : Prop :=
  v = NULL ∨ is_Some (blocks s !! (v - sizeof_DebugHeader)).

(** [proper s o]: the caller and the system allocator both play by the
    rules in [o]: a pointer passed in is null or the payload of a live
    block, and unless the size is zero the system allocator answers with a
    block and header plus payload fit in a [size_t]. *)
Definition proper (s : state) (o : op) : Prop :=
  match o with
  | OpAlloc r sz =>
      sz = 0 ∨ (is_Some r ∧ sizeof_DebugHeader + sz < SIZE_MOD)
  | OpFree ptr => usable s ptr
  | OpRealloc r ptr sz =>
      usable s ptr ∧
      (sz = 0 ∨ (is_Some r ∧ sizeof_DebugHeader + sz < SIZE_MOD))
  end.

Global Instance usable_dec s v : Decision (usable s v).
Proof. unfold usable. apply _. Defined.

Global Instance proper_dec s o : Decision (proper s o).
Proof. destruct o; simpl; apply _. Defined.

(** The pointer an operation is applied to. *)
Definition target (o : op) : Z :=
  match o with
  | OpAlloc _ _ => NULL
  | OpFree ptr => ptr
  | OpRealloc _ ptr _ => ptr
  end.

Global Instance hdr_eq_dec : EqDecision hdr.
Proof. solve_decision. Defined.

(** ** Strings in memory *)

(** The cells after [cs] has been written, one character per cell, from
    address [a] on. *)
Fixpoint write_chars (m : gmap Z Z) (a : Z) (cs : list Z) : gmap Z Z :=
  match cs with
  | [] => m
  | c :: cs' => write_chars (<[a := c]> m) (a + 1) cs'
  end.

(** ** More scenarios *)

(** The state in which [c] returns when started in [s]. *)
Definition after {A} (c : M A) (s : state) : state :=
  match c s with
  | Ok _ s' => s'
  | _ => s
  end.

(** Two raw blocks side by side, as [malloc(32)] and [malloc(16)] may place
    them; the program has zeroed the cells of the first one that a
    [DebugHeader] laid over it would use for [size], [next] and [prev]. *)
Definition adjacent_state : state :=
  after (Libc.malloc (Some 4096) 32 ;;
         Libc.malloc (Some 4128) 16 ;;
         store_char (4096 + off_size) 0 ;;
         store_char (4096 + off_next) 0 ;;
         store_char (4096 + off_prev) 0) init.

(** * Proofs *)

(** ** Stepping through the monad *)

Lemma bind_Ok {A B} (c : M A) (k : A → M B) s v s1 :
  c s = Ok v s1 → bind c k s = k v s1.
Proof. intros H. unfold bind. by rewrite H. Qed.

Lemma bind_Ok_inv {A B} (c : M A) (k : A → M B) s w s' :
  bind c k s = Ok w s' → ∃ v s1, c s = Ok v s1 ∧ k v s1 = Ok w s'.
Proof. unfold bind. destruct (c s) as [v s1| | |]; try done. eauto. Qed.

Lemma valid_access_blocks s s' a n :
  blocks s' = blocks s → valid_access s' a n = valid_access s a n.
Proof. unfold valid_access. by intros ->. Qed.

Lemma valid_access_true s a n b m :
  blocks s !! b = Some m → b ≤ a → a + n ≤ b + m → valid_access s a n = true.
Proof.
  intros Hb H1 H2. apply bool_decide_eq_true.
  apply map_Exists_lookup. eauto.
Qed.

Lemma valid_access_inv s a n :
  valid_access s a n = true →
  ∃ b m, blocks s !! b = Some m ∧ b ≤ a ∧ a + n ≤ b + m.
Proof. intros H. apply bool_decide_eq_true, map_Exists_lookup in H. naive_solver. Qed.

Lemma load_field_Ok s h off v :
  valid_access s h sizeof_DebugHeader = true →
  mem s !! (h + off) = Some v →
  load_field h off s = Ok v s.
Proof. intros Hv Hm. unfold load_field. by rewrite Hv, Hm. Qed.

Lemma store_field_Ok s h off v :
  valid_access s h sizeof_DebugHeader = true →
  store_field h off v s = Ok tt (set_mem (<[h + off := v]> (mem s)) s).
Proof. intros Hv. unfold store_field. by rewrite Hv. Qed.

Lemma load_field_Ok_inv s h off v s' :
  load_field h off s = Ok v s' →
  s' = s ∧ valid_access s h sizeof_DebugHeader = true ∧ mem s !! (h + off) = Some v.
Proof.
  unfold load_field. destruct (valid_access s h _); [|done].
  destruct (mem s !! _); [|done]. by intros [= -> ->].
Qed.

Lemma store_field_Ok_inv s h off v u s' :
  store_field h off v s = Ok u s' →
  s' = set_mem (<[h + off := v]> (mem s)) s ∧
  valid_access s h sizeof_DebugHeader = true.
Proof.
  unfold store_field. destruct (valid_access s h _); [|done]. by intros [= _ <-].
Qed.

Lemma bind_assoc {A B C} (c : M A) (k1 : A → M B) (k2 : B → M C) s :
  bind (bind c k1) k2 s = bind c (λ x, bind (k1 x) k2) s.
Proof. unfold bind. by destruct (c s). Qed.

(** ** Segments of the bookkeeping list *)

Lemma last_addr_cons r t d : last_addr (r :: t) d = last_addr t (h_addr r).
Proof. unfold last_addr. rewrite last_cons. by destruct (last t). Qed.

Lemma last_addr_snoc l r d : last_addr (l ++ [r]) d = h_addr r.
Proof. unfold last_addr. by rewrite last_snoc. Qed.

Lemma first_addr_app l1 l2 d :
  first_addr (l1 ++ l2) d = first_addr l1 (first_addr l2 d).
Proof. by destruct l1. Qed.

Lemma dll_seg_app m p l1 l2 n :
  dll_seg m p (l1 ++ l2) n ↔
  dll_seg m p l1 (first_addr l2 n) ∧ dll_seg m (last_addr l1 p) l2 n.
Proof.
  revert p. induction l1 as [|r t IH]; intros p; simpl.
  - unfold last_addr; simpl. tauto.
  - rewrite last_addr_cons, first_addr_app, IH. tauto.
Qed.

Lemma dll_seg_insert m p l n x off v :
  (∀ r, r ∈ l → far (h_addr r) x) → 0 ≤ off < sizeof_DebugHeader →
  dll_seg m p l n → dll_seg (<[x + off := v]> m) p l n.
Proof.
  unfold far, sizeof_DebugHeader, off_size.
  revert p. induction l as [|r t IH]; intros p Hfar Hoff; simpl; [done|].
  intros (Hs & Hn & Hx & Hp & Ht).
  assert (far (h_addr r) x) as Hr by (apply Hfar; left).
  unfold far, sizeof_DebugHeader in Hr.
  unfold off_size, off_allocNumber, off_next, off_prev in *.
  rewrite !lookup_insert_ne by lia.
  repeat split; try done. apply IH; [|done|done].
  intros r' Hr'. apply Hfar. by right.
Qed.

Lemma dll_seg_set_next m p l q n n' :
  (∀ r, r ∈ l → far (h_addr r) (h_addr q)) →
  dll_seg m p (l ++ [q]) n →
  dll_seg (<[h_addr q + off_next := n']> m) p (l ++ [q]) n'.
Proof.
  intros Hfar. rewrite !dll_seg_app. simpl. intros (Hl & Hs & Hn & Hx & Hp & _).
  split.
  - apply dll_seg_insert; [done|by unfold off_next, sizeof_DebugHeader|done].
  - unfold off_size, off_allocNumber, off_next, off_prev in *.
    rewrite lookup_insert_eq, !lookup_insert_ne by lia. done.
Qed.

Lemma dll_seg_set_prev m p p' q l n :
  (∀ r, r ∈ l → far (h_addr r) (h_addr q)) →
  dll_seg m p (q :: l) n →
  dll_seg (<[h_addr q + off_prev := p']> m) p' (q :: l) n.
Proof.
  intros Hfar. simpl. intros (Hs & Hn & Hx & Hp & Hl).
  unfold off_size, off_allocNumber, off_next, off_prev in *.
  rewrite lookup_insert_eq, !lookup_insert_ne by lia.
  repeat split; try done.
  apply (dll_seg_insert _ _ _ _ _ 24);
    [done|by unfold sizeof_DebugHeader|done].
Qed.

Lemma dll_seg_set_size m p q l n sz :
  (∀ r, r ∈ l → far (h_addr r) (h_addr q)) →
  dll_seg m p (q :: l) n →
  dll_seg (<[h_addr q + off_size := sz]> m) p
          (mkHdr (h_addr q) sz (h_num q) :: l) n.
Proof.
  intros Hfar. simpl. intros (Hs & Hn & Hx & Hp & Hl).
  unfold off_size, off_allocNumber, off_next, off_prev in *.
  rewrite lookup_insert_eq, !lookup_insert_ne by lia.
  repeat split; try done.
  apply (dll_seg_insert _ _ _ _ _ 0);
    [done|by unfold sizeof_DebugHeader|done].
Qed.

(** A segment only depends on the cells of its own headers. *)
Lemma dll_seg_frame m m' p l n :
  (∀ r off, r ∈ l → 0 ≤ off < sizeof_DebugHeader →
            m' !! (h_addr r + off) = m !! (h_addr r + off)) →
  dll_seg m p l n → dll_seg m' p l n.
Proof.
  revert p. induction l as [|r t IH]; intros p Heq; simpl; [done|].
  intros (Hs & Hn & Hx & Hp & Ht).
  rewrite !Heq by (first [left | unfold sizeof_DebugHeader, off_size,
    off_allocNumber, off_next, off_prev; lia]).
  repeat split; try done. apply IH; [|done].
  intros r' off Hr'. apply Heq. by right.
Qed.

Lemma sum_sizes_app l1 l2 : sum_sizes (l1 ++ l2) = sum_sizes l1 + sum_sizes l2.
Proof. induction l1; simpl; [done|]. unfold sum_sizes in *. simpl. lia. Qed.

Lemma sum_sizes_cons r l : sum_sizes (r :: l) = h_size r + sum_sizes l.
Proof. done. Qed.

Lemma list_snoc_case {A} (l : list A) : l = [] ∨ ∃ l' x, l = l' ++ [x].
Proof.
  induction l as [|x l' _] using rev_ind; [by left|right; eauto].
Qed.

(** ** wrap *)

Lemma wrap_range z : 0 ≤ wrap z < SIZE_MOD.
Proof. unfold wrap, SIZE_MOD. apply Z.mod_pos_bound. lia. Qed.

Lemma wrap_small z : 0 ≤ z < SIZE_MOD → wrap z = z.
Proof. unfold wrap. apply Z.mod_small. Qed.

Lemma wrap_add_l a b : wrap (wrap a + b) = wrap (a + b).
Proof. unfold wrap. apply Zplus_mod_idemp_l. Qed.

Lemma wrap_sub_l a b : wrap (wrap a - b) = wrap (a - b).
Proof. unfold wrap. apply Zminus_mod_idemp_l. Qed.

(** ** What the representation says about blocks *)

Lemma repr_block s l r :
  dbg_repr s l → r ∈ l →
  blocks s !! h_addr r = Some (sizeof_DebugHeader + h_size r).
Proof. intros H Hr. apply (repr_blocks _ _ H). eauto. Qed.

Lemma repr_size_pos s l r : dbg_repr s l → r ∈ l → 0 < h_size r.
Proof.
  intros H Hr. pose proof (repr_sizes _ _ H) as Hs.
  rewrite Forall_forall in Hs. by apply Hs.
Qed.

Lemma repr_addr_range s l r :
  dbg_repr s l → r ∈ l →
  0 < h_addr r ∧ h_addr r + sizeof_DebugHeader + h_size r ≤ SIZE_MOD.
Proof.
  intros H Hr. pose proof (repr_block _ _ _ H Hr) as Hb.
  apply (heap_range _ (repr_heap _ _ H)) in Hb. lia.
Qed.

Lemma repr_valid s l r :
  dbg_repr s l → r ∈ l → valid_access s (h_addr r) sizeof_DebugHeader = true.
Proof.
  intros H Hr. eapply valid_access_true; [by eapply repr_block|lia|].
  pose proof (repr_size_pos _ _ _ H Hr). lia.
Qed.

Lemma repr_far s l r1 r2 :
  dbg_repr s l → r1 ∈ l → r2 ∈ l → h_addr r1 ≠ h_addr r2 →
  far (h_addr r1) (h_addr r2).
Proof.
  intros H H1 H2 Hne.
  pose proof (repr_block _ _ _ H H1) as Hb1.
  pose proof (repr_block _ _ _ H H2) as Hb2.
  pose proof (repr_size_pos _ _ _ H H1). pose proof (repr_size_pos _ _ _ H H2).
  destruct (heap_disjoint _ (repr_heap _ _ H) _ _ _ _ Hb1 Hb2 Hne);
    unfold far; lia.
Qed.

Lemma repr_same_addr s l r1 r2 :
  dbg_repr s l → r1 ∈ l → r2 ∈ l → h_addr r1 = h_addr r2 → r1 = r2.
Proof.
  intros H H1 H2 Heq. pose proof (repr_nodup _ _ H) as Hnd.
  apply list_elem_of_lookup in H1 as [i Hi], H2 as [j Hj].
  assert (i = j) as ->; [|congruence].
  eapply NoDup_lookup; [done| |]; rewrite list_lookup_fmap.
  - by rewrite Hi.
  - rewrite Hj. simpl. by rewrite Heq.
Qed.

(** The neighbours of a record at a known place in the list are other
    records. *)
Lemma repr_split_far s l1 r l2 r' :
  dbg_repr s (l1 ++ r :: l2) → r' ∈ l1 ++ l2 → far (h_addr r') (h_addr r).
Proof.
  intros H Hr'. pose proof (repr_nodup _ _ H) as Hnd.
  eapply repr_far; [done| | |].
  - rewrite elem_of_app, elem_of_cons. rewrite elem_of_app in Hr'. tauto.
  - rewrite elem_of_app, elem_of_cons. tauto.
  - rewrite fmap_app, fmap_cons in Hnd.
    apply NoDup_app in Hnd as (Hnd1 & Hcross & Hnd2).
    apply NoDup_cons in Hnd2 as [Hnotin _].
    intros Heq. apply elem_of_app in Hr' as [Hr'|Hr'].
    + apply (Hcross (h_addr r')); [by apply list_elem_of_fmap_2|].
      rewrite Heq. left.
    + apply Hnotin. rewrite <- Heq. by apply list_elem_of_fmap_2.
Qed.

Lemma fresh_block_far b a n a' n' :
  fresh_block b a n → sizeof_DebugHeader ≤ n →
  b !! a' = Some n' → sizeof_DebugHeader ≤ n' → far a' a.
Proof.
  intros (_ & _ & _ & Hall) Hn Hb Hn'. apply Hall in Hb. unfold far. lia.
Qed.

Lemma heap_ok_insert b a n :
  heap_ok b → 0 ≤ n → fresh_block b a n → heap_ok (<[a := n]> b).
Proof.
  intros [Hr Hd] Hn (Ha & Hend & Hnone & Hall). split.
  - intros a' n'. rewrite lookup_insert. case_decide; [|by apply Hr].
    intros [= <-]. subst. lia.
  - intros a1 n1 a2 n2. rewrite !lookup_insert.
    repeat case_decide; subst; intros H1 H2 Hne; simplify_eq.
    + apply Hall in H2. lia.
    + apply Hall in H1. lia.
    + by eapply Hd.
Qed.

Lemma heap_ok_delete b a : heap_ok b → heap_ok (delete a b).
Proof.
  intros [Hr Hd]. split.
  - intros a' n'. rewrite lookup_delete_Some. intros [_ H]. by apply Hr.
  - intros a1 n1 a2 n2. rewrite !lookup_delete_Some.
    intros [_ H1] [_ H2]. by apply Hd.
Qed.

Lemma heap_ok_empty : heap_ok ∅.
Proof. split; intros *; by rewrite lookup_empty. Qed.

(** ** Tactics for running the code forward *)

Ltac snorm :=
  unfold set_mem, set_blocks, set_dbgHead, set_debugBytesAlive,
    set_debugAllocCount, log_call, put_stderr in *;
  cbn [mem blocks dbgHead debugBytesAlive debugAllocCount calls stderr] in *.
Ltac mpure := rewrite ?bind_assoc; erewrite bind_Ok; [|reflexivity]; snorm.
Ltac mstore := rewrite ?bind_assoc; erewrite bind_Ok; [|apply store_field_Ok]; snorm.
Ltac mload := rewrite ?bind_assoc; erewrite bind_Ok; [|apply load_field_Ok]; snorm.
Ltac offs :=
  unfold far in *;
  unfold sizeof_DebugHeader, off_size, off_allocNumber, off_next, off_prev,
    NULL in *.

(** ** Allocating *)

(** A successful [debugAlloc] puts a record with the next sequence number in
    front of the list. *)
Lemma debugAlloc_spec s l a sz :
  dbg_repr s l → 0 < sz → sizeof_DebugHeader + sz < SIZE_MOD →
  fresh_block (blocks s) a (sizeof_DebugHeader + sz) →
  ∃ s', debugAlloc (Some a) sz s = Ok (a + sizeof_DebugHeader) s' ∧
        dbg_repr s' (mkHdr a sz (wrap (debugAllocCount s + 1)) :: l) ∧
        debugAllocCount s' = wrap (debugAllocCount s + 1) ∧
        stderr s' = stderr s.
Proof.
  intros Hrepr Hsz Hlt Hfresh.
  pose proof Hfresh as (Ha & Hend & Hnone & Hall).
  assert (Hva : ∀ m' hd' ba' ct' cl' er',
    valid_access (mkState m' (<[a:=sizeof_DebugHeader + sz]> (blocks s)) hd' ba' ct' cl' er')
      a sizeof_DebugHeader = true).
  { intros. eapply valid_access_true; snorm; [apply lookup_insert_eq|lia|lia]. }
  unfold debugAlloc. rewrite decide_False by lia.
  rewrite wrap_small by (unfold sizeof_DebugHeader in *; lia).
  mpure. unfold checkPtr. rewrite (decide_False (P := a = NULL)) by (unfold NULL; lia).
  mpure. mpure.
  mstore; [|apply Hva]. mpure. mstore; [|apply Hva]. mpure.
  mstore; [|apply Hva]. mstore; [|apply Hva]. mpure.
  assert (Hbytes : wrap (debugBytesAlive s + sz)
                   = wrap (sum_sizes (mkHdr a sz (wrap (debugAllocCount s + 1)) :: l))).
  { rewrite (repr_bytes _ _ Hrepr), sum_sizes_cons, wrap_add_l. simpl. f_equal. lia. }
  assert (Hfar : ∀ r, r ∈ l → far (h_addr r) a).
  { intros r Hr. eapply fresh_block_far; [done|lia| |].
    - apply (repr_block _ _ _ Hrepr Hr).
    - pose proof (repr_size_pos _ _ _ Hrepr Hr). lia. }
  assert (Hseg : ∀ p n, dll_seg (mem s) p l n →
    dll_seg (<[a + off_prev:=NULL]> (<[a + off_next:=dbgHead s]>
      (<[a + off_allocNumber:=wrap (debugAllocCount s + 1)]>
         (<[a + off_size:=sz]> (mem s))))) p l n).
  { intros p n Hs. repeat (apply dll_seg_insert; [done|by offs|]). done. }
  assert (Hrest : ∀ m', dll_seg m' a l NULL →
    m' !! (a + off_size) = Some sz →
    m' !! (a + off_allocNumber) = Some (wrap (debugAllocCount s + 1)) →
    m' !! (a + off_next) = Some (dbgHead s) → m' !! (a + off_prev) = Some NULL →
    dbg_repr (mkState m' (<[a:=sizeof_DebugHeader + sz]> (blocks s)) a
                (wrap (debugBytesAlive s + sz))
                (wrap (debugAllocCount s + 1))
                (EvMalloc (sizeof_DebugHeader + sz) :: calls s) (stderr s))
             (mkHdr a sz (wrap (debugAllocCount s + 1)) :: l)).
  { intros m' Hm' H0 H1 H2 H3. split; snorm.
    - done.
    - simpl. rewrite H0, H1, H2, H3, (repr_head _ _ Hrepr).
      by destruct l.
    - rewrite fmap_cons. apply NoDup_cons. split; [|apply (repr_nodup _ _ Hrepr)].
      simpl. intros (r & Heq & Hr)%list_elem_of_fmap.
      pose proof (repr_block _ _ _ Hrepr Hr) as Hbr. congruence.
    - intros a' n'. rewrite lookup_insert. case_decide as Hd.
      + subst a'. split.
        * intros [= <-]. eexists. split; [left|done].
        * intros (r & [->|Hr]%elem_of_cons & Heq & ->); [done|].
          pose proof (repr_block _ _ _ Hrepr Hr) as Hbr. congruence.
      + rewrite (repr_blocks _ _ Hrepr). split.
        * intros (r & Hr & ?). exists r. split; [by right|done].
        * intros (r & [->|Hr]%elem_of_cons & Heq & ->); [done|]. eauto.
    - apply Forall_cons. split; [done|apply (repr_sizes _ _ Hrepr)].
    - apply heap_ok_insert; [apply (repr_heap _ _ Hrepr)|offs; lia|done].
    - done.
    - apply wrap_range. }
  pose proof (repr_head _ _ Hrepr) as Hhd.
  destruct l as [|q l'].
  - simpl in Hhd. rewrite Hhd in *. rewrite decide_False by (intros H; by apply H).
    mpure. mpure. mpure. eexists. split; [reflexivity|].
    split; [|done]. apply Hrest; [done|..]; offs;
      rewrite ?lookup_insert_eq, ?lookup_insert_ne by lia; by rewrite ?lookup_insert_eq.
  - simpl in Hhd. rewrite Hhd in *.
    pose proof (repr_addr_range _ _ q Hrepr ltac:(left)) as [Hq _].
    pose proof (Hfar q ltac:(left)) as Hqa.
    rewrite decide_True by (offs; lia).
    erewrite (bind_Ok (bind _ _)).
    2:{ mpure. apply store_field_Ok.
        apply (valid_access_true _ _ _ (h_addr q) (sizeof_DebugHeader + h_size q));
          snorm.
        - rewrite lookup_insert_ne
            by (intros Heq; rewrite Heq in Hnone;
                pose proof (repr_block _ _ q Hrepr ltac:(left)) as Hbq; congruence).
          apply (repr_block _ _ q Hrepr). left.
        - lia.
        - pose proof (repr_size_pos _ _ q Hrepr ltac:(left)). lia. }
    snorm. mpure. mpure. eexists. split; [reflexivity|]. split; [|done].
    apply Hrest.
    + apply (dll_seg_set_prev _ NULL); [|by apply Hseg, (repr_cells _ _ Hrepr)].
      intros r Hr. eapply (repr_far _ _ _ _ Hrepr); [by right|left|].
      pose proof (repr_nodup _ _ Hrepr) as Hnd. rewrite fmap_cons in Hnd.
      apply NoDup_cons in Hnd as [Hnotin _]. intros Heq. apply Hnotin.
      rewrite <- Heq. by apply list_elem_of_fmap_2.
    + offs. rewrite !lookup_insert_ne by lia. apply lookup_insert_eq.
    + offs. rewrite !lookup_insert_ne by lia. apply lookup_insert_eq.
    + offs. rewrite !lookup_insert_ne by lia. apply lookup_insert_eq.
    + offs. rewrite !lookup_insert_ne by lia. apply lookup_insert_eq.
Qed.

Lemma valid_access_mk s m hd ba ct cl er a n :
  valid_access (mkState m (blocks s) hd ba ct cl er) a n = valid_access s a n.
Proof. by apply valid_access_blocks. Qed.

Lemma last_addr_nil d : last_addr [] d = d.
Proof. done. Qed.

Lemma first_addr_nil d : first_addr [] d = d.
Proof. done. Qed.

Lemma first_addr_cons r l d : first_addr (r :: l) d = h_addr r.
Proof. done. Qed.

Lemma repr_remove s l1 r l2 m' hd' cl' :
  dbg_repr s (l1 ++ r :: l2) →
  dll_seg m' NULL (l1 ++ l2) NULL →
  hd' = first_addr (l1 ++ l2) NULL →
  dbg_repr (mkState m' (delete (h_addr r) (blocks s)) hd'
              (wrap (debugBytesAlive s - h_size r)) (debugAllocCount s)
              cl' (stderr s))
           (l1 ++ l2).
Proof.
  intros Hrepr Hseg Hhd. split; snorm.
  - done.
  - done.
  - pose proof (repr_nodup _ _ Hrepr) as Hnd.
    rewrite fmap_app, fmap_cons in Hnd. rewrite fmap_app.
    apply NoDup_app in Hnd as (H1 & Hx & H2).
    apply NoDup_cons in H2 as [_ H2]. apply NoDup_app. repeat split; try done.
    intros x Hx1 Hx2. apply (Hx x Hx1). by right.
  - intros a n. rewrite lookup_delete_Some, (repr_blocks _ _ Hrepr). split.
    + intros (Hne & r' & Hr' & Ha & Hn). exists r'. split; [|done].
      rewrite elem_of_app, elem_of_cons in Hr'. rewrite elem_of_app.
      destruct Hr' as [?|[->|?]]; [by left|done|by right].
    + intros (r' & Hr' & Ha & Hn).
      pose proof (repr_split_far _ _ _ _ _ Hrepr Hr') as Hfar.
      split; [offs; lia|]. exists r'. split; [|done].
      rewrite elem_of_app, elem_of_cons. rewrite elem_of_app in Hr'. tauto.
  - pose proof (repr_sizes _ _ Hrepr) as Hs.
    rewrite Forall_app, Forall_cons in Hs. rewrite Forall_app. tauto.
  - apply heap_ok_delete, (repr_heap _ _ Hrepr).
  - rewrite (repr_bytes _ _ Hrepr), wrap_sub_l, !sum_sizes_app, sum_sizes_cons.
    f_equal. lia.
  - apply (repr_count _ _ Hrepr).
Qed.

Ltac solve_elem :=
  rewrite ?elem_of_app, ?elem_of_cons, ?elem_of_nil in *;
  rewrite ?elem_of_app, ?elem_of_cons, ?elem_of_nil in *; tauto.
Ltac mloadv H := rewrite ?bind_assoc; erewrite bind_Ok;
  [|apply load_field_Ok;
    [rewrite ?valid_access_mk; eapply repr_valid; [exact H|solve_elem]
    |snorm; rewrite ?lookup_insert_ne by (offs; lia);
     first [eassumption|apply lookup_insert_eq]]];
  snorm.
Ltac mstorev H := rewrite ?bind_assoc; erewrite bind_Ok;
  [|apply store_field_Ok; rewrite ?valid_access_mk; eapply repr_valid;
    [exact H|solve_elem]];
  snorm.
Ltac mfree H := unfold Libc.free; rewrite decide_False by (offs; lia); snorm;
  erewrite (repr_block _ _ _ H) by solve_elem.

(** ** Freeing a tracked block *)

(** [debugFree] on the payload of a tracked record takes the record out of
    the list. *)
Lemma debugFree_spec s l1 r l2 :
  dbg_repr s (l1 ++ r :: l2) →
  ∃ s', debugFree (h_addr r + sizeof_DebugHeader) s = Ok tt s' ∧
        dbg_repr s' (l1 ++ l2) ∧
        debugAllocCount s' = debugAllocCount s ∧ stderr s' = stderr s.
Proof.
  intros Hrepr.
  pose proof (repr_addr_range _ _ r Hrepr ltac:(solve_elem)) as [Hrpos _].
  pose proof (repr_cells _ _ Hrepr) as Hcells.
  apply dll_seg_app in Hcells as [Hc1 Hc2].
  rewrite first_addr_cons in Hc1.
  destruct Hc2 as (Hsz & Hnum & Hnx & Hpv & Hc2).
  pose proof (repr_head _ _ Hrepr) as Hhd.
  rewrite first_addr_app, first_addr_cons in Hhd.
  unfold debugFree. rewrite decide_False by (offs; lia).
  replace (h_addr r + sizeof_DebugHeader - sizeof_DebugHeader) with (h_addr r)
    by lia.
  mloadv Hrepr.
  destruct (list_snoc_case l1) as [->|(l1' & q1 & ->)].
  - (* the record is the head *)
    rewrite last_addr_nil in *.
    rewrite decide_False by (intros H; by apply H).
    rewrite bind_assoc. mloadv Hrepr. mpure. mloadv Hrepr.
    destruct l2 as [|q2 l2'].
    + rewrite first_addr_nil in *. rewrite decide_False by (intros H; by apply H).
      mpure. mloadv Hrepr. mpure. mfree Hrepr.
      eexists. split; [reflexivity|]. split; [|done].
      by apply (repr_remove s [] r []).
    + rewrite first_addr_cons in *.
      pose proof (repr_addr_range _ _ q2 Hrepr ltac:(solve_elem)) as [Hq2 _].
      pose proof (repr_split_far _ [] r (q2 :: l2') q2 Hrepr ltac:(solve_elem)) as Hf2.
      rewrite decide_True by (offs; lia).
      rewrite !bind_assoc. mloadv Hrepr. rewrite !bind_assoc. mloadv Hrepr.
      mstorev Hrepr. mloadv Hrepr. mpure. mfree Hrepr.
      eexists. split; [reflexivity|]. split; [|done].
      apply (repr_remove s [] r (q2 :: l2')); [done| |done].
      apply (dll_seg_set_prev _ (h_addr r)); [|done].
      intros x Hx.
      apply (repr_split_far s [r] q2 l2' x Hrepr). solve_elem.
  - (* the record has a predecessor *)
    rewrite last_addr_snoc in *.
    assert (Hrepr1 : dbg_repr s (l1' ++ q1 :: r :: l2)).
    { by rewrite <- app_assoc in Hrepr. }
    pose proof (repr_addr_range _ _ q1 Hrepr ltac:(solve_elem)) as [Hq1 _].
    pose proof (repr_split_far _ _ r l2 q1 Hrepr ltac:(solve_elem)) as Hf1.
    rewrite decide_True by (offs; lia).
    rewrite !bind_assoc. mloadv Hrepr. rewrite !bind_assoc. mloadv Hrepr.
    mstorev Hrepr. mloadv Hrepr.
    assert (Hc1' : dll_seg (<[h_addr q1 + off_next:=first_addr l2 NULL]> (mem s))
                     NULL (l1' ++ [q1]) (first_addr l2 NULL)).
    { apply (dll_seg_set_next _ _ _ _ (h_addr r)); [|done].
      intros x Hx. apply (repr_split_far s l1' q1 (r :: l2) x Hrepr1). solve_elem. }
    assert (Hhd' : dbgHead s = first_addr ((l1' ++ [q1]) ++ l2) NULL).
    { rewrite Hhd. rewrite !first_addr_app. by destruct l1'. }
    destruct l2 as [|q2 l2'].
    + rewrite first_addr_nil in *. rewrite decide_False by (intros H; by apply H).
      mpure. mloadv Hrepr. mpure. mfree Hrepr.
      eexists. split; [reflexivity|]. split; [|done].
      apply (repr_remove s _ r []); [done| |done].
      by rewrite app_nil_r.
    + rewrite first_addr_cons in *.
      assert (Hrepr2 : dbg_repr s (((l1' ++ [q1]) ++ [r]) ++ q2 :: l2')).
      { by rewrite <- (app_assoc _ [r]). }
      pose proof (repr_addr_range _ _ q2 Hrepr ltac:(solve_elem)) as [Hq2 _].
      pose proof (repr_split_far _ _ r (q2 :: l2') q2 Hrepr ltac:(solve_elem)) as Hf2.
      pose proof (repr_split_far _ _ q2 l2' q1 Hrepr2 ltac:(solve_elem)) as Hf12.
      rewrite decide_True by (offs; lia).
      rewrite !bind_assoc. mloadv Hrepr. rewrite !bind_assoc. mloadv Hrepr.
      mstorev Hrepr. mloadv Hrepr. mpure. mfree Hrepr.
      eexists. split; [reflexivity|]. split; [|done].
      apply (repr_remove s _ r (q2 :: l2')); [done| |done].
      apply dll_seg_app. split.
      * rewrite first_addr_cons. apply dll_seg_insert; [|by offs|done].
        intros x Hx. apply (repr_split_far _ _ q2 l2' x Hrepr2). solve_elem.
      * rewrite last_addr_snoc.
        apply (dll_seg_set_prev _ (h_addr r)).
        -- intros x Hx. apply (repr_split_far _ _ q2 l2' x Hrepr2). solve_elem.
        -- apply dll_seg_insert; [|by offs|done].
           intros x Hx. apply (repr_split_far s l1' q1 (r :: q2 :: l2') x Hrepr1).
           solve_elem.
Qed.

(** ** Moving a block *)

Lemma filter_lookup_true (P : Z * Z → Prop) `{∀ x, Decision (P x)}
    (m : gmap Z Z) k :
  (∀ v, P (k, v)) → filter P m !! k = m !! k.
Proof.
  intros HP. destruct (m !! k) as [v|] eqn:Hk.
  - by apply map_lookup_filter_Some_2.
  - apply map_lookup_filter_None. by left.
Qed.

Lemma filter_lookup_false (P : Z * Z → Prop) `{∀ x, Decision (P x)}
    (m : gmap Z Z) k :
  (∀ v, ¬ P (k, v)) → filter P m !! k = None.
Proof. intros HP. apply map_lookup_filter_None. right. intros v _. apply HP. Qed.

Lemma move_cells_dst m src dst cnt k :
  dst ≤ k < dst + cnt →
  move_cells m src dst cnt !! k = m !! (k - dst + src).
Proof.
  intros Hk. unfold move_cells.
  rewrite lookup_union_l by (apply filter_lookup_false; simpl; intros _; lia).
  replace k with (shift (dst - src) (k - dst + src)) at 1 by (unfold shift; lia).
  rewrite lookup_kmap by apply _.
  apply filter_lookup_true. simpl. intros _. lia.
Qed.

Lemma move_cells_other m src dst cnt k :
  ¬ (dst ≤ k < dst + cnt) →
  move_cells m src dst cnt !! k = m !! k.
Proof.
  intros Hk. unfold move_cells.
  rewrite lookup_union_r.
  - apply filter_lookup_true. simpl. intros _. lia.
  - apply lookup_kmap_None; [apply _|]. intros i ->.
    apply filter_lookup_false. simpl. intros _. unfold shift in Hk. lia.
Qed.

(** ** Resizing a tracked block *)

Lemma resize_other_block s l1 r l2 x :
  dbg_repr s (l1 ++ r :: l2) → x ∈ l1 ++ l2 →
  delete (h_addr r) (blocks s) !! h_addr x = Some (sizeof_DebugHeader + h_size x).
Proof.
  intros Hrepr Hx. apply lookup_delete_Some. split.
  - pose proof (repr_split_far _ _ _ _ _ Hrepr Hx). offs. lia.
  - apply (repr_block _ _ _ Hrepr). solve_elem.
Qed.

Lemma resize_far s l1 r l2 a sz x :
  dbg_repr s (l1 ++ r :: l2) →
  fresh_block (delete (h_addr r) (blocks s)) a (sizeof_DebugHeader + sz) →
  0 < sz → x ∈ l1 ++ l2 → far (h_addr x) a.
Proof.
  intros Hrepr Hfresh Hsz Hx.
  eapply fresh_block_far;
    [exact Hfresh|lia|by eapply resize_other_block|].
  assert (x ∈ l1 ++ r :: l2) as Hin by solve_elem.
  pose proof (repr_size_pos _ _ _ Hrepr Hin). lia.
Qed.

Lemma resize_outside s l1 r l2 a sz x off :
  dbg_repr s (l1 ++ r :: l2) →
  fresh_block (delete (h_addr r) (blocks s)) a (sizeof_DebugHeader + sz) →
  x ∈ l1 ++ l2 → 0 ≤ off < sizeof_DebugHeader →
  ¬ (a ≤ h_addr x + off < a + (sizeof_DebugHeader + sz)).
Proof.
  intros Hrepr Hfresh Hx Hoff. destruct Hfresh as (_ & _ & _ & Hall).
  pose proof (resize_other_block _ _ _ _ x Hrepr Hx) as Hb. apply Hall in Hb.
  assert (x ∈ l1 ++ r :: l2) as Hin by solve_elem.
  pose proof (repr_size_pos _ _ _ Hrepr Hin). offs. lia.
Qed.

Lemma resize_block' s l1 r l2 a sz x :
  dbg_repr s (l1 ++ r :: l2) →
  fresh_block (delete (h_addr r) (blocks s)) a (sizeof_DebugHeader + sz) →
  0 < sz → x ∈ l1 ++ mkHdr a sz (h_num r) :: l2 →
  <[a := sizeof_DebugHeader + sz]> (delete (h_addr r) (blocks s)) !! h_addr x
  = Some (sizeof_DebugHeader + h_size x).
Proof.
  intros Hrepr Hfresh Hsz. rewrite elem_of_app, elem_of_cons. intros [Hx|[->|Hx]].
  - pose proof (resize_far _ _ _ _ _ _ x Hrepr Hfresh Hsz ltac:(solve_elem)).
    rewrite lookup_insert_ne by (offs; lia). eapply resize_other_block; [done|solve_elem].
  - simpl. apply lookup_insert_eq.
  - pose proof (resize_far _ _ _ _ _ _ x Hrepr Hfresh Hsz ltac:(solve_elem)).
    rewrite lookup_insert_ne by (offs; lia). eapply resize_other_block; [done|solve_elem].
Qed.

Lemma resize_valid s l1 r l2 a sz x m hd ba ct cl er :
  dbg_repr s (l1 ++ r :: l2) →
  fresh_block (delete (h_addr r) (blocks s)) a (sizeof_DebugHeader + sz) →
  0 < sz → x ∈ l1 ++ mkHdr a sz (h_num r) :: l2 →
  valid_access
    (mkState m (<[a := sizeof_DebugHeader + sz]> (delete (h_addr r) (blocks s)))
             hd ba ct cl er)
    (h_addr x) sizeof_DebugHeader = true.
Proof.
  intros Hrepr Hfresh Hsz Hx.
  eapply valid_access_true; snorm; [by eapply resize_block'|lia|].
  assert (0 < h_size x); [|lia].
  rewrite elem_of_app, elem_of_cons in Hx. destruct Hx as [Hx|[->|Hx]]; [|done|];
    apply (repr_size_pos _ _ _ Hrepr); solve_elem.
Qed.

Lemma repr_replace s l1 r l2 a sz m' hd' cl' :
  dbg_repr s (l1 ++ r :: l2) →
  fresh_block (delete (h_addr r) (blocks s)) a (sizeof_DebugHeader + sz) →
  0 < sz →
  dll_seg m' NULL (l1 ++ mkHdr a sz (h_num r) :: l2) NULL →
  hd' = first_addr (l1 ++ mkHdr a sz (h_num r) :: l2) NULL →
  dbg_repr (mkState m' (<[a := sizeof_DebugHeader + sz]> (delete (h_addr r) (blocks s)))
              hd' (wrap (wrap (debugBytesAlive s - h_size r) + sz))
              (debugAllocCount s) cl' (stderr s))
           (l1 ++ mkHdr a sz (h_num r) :: l2).
Proof.
  intros Hrepr Hfresh Hsz Hseg Hhd.
  assert (Hfar : ∀ y, y ∈ l1 ++ l2 → far (h_addr y) a).
  { intros y Hy. by eapply resize_far. }
  split; snorm.
  - done.
  - done.
  - pose proof (repr_nodup _ _ Hrepr) as Hnd.
    rewrite fmap_app, fmap_cons in Hnd. rewrite fmap_app, fmap_cons.
    apply NoDup_app in Hnd as (H1 & Hx & H2).
    apply NoDup_cons in H2 as [_ H2]. apply NoDup_app. repeat split; try done.
    + intros x (y & -> & Hy)%list_elem_of_fmap [Ha|Hx2]%elem_of_cons.
      * pose proof (Hfar y ltac:(solve_elem)). simpl in Ha. offs. lia.
      * apply (Hx (h_addr y)); [by apply list_elem_of_fmap_2|]. by right.
    + apply NoDup_cons. split; [|done].
      intros (y & Ha & Hy)%list_elem_of_fmap.
      pose proof (Hfar y ltac:(solve_elem)). simpl in Ha. offs. lia.
  - intros a' n. split.
    + rewrite lookup_insert. case_decide as Hd.
      * intros [= <-]. exists (mkHdr a sz (h_num r)). split; [solve_elem|done].
      * rewrite lookup_delete_Some, (repr_blocks _ _ Hrepr).
        intros (Hne & x & Hx & Ha & Hn). exists x. split; [|done].
        rewrite elem_of_app, elem_of_cons in Hx. rewrite elem_of_app, elem_of_cons.
        destruct Hx as [?|[->|?]]; [by left|done|by right; right].
    + intros (x & Hx & <- & ->). by eapply resize_block'.
  - pose proof (repr_sizes _ _ Hrepr) as Hs.
    rewrite Forall_app, Forall_cons in Hs. rewrite Forall_app, Forall_cons.
    simpl. tauto.
  - destruct Hfresh as (? & ? & ? & ?).
    apply heap_ok_insert; [apply heap_ok_delete, (repr_heap _ _ Hrepr)|offs; lia|done].
  - rewrite (repr_bytes _ _ Hrepr), wrap_sub_l, wrap_add_l, !sum_sizes_app,
      !sum_sizes_cons.
    f_equal. simpl. lia.
  - apply (repr_count _ _ Hrepr).
Qed.

Ltac mloadr Hv r0 := rewrite ?bind_assoc; erewrite bind_Ok;
  [|apply load_field_Ok;
    [first [apply (Hv r0); solve_elem | apply Hv; solve_elem]
    |snorm; rewrite ?lookup_insert_ne by (offs; lia);
     first [eassumption|apply lookup_insert_eq]]];
  snorm.
Ltac mstorer Hv r0 := rewrite ?bind_assoc; erewrite bind_Ok;
  [|apply store_field_Ok;
    first [apply (Hv r0); solve_elem | apply Hv; solve_elem]];
  snorm.

(** [debugRealloc] on the payload of a tracked record with a nonzero size
    replaces the record by one at the new address with the new size and the
    old sequence number. *)
Lemma debugRealloc_spec s l1 r l2 a sz :
  dbg_repr s (l1 ++ r :: l2) →
  0 < sz → sizeof_DebugHeader + sz < SIZE_MOD →
  fresh_block (delete (h_addr r) (blocks s)) a (sizeof_DebugHeader + sz) →
  ∃ s', debugRealloc (Some a) (h_addr r + sizeof_DebugHeader) sz s
        = Ok (a + sizeof_DebugHeader) s' ∧
        dbg_repr s' (l1 ++ mkHdr a sz (h_num r) :: l2) ∧
        debugAllocCount s' = debugAllocCount s ∧ stderr s' = stderr s.
Proof.
  intros Hrepr Hsz Hlt Hfresh.
  set (r' := mkHdr a sz (h_num r)).
  set (blocks' := <[a := sizeof_DebugHeader + sz]> (delete (h_addr r) (blocks s))).
  assert (Hfar : ∀ y, y ∈ l1 ++ l2 → far (h_addr y) a).
  { intros y Hy. by eapply resize_far. }
  assert (Hout : ∀ x off, x ∈ l1 ++ l2 → 0 ≤ off < sizeof_DebugHeader →
            ¬ (a ≤ h_addr x + off < a + (sizeof_DebugHeader + sz))).
  { intros x off Hx Hoff. by eapply resize_outside. }
  assert (Hval : ∀ x m hd ba ct cl er, x ∈ l1 ++ r' :: l2 →
            valid_access (mkState m blocks' hd ba ct cl er) (h_addr x)
              sizeof_DebugHeader = true).
  { intros. by eapply resize_valid. }
  assert (Hrep : ∀ m' hd' cl', dll_seg m' NULL (l1 ++ r' :: l2) NULL →
            hd' = first_addr (l1 ++ r' :: l2) NULL →
            dbg_repr (mkState m' blocks' hd'
                        (wrap (wrap (debugBytesAlive s - h_size r) + sz))
                        (debugAllocCount s) cl' (stderr s))
                     (l1 ++ r' :: l2)).
  { intros. by eapply repr_replace. }
  pose proof (repr_addr_range _ _ r Hrepr ltac:(solve_elem)) as [Hrpos _].
  pose proof (repr_size_pos _ _ r Hrepr ltac:(solve_elem)) as Hrsz.
  pose proof (repr_cells _ _ Hrepr) as Hcells.
  apply dll_seg_app in Hcells as [Hc1 Hc2].
  rewrite first_addr_cons in Hc1.
  destruct Hc2 as (Hsize & Hnum & Hnx & Hpv & Hc2).
  pose proof (repr_head _ _ Hrepr) as Hhd.
  rewrite first_addr_app, first_addr_cons in Hhd.
  pose proof Hfresh as (Ha & Hend & Hnone & Hall).
  unfold debugRealloc. rewrite decide_False by (offs; lia).
  rewrite decide_False by lia.
  replace (h_addr r + sizeof_DebugHeader - sizeof_DebugHeader) with (h_addr r)
    by lia.
  rewrite wrap_small by (offs; lia).
  mloadv Hrepr.
  erewrite bind_Ok.
  2:{ unfold Libc.realloc. rewrite decide_False by (offs; lia).
      rewrite decide_False by (offs; lia).
      rewrite (repr_block _ _ r Hrepr) by solve_elem. snorm. reflexivity. }
  unfold checkPtr. rewrite (decide_False (P := a = NULL)) by (offs; lia).
  mpure. fold blocks'.
  set (m1 := if decide (a = h_addr r) then mem s
             else move_cells (mem s) (h_addr r) a
                    (Z.min (sizeof_DebugHeader + h_size r)
                           (sizeof_DebugHeader + sz))).
  assert (Hm1o : ∀ x off, x ∈ l1 ++ l2 → 0 ≤ off < sizeof_DebugHeader →
            m1 !! (h_addr x + off) = mem s !! (h_addr x + off)).
  { intros x off Hx Hoff. unfold m1. case_decide; [done|].
    apply move_cells_other. pose proof (Hout x off Hx Hoff). lia. }
  assert (Hm1n : ∀ off, 0 ≤ off < sizeof_DebugHeader →
            m1 !! (a + off) = mem s !! (h_addr r + off)).
  { intros off Hoff. unfold m1. case_decide as Hd; [by rewrite Hd|].
    rewrite move_cells_dst by (offs; lia). f_equal. lia. }
  assert (Hn0 : m1 !! (a + off_size) = Some (h_size r)) by (by rewrite Hm1n).
  assert (Hn1 : m1 !! (a + off_allocNumber) = Some (h_num r)) by (by rewrite Hm1n).
  assert (Hn2 : m1 !! (a + off_next) = Some (first_addr l2 NULL)) by (by rewrite Hm1n).
  assert (Hn3 : m1 !! (a + off_prev) = Some (last_addr l1 NULL)) by (by rewrite Hm1n).
  assert (Hc1' : dll_seg m1 NULL l1 (h_addr r)).
  { eapply dll_seg_frame; [|exact Hc1]. intros x off Hx Hoff. apply Hm1o; [solve_elem|done]. }
  assert (Hc2' : dll_seg m1 (h_addr r) l2 NULL).
  { eapply dll_seg_frame; [|exact Hc2]. intros x off Hx Hoff. apply Hm1o; [solve_elem|done]. }
  clearbody m1.
  assert (Hfin : ∀ m2 hd2 cl2,
    dll_seg m2 NULL l1 a → dll_seg m2 a l2 NULL →
    (∀ off, 0 ≤ off < sizeof_DebugHeader → m2 !! (a + off) = m1 !! (a + off)) →
    hd2 = first_addr l1 a →
    valid_access (mkState m2 blocks' hd2 (debugBytesAlive s) (debugAllocCount s)
                    cl2 (stderr s)) a sizeof_DebugHeader = true ∧
    dbg_repr (mkState (<[a + off_size := sz]> m2) blocks' hd2
                (wrap (wrap (debugBytesAlive s - h_size r) + sz))
                (debugAllocCount s) cl2 (stderr s))
             (l1 ++ r' :: l2)).
  { intros m2 hd2 cl2 H1 H2 Hm2 Hhd2. split.
    { apply (Hval r'). solve_elem. }
    apply Hrep; [|by rewrite first_addr_app].
    apply dll_seg_app. split.
    - rewrite first_addr_cons. apply dll_seg_insert; [|by offs|done].
      intros x Hx. apply Hfar. solve_elem.
    - assert (dll_seg m2 (last_addr l1 NULL) (mkHdr a (h_size r) (h_num r) :: l2) NULL)
        as Hr0.
      { simpl. rewrite !Hm2 by (offs; lia). done. }
      apply (dll_seg_set_size _ _ _ _ _ sz) in Hr0; [done|].
      intros x Hx. apply Hfar. solve_elem. }
  assert (Hsame : ∀ (m2 : gmap Z Z) (x off v : Z), far x a → 0 ≤ off < sizeof_DebugHeader →
            (∀ off', 0 ≤ off' < sizeof_DebugHeader → m2 !! (a + off') = m1 !! (a + off')) →
            (∀ off', 0 ≤ off' < sizeof_DebugHeader →
               <[x + off := v]> m2 !! (a + off') = m1 !! (a + off'))).
  { intros m2 x off v Hf Hoff Hm2 off' Hoff'.
    rewrite lookup_insert_ne by (offs; lia). by apply Hm2. }
  destruct (decide (a = h_addr r)) as [Heq|Hmv].
  - (* resized in place *)
    rewrite decide_False by (intros H; by apply H). mpure.
    destruct (Hfin m1 (dbgHead s) (EvRealloc (h_addr r) (sizeof_DebugHeader + sz) :: calls s))
      as [Hv Hr]; [by rewrite Heq|by rewrite Heq|done|by rewrite Heq|].
    erewrite bind_Ok; [|apply store_field_Ok, Hv]. snorm. mpure. mpure.
    eexists. split; [reflexivity|]. split; [|done]. exact Hr.
  - (* moved to a new place *)
    rewrite decide_True by done. rewrite !bind_assoc.
    mloadr Hval r'.
    destruct (list_snoc_case l1) as [->|(l1' & q1 & ->)].
    + rewrite last_addr_nil in *.
      rewrite decide_False by (intros H; by apply H). mpure. mloadr Hval r'.
      destruct l2 as [|q2 l2'].
      * rewrite first_addr_nil in *. rewrite decide_False by (intros H; by apply H).
        mpure.
        destruct (Hfin m1 a (EvRealloc (h_addr r) (sizeof_DebugHeader + sz) :: calls s))
          as [Hv Hr]; [done|done|done|done|].
        erewrite bind_Ok; [|apply store_field_Ok, Hv]. snorm. mpure. mpure.
        eexists. split; [reflexivity|]. split; [|done]. exact Hr.
      * rewrite first_addr_cons in *.
        pose proof (repr_addr_range _ _ q2 Hrepr ltac:(solve_elem)) as [Hq2 _].
        pose proof (Hfar q2 ltac:(solve_elem)) as Hf2.
        rewrite decide_True by (offs; lia). rewrite !bind_assoc.
        mloadr Hval r'. mstorer Hval r'.
        destruct (Hfin (<[h_addr q2 + off_prev:=a]> m1) a
                    (EvRealloc (h_addr r) (sizeof_DebugHeader + sz) :: calls s))
          as [Hv Hr]; [done| |by apply Hsame; [|offs|]|done|].
        { apply (dll_seg_set_prev _ (h_addr r)); [|done].
          intros x Hx. apply (repr_split_far s [r] q2 l2' x Hrepr). solve_elem. }
        erewrite bind_Ok; [|apply store_field_Ok, Hv]. snorm. mpure. mpure.
        eexists. split; [reflexivity|]. split; [|done]. exact Hr.
    + rewrite last_addr_snoc in *.
      assert (Hrepr1 : dbg_repr s (l1' ++ q1 :: r :: l2)).
      { by rewrite <- app_assoc in Hrepr. }
      pose proof (repr_addr_range _ _ q1 Hrepr ltac:(solve_elem)) as [Hq1 _].
      pose proof (Hfar q1 ltac:(solve_elem)) as Hf1.
      rewrite decide_True by (offs; lia). rewrite !bind_assoc.
      mloadr Hval r'. mstorer Hval r'. mloadr Hval r'.
      assert (Hc1'' : dll_seg (<[h_addr q1 + off_next:=a]> m1) NULL (l1' ++ [q1]) a).
      { apply (dll_seg_set_next _ _ _ _ (h_addr r)); [|done].
        intros x Hx. apply (repr_split_far s l1' q1 (r :: l2) x Hrepr1). solve_elem. }
      assert (Hhd' : dbgHead s = first_addr (l1' ++ [q1]) a).
      { rewrite Hhd. rewrite !first_addr_app. by destruct l1'. }
      destruct l2 as [|q2 l2'].
      * rewrite first_addr_nil in *. rewrite decide_False by (intros H; by apply H).
        mpure.
        destruct (Hfin (<[h_addr q1 + off_next:=a]> m1) (dbgHead s)
                    (EvRealloc (h_addr r) (sizeof_DebugHeader + sz) :: calls s))
          as [Hv Hr]; [done|done|by apply Hsame; [|offs|]|done|].
        erewrite bind_Ok; [|apply store_field_Ok, Hv]. snorm. mpure. mpure.
        eexists. split; [reflexivity|]. split; [|done]. exact Hr.
      * rewrite first_addr_cons in *.
        assert (Hrepr2 : dbg_repr s (((l1' ++ [q1]) ++ [r]) ++ q2 :: l2')).
        { by rewrite <- (app_assoc _ [r]). }
        pose proof (repr_addr_range _ _ q2 Hrepr ltac:(solve_elem)) as [Hq2 _].
        pose proof (Hfar q2 ltac:(solve_elem)) as Hf2.
        pose proof (repr_split_far _ _ q2 l2' q1 Hrepr2 ltac:(solve_elem)) as Hf12.
        rewrite decide_True by (offs; lia). rewrite !bind_assoc.
        mloadr Hval r'. mstorer Hval r'.
        destruct (Hfin (<[h_addr q2 + off_prev:=a]> (<[h_addr q1 + off_next:=a]> m1))
                    (dbgHead s)
                    (EvRealloc (h_addr r) (sizeof_DebugHeader + sz) :: calls s))
          as [Hv Hr]; [| |by do 2 (apply Hsame; [|offs|]; offs; try lia)|done|].
        { apply dll_seg_insert; [|by offs|done].
          intros x Hx. apply (repr_split_far _ _ q2 l2' x Hrepr2). solve_elem. }
        { apply (dll_seg_set_prev _ (h_addr r)).
          - intros x Hx. apply (repr_split_far _ _ q2 l2' x Hrepr2). solve_elem.
          - apply dll_seg_insert; [|by offs|done].
            intros x Hx.
            apply (repr_split_far s l1' q1 (r :: q2 :: l2') x Hrepr1). solve_elem. }
        erewrite bind_Ok; [|apply store_field_Ok, Hv]. snorm. mpure. mpure.
        eexists. split; [reflexivity|]. split; [|done]. exact Hr.
Qed.

(** ** Code that only touches cells, the head and the byte count *)

Lemma kb_ret {A} (v : A) : keeps (ret v).
Proof. intros s v' s' [= _ <-]. done. Qed.

Lemma kb_gets {A} (f : state → A) : keeps (gets f).
Proof. intros s v' s' [= _ <-]. done. Qed.

Lemma kb_modify f : (∀ s, outside (f s) = outside s) → keeps (modify f).
Proof. intros Hf s v' s' H. injection H as H. subst s'. apply Hf. Qed.

Lemma kb_load h off : keeps (load_field h off).
Proof. intros s v s' H. by apply load_field_Ok_inv in H as (-> & _). Qed.

Lemma kb_store h off v : keeps (store_field h off v).
Proof. intros s u s' H. by apply store_field_Ok_inv in H as (-> & _). Qed.

Lemma kb_bind {A B} (c : M A) (k : A → M B) :
  keeps c → (∀ x, keeps (k x)) → keeps (bind c k).
Proof.
  intros Hc Hk s v s' H. apply bind_Ok_inv in H as (x & s1 & H1 & H2).
  rewrite (Hk _ _ _ _ H2). by eapply Hc.
Qed.

Lemma kb_if {A} {P Q : Prop} (d : {P} + {Q}) (c1 c2 : M A) :
  keeps c1 → keeps c2 → keeps (if d then c1 else c2).
Proof. by destruct d. Qed.

Ltac kb :=
  repeat first
    [ apply kb_ret | apply kb_gets | apply kb_load | apply kb_store
    | apply kb_modify; intros ?; reflexivity
    | apply kb_if
    | apply kb_bind; [|intros ?] ].

Lemma outside_blocks s s' : outside s' = outside s → blocks s' = blocks s.
Proof. unfold outside. by intros [= -> _ _ _]. Qed.

Lemma valid_access_outside s s' a n :
  outside s' = outside s → valid_access s' a n = valid_access s a n.
Proof. intros H. by apply valid_access_blocks, outside_blocks. Qed.

(** A header cannot be addressed inside a block that is too small for it. *)
Lemma valid_access_small s b a n :
  blocks s = <[a := n]> b →
  fresh_block b a n → 0 ≤ n < sizeof_DebugHeader →
  valid_access s a sizeof_DebugHeader = false.
Proof.
  intros Hs (Ha & Hend & Hnone & Hall) Hn.
  apply bool_decide_eq_false. rewrite map_Exists_lookup, Hs.
  intros (a' & n' & Hl & H1 & H2). rewrite lookup_insert in Hl.
  case_decide as Hd.
  - injection Hl as <-. subst. lia.
  - apply Hall in Hl. lia.
Qed.

Lemma wrap_overflow sz :
  0 ≤ sz < SIZE_MOD → ¬ sizeof_DebugHeader + sz < SIZE_MOD →
  0 ≤ wrap (sizeof_DebugHeader + sz) < sizeof_DebugHeader.
Proof.
  intros Hsz Hov.
  assert (wrap (sizeof_DebugHeader + sz) = sizeof_DebugHeader + sz - SIZE_MOD)
    as ->; [|lia].
  unfold wrap. symmetry. apply (Z.mod_unique _ _ 1); unfold SIZE_MOD in *; offs; lia.
Qed.

Lemma valid_access_pos s a n :
  heap_ok (blocks s) → valid_access s a n = true → 0 < a.
Proof.
  intros Hh (b & m & Hb & H1 & H2)%valid_access_inv.
  apply (heap_range _ Hh) in Hb. lia.
Qed.

(** ** What a successful call tells *)

(** Unlinking comes first and the block goes back to the system last: when
    [debugFree] returns, its last step was [free] on the header address, in
    a state whose blocks, request log, counter and stderr were still those
    of the start. *)
Lemma debugFree_reaches_free ptr s v s' :
  ptr ≠ NULL → debugFree ptr s = Ok v s' →
  ∃ s1, outside s1 = outside s ∧
        valid_access s (ptr - sizeof_DebugHeader) sizeof_DebugHeader = true ∧
        Libc.free (ptr - sizeof_DebugHeader) s1 = Ok v s'.
Proof.
  intros Hp. unfold debugFree. rewrite decide_False by done. intros H.
  apply bind_Ok_inv in H as (hprev & s1 & H1 & H).
  apply load_field_Ok_inv in H1 as (-> & Hv & _).
  apply bind_Ok_inv in H as (u1 & s2 & H2 & H).
  assert (outside s2 = outside s) as Hb2.
  { revert H2. generalize s u1 s2. change (keeps
      (if decide (hprev ≠ NULL) then
         let* hprev := load_field (ptr - sizeof_DebugHeader) off_prev in
         let* hnext := load_field (ptr - sizeof_DebugHeader) off_next in
         store_field hprev off_next hnext
       else
         let* hnext := load_field (ptr - sizeof_DebugHeader) off_next in
         modify (set_dbgHead hnext))). kb. }
  apply bind_Ok_inv in H as (hnext & s3 & H3 & H).
  apply load_field_Ok_inv in H3 as (-> & _ & _).
  apply bind_Ok_inv in H as (u2 & s4 & H4 & H).
  assert (outside s4 = outside s2) as Hb4.
  { revert H4. generalize s2 u2 s4. change (keeps
      (if decide (hnext ≠ NULL) then
         let* hnext := load_field (ptr - sizeof_DebugHeader) off_next in
         let* hprev := load_field (ptr - sizeof_DebugHeader) off_prev in
         store_field hnext off_prev hprev
       else ret tt)). kb. }
  apply bind_Ok_inv in H as (hsize & s5 & H5 & H).
  apply load_field_Ok_inv in H5 as (-> & _ & _).
  apply bind_Ok_inv in H as (u3 & s6 & H6 & H).
  injection H6 as _ <-.
  eexists. split; [|split; [exact Hv|exact H]].
  by rewrite <- Hb2, <- Hb4.
Qed.

(** [debugFree] does not touch the allocation counter, whatever the state. *)
Lemma debugFree_keeps_count ptr s v s' :
  debugFree ptr s = Ok v s' → debugAllocCount s' = debugAllocCount s.
Proof.
  destruct (decide (ptr = NULL)) as [->|Hp].
  { unfold debugFree. rewrite decide_True by done. by intros [= _ <-]. }
  intros (s1 & Ho & _ & H)%debugFree_reaches_free; [|done].
  assert (debugAllocCount s1 = debugAllocCount s) as <-.
  { unfold outside in Ho. by injection Ho. }
  unfold Libc.free in H. destruct (decide _); [by injection H as _ <-|].
  snorm. destruct (blocks s1 !! _); [|done]. by injection H as _ <-.
Qed.

Lemma debugFree_tracked s l ptr v s' :
  dbg_repr s l → debugFree ptr s = Ok v s' →
  ptr = NULL ∧ s' = s ∨
  ∃ l1 r l2, l = l1 ++ r :: l2 ∧ ptr = h_addr r + sizeof_DebugHeader.
Proof.
  intros Hrepr H. destruct (decide (ptr = NULL)) as [->|Hp].
  { left. unfold debugFree in H. rewrite decide_True in H by done.
    by injection H as _ <-. }
  right. apply debugFree_reaches_free in H as (s1 & Ho & Hv & H); [|done].
  pose proof (valid_access_pos _ _ _ (repr_heap _ _ Hrepr) Hv) as Hpos.
  unfold Libc.free in H. rewrite decide_False in H by (offs; lia). snorm.
  rewrite (outside_blocks _ _ Ho) in H.
  destruct (blocks s !! (ptr - sizeof_DebugHeader)) as [n|] eqn:Hblk; [|done].
  apply (repr_blocks _ _ Hrepr) in Hblk as (r & Hr & Hra & _).
  apply list_elem_of_split in Hr as (l1 & l2 & ->).
  exists l1, r, l2. split; [done|]. lia.
Qed.

Lemma debugAlloc_Ok_inv s l r sz v s' :
  dbg_repr s l → 0 ≤ sz < SIZE_MOD →
  answer_ok (blocks s) r (wrap (sizeof_DebugHeader + sz)) →
  debugAlloc r sz s = Ok v s' →
  (sz = 0 ∧ v = NULL ∧ s' = s) ∨
  (∃ a, r = Some a ∧ v = a + sizeof_DebugHeader ∧ 0 < sz ∧
        sizeof_DebugHeader + sz < SIZE_MOD ∧
        dbg_repr s' (mkHdr a sz (wrap (debugAllocCount s + 1)) :: l) ∧
        debugAllocCount s' = wrap (debugAllocCount s + 1) ∧
        stderr s' = stderr s).
Proof.
  intros Hrepr Hsz Hans H.
  destruct (decide (sz = 0)) as [->|Hnz].
  { left. unfold debugAlloc in H. rewrite decide_True in H by done.
    by injection H as <- <-. }
  right. destruct r as [a|].
  - simpl in Hans.
    destruct (decide (sizeof_DebugHeader + sz < SIZE_MOD)) as [Hlt|Hov].
    + rewrite wrap_small in Hans by (offs; lia).
      destruct (debugAlloc_spec s l a sz Hrepr ltac:(lia) Hlt Hans)
        as (s'' & Hrun & Hr & Hc & He).
      rewrite Hrun in H. injection H as <- <-.
      exists a. split_and!; try done; lia.
    + exfalso. pose proof Hans as (Ha & _).
      pose proof (wrap_overflow sz Hsz Hov) as Hn.
      revert H. unfold debugAlloc. rewrite decide_False by done.
      mpure. unfold checkPtr. rewrite (decide_False (P := a = NULL)) by (offs; lia).
      mpure. mpure. unfold bind at 1, store_field.
      erewrite valid_access_small; [done|reflexivity|done|done].
  - exfalso. revert H. unfold debugAlloc. rewrite decide_False by done.
    mpure. unfold checkPtr. rewrite decide_True by done. done.
Qed.

Lemma debugRealloc_Ok_inv s l r ptr sz v s' :
  dbg_repr s l → ptr ≠ NULL → sz ≠ 0 → 0 ≤ sz < SIZE_MOD →
  answer_ok (delete (ptr - sizeof_DebugHeader) (blocks s)) r
            (wrap (sizeof_DebugHeader + sz)) →
  debugRealloc r ptr sz s = Ok v s' →
  ∃ a l1 rec l2,
    r = Some a ∧ v = a + sizeof_DebugHeader ∧
    l = l1 ++ rec :: l2 ∧ ptr = h_addr rec + sizeof_DebugHeader ∧
    sizeof_DebugHeader + sz < SIZE_MOD ∧
    dbg_repr s' (l1 ++ mkHdr a sz (h_num rec) :: l2) ∧
    debugAllocCount s' = debugAllocCount s ∧ stderr s' = stderr s.
Proof.
  intros Hrepr Hp Hnz Hsz Hans H.
  pose proof H as H0.
  unfold debugRealloc in H. rewrite !decide_False in H by done.
  apply bind_Ok_inv in H as (oldSize & s1 & H1 & H).
  apply load_field_Ok_inv in H1 as (-> & Hv & _).
  pose proof (valid_access_pos _ _ _ (repr_heap _ _ Hrepr) Hv) as Hpos.
  apply bind_Ok_inv in H as (new & s2 & H2 & H).
  apply bind_Ok_inv in H as (u & s3 & H3 & H).
  assert (new ≠ NULL ∧ s3 = s2) as [Hnew ->].
  { unfold checkPtr, panic, ret in H3. destruct (decide (new = NULL)); [done|].
    by injection H3 as _ <-. }
  clear H3.
  unfold Libc.realloc in H2. rewrite decide_False in H2 by (offs; lia).
  destruct (decide (wrap (sizeof_DebugHeader + sz) = 0)) as [Hn0|Hn0].
  { exfalso. apply bind_Ok_inv in H2 as (? & ? & _ & H2). by injection H2 as <- _. }
  destruct (blocks s !! (ptr - sizeof_DebugHeader)) as [n|] eqn:Hblk; [|done].
  apply (repr_blocks _ _ Hrepr) in Hblk as (rec & Hrec & Hra & _).
  apply list_elem_of_split in Hrec as (l1 & l2 & ->).
  destruct r as [a|]; [|by injection H2 as <- _].
  injection H2 as <- <-. simpl in Hans.
  assert (ptr - sizeof_DebugHeader = h_addr rec) as Hold by lia.
  rewrite Hold in *. clear Hra.
  assert (ptr = h_addr rec + sizeof_DebugHeader) as -> by lia.
  destruct (decide (sizeof_DebugHeader + sz < SIZE_MOD)) as [Hlt|Hov].
  - rewrite wrap_small in Hans by (offs; lia).
    destruct (debugRealloc_spec s l1 rec l2 a sz Hrepr ltac:(lia) Hlt Hans)
      as (s'' & Hrun & Hr & Hc & He).
    rewrite Hrun in H0. injection H0 as <- <-.
    exists a, l1, rec, l2. split_and!; done.
  - exfalso. pose proof (wrap_overflow sz Hsz Hov) as Hn.
    apply bind_Ok_inv in H as (u1 & s3 & H3 & H).
    assert (blocks s3 = <[a:=wrap (sizeof_DebugHeader + sz)]>
                          (delete (h_addr rec) (blocks s))) as Hb3.
    { destruct (decide (a ≠ h_addr rec)).
      2:{ unfold ret in H3. by simplify_eq. }
      apply bind_Ok_inv in H3 as (? & ? & H3 & _).
      apply load_field_Ok_inv in H3 as (_ & Hv3 & _).
      erewrite valid_access_small in Hv3; [done| |exact Hans|done].
      done. }
    apply bind_Ok_inv in H as (? & ? & H4 & _).
    apply store_field_Ok_inv in H4 as (_ & Hv4).
    erewrite valid_access_small in Hv4; [done|exact Hb3|exact Hans|done].
Qed.

(** ** The tracked blocks fit in the address space *)

Global Instance addr_le_trans : Transitive addr_le.
Proof. unfold addr_le. intros x y z. lia. Qed.

Global Instance addr_le_total : Total addr_le.
Proof. unfold addr_le. intros x y. lia. Qed.

Lemma sum_sizes_perm l l' : l ≡ₚ l' → sum_sizes l = sum_sizes l'.
Proof.
  induction 1 as [|x l l' _ IH|x y l|l l' l'' _ IH1 _ IH2];
    rewrite ?sum_sizes_cons; lia.
Qed.

(** Disjoint blocks listed by increasing address, all between [lo] and
    [SIZE_MOD]. *)
Lemma sorted_blocks_bound l lo :
  StronglySorted addr_le l →
  lo ≤ SIZE_MOD →
  (∀ r, r ∈ l → lo ≤ h_addr r ∧ 0 < h_size r ∧
                h_addr r + sizeof_DebugHeader + h_size r ≤ SIZE_MOD) →
  (∀ r1 r2, r1 ∈ l → r2 ∈ l → h_addr r1 ≠ h_addr r2 →
     h_addr r1 + sizeof_DebugHeader + h_size r1 ≤ h_addr r2 ∨
     h_addr r2 + sizeof_DebugHeader + h_size r2 ≤ h_addr r1) →
  NoDup (h_addr <$> l) →
  sum_sizes l + sizeof_DebugHeader * Z.of_nat (length l) ≤ SIZE_MOD - lo.
Proof.
  intros Hs. revert lo. induction Hs as [|r t Hst IH Hall]; intros lo Hlo Hin Hdis Hnd.
  - change (sum_sizes []) with 0. simpl length. offs. lia.
  - rewrite sum_sizes_cons. rewrite fmap_cons in Hnd.
    apply NoDup_cons in Hnd as [Hnotin Hnd].
    destruct (Hin r ltac:(left)) as (Hr1 & Hr2 & Hr3).
    specialize (IH (h_addr r + sizeof_DebugHeader + h_size r)).
    rewrite length_cons, Nat2Z.inj_succ.
    enough (sum_sizes t + sizeof_DebugHeader * Z.of_nat (length t)
            ≤ SIZE_MOD - (h_addr r + sizeof_DebugHeader + h_size r))
      by (offs; lia).
    apply IH; [done| | |done].
    + intros x Hx. destruct (Hin x ltac:(by right)) as (Hx1 & Hx2 & Hx3).
      split; [|done].
      rewrite Forall_forall in Hall. pose proof (Hall x Hx) as Hle.
      unfold addr_le in Hle.
      destruct (Hdis r x ltac:(left) ltac:(by right)); [|done|offs; lia].
      intros Heq. apply Hnotin. rewrite Heq. by apply list_elem_of_fmap_2.
    + intros r1 r2 H1 H2. apply Hdis; by right.
Qed.

Lemma repr_sum_bound s l :
  dbg_repr s l → 0 ≤ sum_sizes l < SIZE_MOD.
Proof.
  intros Hrepr.
  assert (0 ≤ sum_sizes l) as Hnn.
  { pose proof (repr_sizes _ _ Hrepr) as Hs. clear Hrepr.
    induction Hs; [done|]. rewrite sum_sizes_cons. lia. }
  split; [done|].
  pose proof (merge_sort_Permutation addr_le l) as Hp.
  pose proof (StronglySorted_merge_sort addr_le l) as Hsorted.
  assert (sum_sizes (merge_sort addr_le l)
          + sizeof_DebugHeader * Z.of_nat (length (merge_sort addr_le l))
          ≤ SIZE_MOD - 0) as Hb.
  { apply sorted_blocks_bound; [done|by unfold SIZE_MOD| | |].
    - intros r Hr. rewrite Hp in Hr.
      pose proof (repr_addr_range _ _ _ Hrepr Hr).
      pose proof (repr_size_pos _ _ _ Hrepr Hr). lia.
    - intros r1 r2 H1 H2 Hne. rewrite Hp in H1, H2.
      pose proof (repr_block _ _ _ Hrepr H1) as Hb1.
      pose proof (repr_block _ _ _ Hrepr H2) as Hb2.
      destruct (heap_disjoint _ (repr_heap _ _ Hrepr) _ _ _ _ Hb1 Hb2 Hne); lia.
    - rewrite Hp. apply (repr_nodup _ _ Hrepr). }
  rewrite (sum_sizes_perm _ _ Hp), (Permutation_length Hp) in Hb.
  destruct l as [|r0 l0]; [by unfold SIZE_MOD|].
  rewrite length_cons, Nat2Z.inj_succ in Hb. offs. lia.
Qed.

(** [debugBytesAlive] is the plain sum of the tracked sizes: it never wraps. *)
Lemma repr_bytes_exact s l :
  dbg_repr s l → debugBytesAlive s = sum_sizes l.
Proof.
  intros Hrepr. rewrite (repr_bytes _ _ Hrepr).
  apply wrap_small. by eapply repr_sum_bound.
Qed.

(** ** Walking the list *)

Lemma walk_seg m fuel l prv :
  dll_seg m prv l NULL → Forall (λ r, h_addr r ≠ NULL) l →
  (length l ≤ fuel)%nat → walk fuel m (first_addr l NULL) = Some l.
Proof.
  revert l prv. induction fuel as [|fuel IH]; intros l prv Hseg Hnz Hlen.
  - destruct l; [done|simpl in Hlen; lia].
  - destruct l as [|r t]; [done|].
    simpl in Hseg. destruct Hseg as (Hs & Hn & Hx & Hp & Ht).
    apply Forall_cons in Hnz as [Hr Hnz].
    simpl. rewrite decide_False by done.
    rewrite Hs, Hn, Hx. simpl.
    rewrite (IH t (h_addr r)); [by destruct r|done|done|simpl in Hlen; lia].
Qed.

Lemma repr_nonnull s l : dbg_repr s l → Forall (λ r, h_addr r ≠ NULL) l.
Proof.
  intros Hrepr. apply Forall_forall. intros r Hr.
  pose proof (repr_addr_range _ _ _ Hrepr Hr). offs. lia.
Qed.

Lemma repr_walk s l fuel :
  dbg_repr s l → (length l ≤ fuel)%nat →
  walk fuel (mem s) (dbgHead s) = Some l.
Proof.
  intros Hrepr Hlen. rewrite (repr_head _ _ Hrepr).
  eapply walk_seg; [apply (repr_cells _ _ Hrepr)|by eapply repr_nonnull|done].
Qed.

(** ** Every operation keeps the representation *)

Lemma init_repr : dbg_repr init [].
Proof.
  split; simpl.
  - done.
  - done.
  - apply NoDup_nil_2.
  - intros a n. rewrite lookup_empty. split; [done|].
    intros (r & Hr & _). by apply elem_of_nil in Hr.
  - done.
  - apply heap_ok_empty.
  - done.
  - by unfold SIZE_MOD.
Qed.

Lemma nums_remove (l1 l2 : list hdr) r :
  h_num <$> l1 ++ l2 ⊆ h_num <$> l1 ++ r :: l2.
Proof.
  intros x. rewrite !fmap_app, fmap_cons, !elem_of_app, elem_of_cons. tauto.
Qed.

(** What one operation does to the tracked list. *)
Lemma exec_step s l o v s' :
  dbg_repr s l → op_ok s o → exec o s = Ok v s' →
  (creates o && bool_decide (v ≠ NULL) = true ∧
   ∃ sz, dbg_repr s' (mkHdr (v - sizeof_DebugHeader) sz
                            (wrap (debugAllocCount s + 1)) :: l) ∧
         debugAllocCount s' = wrap (debugAllocCount s + 1)) ∨
  (creates o && bool_decide (v ≠ NULL) = false ∧
   debugAllocCount s' = debugAllocCount s ∧
   ∃ l', dbg_repr s' l' ∧ h_num <$> l' ⊆ h_num <$> l).
Proof.
  intros Hrepr Hok H.
  assert (Halloc : ∀ r sz, 0 ≤ sz < SIZE_MOD →
    answer_ok (blocks s) r (wrap (sizeof_DebugHeader + sz)) →
    debugAlloc r sz s = Ok v s' →
    (bool_decide (v ≠ NULL) = true ∧
     ∃ sz, dbg_repr s' (mkHdr (v - sizeof_DebugHeader) sz
                              (wrap (debugAllocCount s + 1)) :: l) ∧
           debugAllocCount s' = wrap (debugAllocCount s + 1)) ∨
    (bool_decide (v ≠ NULL) = false ∧
     debugAllocCount s' = debugAllocCount s ∧
     ∃ l', dbg_repr s' l' ∧ h_num <$> l' ⊆ h_num <$> l)).
  { intros r sz Hsz Hans Hrun.
    destruct (debugAlloc_Ok_inv _ _ _ _ _ _ Hrepr Hsz Hans Hrun)
      as [(-> & -> & ->)|(a & -> & -> & Hpos & Hlt & Hr & Hc & _)].
    - right. split; [by apply bool_decide_eq_false; intros ?|].
      split; [done|]. by exists l.
    - left. destruct Hans as (Ha & _). split.
      + apply bool_decide_eq_true. offs. lia.
      + exists sz. by replace (a + sizeof_DebugHeader - sizeof_DebugHeader) with a by lia. }
  destruct o as [r sz|ptr|r ptr sz]; simpl in *.
  - destruct Hok as [Hsz Hans]. by apply Halloc in H.
  - right. split; [done|].
    apply bind_Ok_inv in H as (u & s1 & H & Hret). injection Hret as _ <-.
    destruct (debugFree_tracked _ _ _ _ _ Hrepr H)
      as [(-> & ->)|(l1 & r & l2 & -> & ->)].
    + split; [done|]. by exists l.
    + destruct (debugFree_spec _ _ _ _ Hrepr) as (s'' & Hrun & Hr & Hc & _).
      rewrite Hrun in H. simplify_eq. split; [done|].
      exists (l1 ++ l2). split; [done|]. apply nums_remove.
  - destruct Hok as [Hsz Hans].
    destruct (decide (ptr = NULL)) as [->|Hp].
    + rewrite bool_decide_eq_true_2 by done. simpl.
      unfold debugRealloc in H. rewrite decide_True in H by done.
      by apply Halloc in H.
    + rewrite bool_decide_eq_false_2 by done. simpl. right. split; [done|].
      destruct (decide (sz = 0)) as [->|Hnz].
      * unfold debugRealloc in H. rewrite decide_False, decide_True in H by done.
        apply bind_Ok_inv in H as (u & s1 & H & Hret). injection Hret as _ <-.
        destruct (debugFree_tracked _ _ _ _ _ Hrepr H)
          as [(-> & ->)|(l1 & r0 & l2 & -> & ->)]; [done|].
        destruct (debugFree_spec _ _ _ _ Hrepr) as (s'' & Hrun & Hr & Hc & _).
        rewrite Hrun in H. simplify_eq. split; [done|].
        exists (l1 ++ l2). split; [done|]. apply nums_remove.
      * destruct (debugRealloc_Ok_inv _ _ _ _ _ _ _ Hrepr Hp Hnz Hsz Hans H)
          as (a & l1 & rec & l2 & -> & -> & -> & -> & Hlt & Hr & Hc & _).
        split; [done|]. eexists. split; [exact Hr|].
        rewrite !fmap_app, !fmap_cons. done.
Qed.

Lemma exec_inv s o v s' :
  dbg_inv s → op_ok s o → exec o s = Ok v s' → dbg_inv s'.
Proof.
  intros [l Hrepr] Hok H.
  destruct (exec_step _ _ _ _ _ Hrepr Hok H)
    as [(_ & sz & Hr & _)|(_ & _ & l' & Hr & _)]; eexists; exact Hr.
Qed.

(** ** The list is a valid doubly-linked structure *)

Lemma in_list_split s l r :
  dbg_repr s l → in_list s r →
  ∃ l1 x l2, l = l1 ++ x :: l2 ∧ r = h_addr x.
Proof.
  intros Hrepr. induction 1 as [Hnz|r n _ IH Hnx Hnz].
  - rewrite (repr_head _ _ Hrepr) in *. destruct l as [|x t]; [done|].
    by exists [], x, t.
  - destruct IH as (l1 & x & l2 & -> & ->).
    pose proof (repr_cells _ _ Hrepr) as Hc.
    apply dll_seg_app in Hc as [_ Hc]. simpl in Hc.
    destruct Hc as (_ & _ & Hx & _ & _).
    rewrite Hx in Hnx. injection Hnx as <-.
    destruct l2 as [|y l2']; [done|].
    exists (l1 ++ [x]), y, l2'. by rewrite <- app_assoc.
Qed.

Lemma repr_dll_valid s l : dbg_repr s l → dll_valid s.
Proof.
  intros Hrepr. split.
  - intros Hnz. rewrite (repr_head _ _ Hrepr) in *.
    destruct l as [|x t]; [done|].
    pose proof (repr_cells _ _ Hrepr) as Hc. simpl in Hc. tauto.
  - intros r Hr.
    destruct (in_list_split _ _ _ Hrepr Hr) as (l1 & x & l2 & -> & ->).
    split; [eapply repr_valid; [done|solve_elem]|].
    pose proof (repr_cells _ _ Hrepr) as Hc.
    apply dll_seg_app in Hc as [Hc1 Hc2]. simpl in Hc2.
    destruct Hc2 as (_ & _ & Hx & Hp & Hc2).
    exists (first_addr l2 NULL), (last_addr l1 NULL). split_and!; try done.
    + destruct l2 as [|y l2']; [done|]. intros _. simpl in Hc2. tauto.
    + destruct (list_snoc_case l1) as [->|(l1' & q & ->)]; [done|].
      intros _. rewrite last_addr_snoc. apply dll_seg_app in Hc1 as [_ Hc1].
      simpl in Hc1. tauto.
Qed.

(** ** Runs *)

Lemma run_cons o ops s v s1 :
  exec o s = Ok v s1 →
  run (o :: ops) s =
  match run ops s1 with
  | Ok ns s2 => Ok (assigned o v s1 ++ ns) s2
  | other => other
  end.
Proof. intros H. simpl. by rewrite H. Qed.

Lemma ops_ok_cons o ops s v s1 :
  exec o s = Ok v s1 →
  ops_ok (o :: ops) s ↔ op_ok s o ∧ ops_ok ops s1.
Proof. intros H. simpl. by rewrite H. Qed.

Lemma run_cons_inv o ops s ns s' :
  run (o :: ops) s = Ok ns s' →
  ∃ v s1 ns', exec o s = Ok v s1 ∧ run ops s1 = Ok ns' s' ∧
              ns = assigned o v s1 ++ ns'.
Proof.
  simpl. destruct (exec o s) as [v s1| | |] eqn:He; try done.
  destruct (run ops s1) as [ns' s2| | |] eqn:Hr; try done.
  intros H. simplify_eq. by exists v, s1, ns'.
Qed.

Lemma run_inv ops s ns s' :
  dbg_inv s → ops_ok ops s → run ops s = Ok ns s' → dbg_inv s'.
Proof.
  revert s ns. induction ops as [|o ops IH]; intros s ns Hinv Hok H.
  - by injection H as _ <-.
  - apply run_cons_inv in H as (v & s1 & ns' & He & Hr & _).
    simpl in Hok. rewrite He in Hok. destruct Hok as [Ho Hok].
    eapply IH; [|done|done]. by eapply exec_inv.
Qed.

(** The number read back after a creating step is the one the invariant
    gives to the new head. *)
Lemma assigned_created o v s' sz n l :
  creates o && bool_decide (v ≠ NULL) = true →
  dbg_repr s' (mkHdr (v - sizeof_DebugHeader) sz n :: l) →
  assigned o v s' = [n].
Proof.
  intros Hc Hrepr. unfold assigned. rewrite Hc.
  pose proof (repr_cells _ _ Hrepr) as Hcells. simpl in Hcells.
  destruct Hcells as (_ & -> & _). done.
Qed.

Lemma assigned_none o v s' :
  creates o && bool_decide (v ≠ NULL) = false → assigned o v s' = [].
Proof. intros Hc. unfold assigned. by rewrite Hc. Qed.

Lemma seqZ_cons' m n : 0 < n → seqZ m n = m :: seqZ (m + 1) (n - 1).
Proof. intros Hn. by rewrite seqZ_cons by lia. Qed.

(** While the counter does not wrap, the numbers handed out by a run are
    the consecutive integers after the counter's starting value. *)
Lemma run_numbers ops s ns s' :
  dbg_inv s → ops_ok ops s → run ops s = Ok ns s' →
  debugAllocCount s + Z.of_nat (length ns) < SIZE_MOD →
  ns = seqZ (debugAllocCount s + 1) (Z.of_nat (length ns)) ∧
  debugAllocCount s' = debugAllocCount s + Z.of_nat (length ns).
Proof.
  revert s ns. induction ops as [|o ops IH]; intros s ns [l Hrepr] Hok H Hlt.
  - injection H as <- <-. simpl. split; [done|lia].
  - apply run_cons_inv in H as (v & s1 & ns' & He & Hr & ->).
    simpl in Hok. rewrite He in Hok. destruct Hok as [Ho Hok].
    pose proof (repr_count _ _ Hrepr) as Hcnt.
    destruct (exec_step _ _ _ _ _ Hrepr Ho He)
      as [(Hc & sz & Hr1 & Hc1)|(Hc & Hc1 & l' & Hr1 & _)].
    + rewrite (assigned_created _ _ _ _ _ _ Hc Hr1) in *.
      simpl in Hlt. rewrite wrap_small in Hc1 by lia.
      destruct (IH s1 ns' ltac:(by eexists) Hok Hr ltac:(lia)) as [IH1 IH2].
      split.
      * simpl length. rewrite seqZ_cons' by lia.
        rewrite wrap_small by lia. simpl. f_equal.
        rewrite IH1 at 1. rewrite Hc1. f_equal; lia.
      * rewrite IH2, Hc1. simpl length. lia.
    + rewrite (assigned_none _ _ _ Hc) in *. simpl in *.
      destruct (IH s1 ns' ltac:(by eexists) Hok Hr ltac:(lia)) as [IH1 IH2].
      split; [by rewrite <- Hc1|]. by rewrite IH2, Hc1.
Qed.

Lemma seqZ_sorted m n : StronglySorted Z.lt (seqZ m n).
Proof.
  destruct (decide (0 ≤ n)) as [Hn|Hn].
  - rewrite <- (Z2Nat.id n) by done. generalize (Z.to_nat n). clear. intros k.
    revert m. induction k as [|k IH]; intros m.
    + constructor.
    + rewrite Nat2Z.inj_succ, seqZ_cons' by lia.
      replace (Z.succ (Z.of_nat k) - 1) with (Z.of_nat k) by lia.
      constructor; [apply IH|].
      apply Forall_forall. intros x Hx. apply elem_of_seqZ in Hx. lia.
  - unfold seqZ. rewrite Z2Nat.nonpos by lia. constructor.
Qed.

(** ** The end-to-end example, by computation *)

Example demo_ok : ops_ok demo_ops init.
Proof. apply (bool_decide_unpack _). vm_compute. exact I. Qed.

Example demo_run : run demo_ops init = Ok [1; 2] demo_state.
Proof. vm_compute. reflexivity. Qed.

(** After each of the four steps: counter, live bytes and the list. *)
Example demo_steps :
  let s1 := final_state (take 1 demo_ops) init in
  let s2 := final_state (take 2 demo_ops) init in
  let s3 := final_state (take 3 demo_ops) init in
  (debugAllocCount s1, debugBytesAlive s1) = (1, 10) ∧
  walk 1 (mem s1) (dbgHead s1) = Some [mkHdr 4096 10 1] ∧
  (debugAllocCount s2, debugBytesAlive s2) = (2, 30) ∧
  walk 2 (mem s2) (dbgHead s2) = Some [mkHdr 8192 20 2; mkHdr 4096 10 1] ∧
  (debugAllocCount s3, debugBytesAlive s3) = (2, 20) ∧
  walk 1 (mem s3) (dbgHead s3) = Some [mkHdr 8192 20 2] ∧
  (debugAllocCount demo_state, debugBytesAlive demo_state) = (2, 5) ∧
  walk 1 (mem demo_state) (dbgHead demo_state) = Some [mkHdr 12288 5 2].
Proof. vm_compute. done. Qed.

(** The same last step when the allocator shrinks the block where it is. *)
Example demo_in_place :
  let s := final_state
             (take 3 demo_ops
              ++ [OpRealloc (Some 8192) (8192 + sizeof_DebugHeader) 5]) init in
  debugBytesAlive s = 5 ∧
  walk 1 (mem s) (dbgHead s) = Some [mkHdr 8192 5 2].
Proof. vm_compute. done. Qed.

Lemma init_inv : dbg_inv init.
Proof. exists []. apply init_repr. Qed.

(** C2.  After any sequence of [debugAlloc], [debugFree] and [debugRealloc]
    calls that runs to completion from the initial state, [debugBytesAlive]
    equals the sum of the [size] fields of the records found by following
    [next] from [dbgHead].  The sum is the mathematical one: it does not
    wrap, because the tracked blocks are disjoint parts of the address
    space. *)
Theorem debugBytesAlive_is_sum ops ns s :
  ops_ok ops init → run ops init = Ok ns s →
  ∃ l, (∀ fuel, (length l ≤ fuel)%nat →
                walk fuel (mem s) (dbgHead s) = Some l) ∧
       debugBytesAlive s = sum_sizes l.
Proof.
  intros Hok Hrun.
  destruct (run_inv _ _ _ _ init_inv Hok Hrun) as [l Hrepr].
  exists l. split.
  - intros fuel Hf. by apply repr_walk.
  - by apply repr_bytes_exact.
Qed.

(** C2 on the end-to-end scenario. *)
Lemma debugBytesAlive_is_sum_witness :
  ops_ok demo_ops init ∧ run demo_ops init = Ok [1; 2] demo_state ∧
  ∃ l, (∀ fuel, (length l ≤ fuel)%nat →
                walk fuel (mem demo_state) (dbgHead demo_state) = Some l) ∧
       debugBytesAlive demo_state = sum_sizes l.
Proof.
  assert (H1 : ops_ok demo_ops init)
    by (apply (bool_decide_unpack _); vm_compute; exact I).
  assert (H2 : run demo_ops init = Ok [1; 2] demo_state)
    by (vm_compute; reflexivity).
  split; [exact H1|]. split; [exact H2|].
  exact (debugBytesAlive_is_sum demo_ops [1; 2] demo_state H1 H2).
Defined.

(** C3.  In every state the debug allocator can be in, each of [debugAlloc],
    [debugFree] and [debugRealloc] takes a valid doubly-linked list to a
    valid doubly-linked list: the head's [prev] is null, and every record
    [r] of the list has [r->next->prev == r] and [r->prev->next == r]
    whenever those neighbours exist. *)
Theorem debug_ops_preserve_dll ops ns s o v s' :
  ops_ok ops init → run ops init = Ok ns s →
  op_ok s o → exec o s = Ok v s' →
  dll_valid s ∧ dll_valid s'.
Proof.
  intros Hok Hrun Ho He.
  pose proof (run_inv _ _ _ _ init_inv Hok Hrun) as Hinv.
  pose proof (exec_inv _ _ _ _ Hinv Ho He) as [l' Hr'].
  destruct Hinv as [l Hr].
  split; by eapply repr_dll_valid.
Qed.

(** C4, as amended.  As long as fewer than [2^64] records have been created
    since the start of the program, the sequence numbers given to the
    records created by a sequence of operations are 1, 2, 3, ... in the
    order of creation: strictly increasing, without repetition, frees and
    resizes in between notwithstanding, and [debugAllocCount] is the number
    of records created so far. *)
Theorem sequence_numbers_increase ops ns s :
  ops_ok ops init → run ops init = Ok ns s →
  Z.of_nat (length ns) < SIZE_MOD →
  ns = seqZ 1 (Z.of_nat (length ns)) ∧
  StronglySorted Z.lt ns ∧ NoDup ns ∧
  debugAllocCount s = Z.of_nat (length ns).
Proof.
  intros Hok Hrun Hlen.
  destruct (run_numbers _ _ _ _ init_inv Hok Hrun) as [Hns Hc]; [simpl; lia|].
  simpl in Hns, Hc. split_and!; [done| | |done].
  - rewrite Hns. apply seqZ_sorted.
  - rewrite Hns. apply NoDup_seqZ.
Qed.

(** *** The counter wraps *)

Lemma churns_run n s :
  dbg_repr s [] →
  ∃ s', run (churns n) s
        = Ok ((λ i, wrap (debugAllocCount s + Z.of_nat i)) <$> seq 1 n) s' ∧
        ops_ok (churns n) s ∧ dbg_repr s' [].
Proof.
  revert s. induction n as [|n IH]; intros s Hrepr.
  - exists s. done.
  - assert (Hfresh : fresh_block (blocks s) 4096 (sizeof_DebugHeader + 1)).
    { assert (∀ a n, blocks s !! a = Some n → False) as Hemp.
      { intros a m Hb. apply (repr_blocks _ _ Hrepr) in Hb as (r & Hr & _).
        by apply elem_of_nil in Hr. }
      split_and!; [done|by unfold SIZE_MOD| |].
      - destruct (blocks s !! 4096) eqn:Hb; [by apply Hemp in Hb|done].
      - intros a m Hb. by apply Hemp in Hb. }
    destruct (debugAlloc_spec s [] 4096 1 Hrepr ltac:(done) ltac:(by unfold SIZE_MOD) Hfresh)
      as (s1 & Hrun1 & Hr1 & Hc1 & _).
    destruct (debugFree_spec s1 [] _ [] Hr1) as (s2 & Hrun2 & Hr2 & Hc2 & _).
    simpl in Hrun2.
    destruct (IH s2 Hr2) as (s' & Hrun & Hok & Hr').
    assert (He1 : exec (OpAlloc (Some 4096) 1) s = Ok (4096 + sizeof_DebugHeader) s1)
      by exact Hrun1.
    assert (He2 : exec (OpFree (4096 + sizeof_DebugHeader)) s1 = Ok NULL s2).
    { simpl. unfold bind. by rewrite Hrun2. }
    exists s'. split_and!; [| |done].
    + simpl churns. rewrite (run_cons _ _ _ _ _ He1), (run_cons _ _ _ _ _ He2), Hrun.
      rewrite (assigned_created _ _ _ 1 (wrap (debugAllocCount s + 1)) []);
        [|done|done].
      rewrite assigned_none by done.
      simpl. f_equal. f_equal.
      rewrite <- (fmap_S_seq 1), <- list_fmap_compose.
      apply list_fmap_ext. intros _ i _. simpl.
      rewrite Hc2, Hc1, wrap_add_l. f_equal. lia.
    + simpl churns. rewrite (ops_ok_cons _ _ _ _ _ He1), (ops_ok_cons _ _ _ _ _ He2).
      split; [split; [by unfold SIZE_MOD|]|by split].
      simpl. by rewrite wrap_small by (by unfold SIZE_MOD).
Qed.

Lemma SIZE_MOD_nat : ∃ m, Z.to_nat SIZE_MOD = S (S m).
Proof.
  exists (Z.to_nat (SIZE_MOD - 2)).
  assert (2 ≤ SIZE_MOD) by (by unfold SIZE_MOD).
  lia.
Qed.

(** C4 fails once the counter wraps: [2^64] rounds of allocating one byte
    and freeing it give the numbers 1, 2, ..., [2^64 - 1], 0. *)
Lemma sequence_numbers_wrap :
  ∃ ns s, ops_ok wrap_ops init ∧ run wrap_ops init = Ok ns s ∧
          ¬ StronglySorted Z.lt ns.
Proof.
  unfold wrap_ops. destruct SIZE_MOD_nat as [m Hm].
  assert (Hsz : Z.of_nat (S (S m)) = SIZE_MOD).
  { rewrite <- Hm. apply Z2Nat.id. by unfold SIZE_MOD. }
  revert Hsz. rewrite Hm. generalize (S m). clear m Hm. intros k Hsz.
  destruct (churns_run (S k) init init_repr) as (s & Hrun & Hok & _).
  eexists _, s. split_and!; [exact Hok|exact Hrun|].
  rewrite seq_S, fmap_app. 
  destruct k as [|k']; [unfold SIZE_MOD in Hsz; simpl in Hsz; lia|].
  rewrite <- cons_seq, fmap_cons.
  intros Hs. apply StronglySorted_inv in Hs as [_ Hall].
  apply Forall_app in Hall as [_ Hall].
  rewrite list_fmap_singleton in Hall.
  apply (proj1 (Forall_singleton _ _)) in Hall as Hlt.
  change (debugAllocCount init) with 0 in Hlt.
  replace (0 + Z.of_nat (1 + S k')) with SIZE_MOD in Hlt by lia.
  rewrite (wrap_small (0 + Z.of_nat 1)) in Hlt by (by unfold SIZE_MOD).
  unfold wrap in Hlt. rewrite Z_mod_same_full in Hlt. lia.
Qed.

(** ** walk *)

Lemma walk_mono fuel fuel' m h l :
  walk fuel m h = Some l → (fuel ≤ fuel')%nat → walk fuel' m h = Some l.
Proof.
  revert fuel' h l. induction fuel as [|fuel IH]; intros fuel' h l H Hle.
  - simpl in H. destruct fuel'; simpl; by destruct (decide (h = NULL)).
  - destruct fuel' as [|fuel']; [lia|]. simpl in *.
    destruct (decide (h = NULL)); [done|].
    destruct (m !! (h + off_size)) as [sz|]; [|done].
    destruct (m !! (h + off_allocNumber)) as [num|]; [|done].
    destruct (m !! (h + off_next)) as [nxt|]; [|done]. simpl in *.
    destruct (walk fuel m nxt) as [t|] eqn:Ht; [|done].
    by rewrite (IH fuel' nxt t Ht ltac:(lia)).
Qed.

Lemma walk_length fuel m h l : walk fuel m h = Some l → (length l ≤ fuel)%nat.
Proof.
  revert h l. induction fuel as [|fuel IH]; intros h l H; simpl in H.
  - destruct (decide (h = NULL)); [|done]. injection H as <-. done.
  - destruct (decide (h = NULL)); [injection H as <-; simpl; lia|].
    destruct (m !! (h + off_size)) as [sz|]; [|done].
    destruct (m !! (h + off_allocNumber)) as [num|]; [|done].
    destruct (m !! (h + off_next)) as [nxt|]; [|done]. simpl in *.
    destruct (walk fuel m nxt) as [t|] eqn:Ht; [|done].
    injection H as <-. simpl. apply IH in Ht. lia.
Qed.

Lemma repr_walk_eq s l fuel l' :
  dbg_repr s l → walk fuel (mem s) (dbgHead s) = Some l' → l' = l.
Proof.
  intros Hrepr Hw.
  pose proof (walk_mono _ (fuel `max` length l)%nat _ _ _ Hw ltac:(lia)) as H1.
  pose proof (repr_walk s l (fuel `max` length l)%nat Hrepr ltac:(lia)) as H2.
  congruence.
Qed.

(** ** The leak report *)

Lemma report_loop_spec fuel s prv l :
  dll_seg (mem s) prv l NULL →
  (∀ r, r ∈ l → valid_access s (h_addr r) sizeof_DebugHeader = true
                ∧ h_addr r ≠ NULL) →
  (length l ≤ fuel)%nat →
  report_loop fuel (first_addr l NULL) s
  = Ok tt (set_stderr (stderr s ++ ((λ r, leak_line (h_num r) (h_size r)) <$> l)) s).
Proof.
  revert s prv l. induction fuel as [|fuel IH]; intros s prv l Hseg Hv Hlen.
  - destruct l; [|simpl in Hlen; lia]. simpl. rewrite app_nil_r. by destruct s.
  - destruct l as [|r t].
    { simpl. rewrite app_nil_r. by destruct s. }
    simpl in Hseg. destruct Hseg as (Hs & Hn & Hx & Hp & Ht).
    destruct (Hv r ltac:(left)) as [Hvr Hnz].
    simpl. rewrite decide_False by done.
    mload; [|done|done]. mload; [|done|done]. mpure.
    mload; [|by rewrite valid_access_mk|done].
    rewrite (IH _ (h_addr r) t); snorm.
    + unfold set_stderr. snorm. by rewrite <- app_assoc.
    + done.
    + intros x Hx'. rewrite valid_access_mk. apply Hv. by right.
    + simpl in Hlen. lia.
Qed.

(** The report in general: one [leak_line] per record, head first, between
    header and trailer; nothing but stderr changes. *)
Lemma debugReportLeaks_spec fuel s l :
  dbg_repr s l → (length l ≤ fuel)%nat →
  debugReportLeaks fuel s
  = Ok tt (set_stderr (stderr s ++ report_of l (debugBytesAlive s)) s).
Proof.
  intros Hrepr Hlen. unfold debugReportLeaks. mpure.
  rewrite (repr_head _ _ Hrepr).
  destruct l as [|r t].
  - simpl. done.
  - pose proof (repr_addr_range _ _ r Hrepr ltac:(left)) as [Hpos _].
    rewrite decide_False by (simpl; offs; lia).
    mpure.
    erewrite bind_Ok.
    2:{ apply (report_loop_spec fuel _ NULL (r :: t)); snorm.
        - apply (repr_cells _ _ Hrepr).
        - intros x Hx. rewrite valid_access_mk. split; [by eapply repr_valid|].
          pose proof (repr_addr_range _ _ x Hrepr Hx). offs. lia.
        - done. }
    unfold set_stderr. snorm. mpure. unfold fprintf_stderr, modify. snorm.
    unfold report_of, leaks_header, total_line. simpl.
    by rewrite <- !app_assoc.
Qed.

(** ** Writing into a payload *)

Lemma store_char_payload s l r i c :
  dbg_repr s l → r ∈ l → 0 ≤ i < h_size r →
  ∃ s', store_char (h_addr r + sizeof_DebugHeader + i) c s = Ok tt s' ∧
        dbg_repr s' l.
Proof.
  intros Hrepr Hr Hi. unfold store_char.
  rewrite (valid_access_true s _ _ (h_addr r) (sizeof_DebugHeader + h_size r));
    [|by eapply repr_block|offs; lia|lia].
  eexists. split; [reflexivity|].
  destruct Hrepr as [Hhd Hcells Hnd Hblk Hsz Hheap Hbytes Hcnt].
  split; snorm; try done.
  eapply dll_seg_frame; [|exact Hcells].
  intros x off Hx Hoff. apply lookup_insert_ne.
  assert (Hbx : blocks s !! h_addr x = Some (sizeof_DebugHeader + h_size x)).
  { apply Hblk. eauto. }
  assert (Hbr : blocks s !! h_addr r = Some (sizeof_DebugHeader + h_size r)).
  { apply Hblk. eauto. }
  destruct (decide (h_addr r = h_addr x)) as [Heq|Hne]; [offs; lia|].
  rewrite Forall_forall in Hsz. pose proof (Hsz x Hx).
  destruct (heap_disjoint _ Hheap _ _ _ _ Hbr Hbx Hne); offs; lia.
Qed.

Lemma copy_loop_payload cs s l r i :
  dbg_repr s l → r ∈ l → 0 ≤ i → i + Z.of_nat (length cs) ≤ h_size r →
  ∃ s', copy_loop (h_addr r + sizeof_DebugHeader) i cs s = Ok tt s' ∧
        dbg_repr s' l.
Proof.
  revert s i. induction cs as [|c cs IH]; intros s i Hrepr Hr Hi Hlen.
  - exists s. done.
  - simpl in Hlen.
    destruct (store_char_payload s l r i c Hrepr Hr ltac:(lia)) as (s1 & H1 & Hr1).
    destruct (IH s1 (i + 1) Hr1 Hr ltac:(lia) ltac:(lia)) as (s2 & H2 & Hr2).
    exists s2. split; [|done]. simpl. unfold bind. by rewrite H1, H2.
Qed.

Lemma strlen_nonneg str : 0 ≤ strlen str.
Proof. unfold strlen. lia. Qed.

(** Duplicating through the debug allocator tracks one more record and
    leaves the others alone. *)
Lemma xstrdup_debug_spec s l str a :
  dbg_repr s l →
  sizeof_DebugHeader + (strlen str + 1) < SIZE_MOD →
  fresh_block (blocks s) a (sizeof_DebugHeader + (strlen str + 1)) →
  ∃ s1, xstrdup DebugAllocator (Some a) (Some str) s
        = Ok (a + sizeof_DebugHeader) s1 ∧
        dbg_repr s1 (mkHdr a (strlen str + 1) (wrap (debugAllocCount s + 1)) :: l).
Proof.
  intros Hrepr Hlt Hfresh. pose proof (strlen_nonneg str) as Hnn.
  unfold xstrdup. simpl alloc.
  rewrite wrap_small by (offs; unfold SIZE_MOD in *; lia).
  destruct (debugAlloc_spec s l a (strlen str + 1) Hrepr ltac:(lia) Hlt Hfresh)
    as (s1 & H1 & Hr1 & _).
  set (new := mkHdr a (strlen str + 1) (wrap (debugAllocCount s + 1))) in *.
  destruct (copy_loop_payload (c_chars str) s1 _ new 0 Hr1 ltac:(left) ltac:(done))
    as (s2 & H2 & Hr2).
  { subst new. cbn [h_size]. unfold strlen. lia. }
  destruct (store_char_payload s2 _ new (strlen str) 0 Hr2 ltac:(left))
    as (s3 & H3 & Hr3).
  { subst new. cbn [h_size]. lia. }
  exists s3. split; [|done]. simpl in H2, H3.
  unfold bind. by rewrite H1, H2, H3.
Qed.

(** C9.  In every state the debug allocator can be in, duplicating a string
    with [xstrdup] through [DebugAllocator] (the allocation succeeding) and
    then freeing the result through [DebugAllocator] brings
    [debugBytesAlive] back to what it was; in between it is larger by the
    length of the string plus one. *)
Theorem xstrdup_free_roundtrip ops ns s str a :
  ops_ok ops init → run ops init = Ok ns s →
  sizeof_DebugHeader + (strlen str + 1) < SIZE_MOD →
  fresh_block (blocks s) a (sizeof_DebugHeader + (strlen str + 1)) →
  ∃ s1 s2,
    xstrdup DebugAllocator (Some a) (Some str) s
    = Ok (a + sizeof_DebugHeader) s1 ∧
    free DebugAllocator (a + sizeof_DebugHeader) s1 = Ok tt s2 ∧
    debugBytesAlive s1 = debugBytesAlive s + (strlen str + 1) ∧
    debugBytesAlive s2 = debugBytesAlive s.
Proof.
  intros Hok Hrun Hlt Hfresh.
  destruct (run_inv _ _ _ _ init_inv Hok Hrun) as [l Hrepr].
  destruct (xstrdup_debug_spec s l str a Hrepr Hlt Hfresh) as (s1 & H1 & Hr1).
  destruct (debugFree_spec s1 [] _ l Hr1) as (s2 & H2 & Hr2 & _).
  exists s1, s2. split_and!; [done|exact H2| |].
  - rewrite (repr_bytes_exact _ _ Hr1), (repr_bytes_exact _ _ Hrepr).
    rewrite sum_sizes_cons. simpl. lia.
  - by rewrite (repr_bytes_exact _ _ Hr2), (repr_bytes_exact _ _ Hrepr).
Qed.

(** C9 on the end-to-end scenario, duplicating a four-letter string. *)
Lemma xstrdup_free_roundtrip_witness :
  ops_ok demo_ops init ∧ run demo_ops init = Ok [1; 2] demo_state ∧
  ∃ s1 s2,
    xstrdup DebugAllocator (Some 20480) (Some "leak") demo_state
    = Ok (20480 + sizeof_DebugHeader) s1 ∧
    free DebugAllocator (20480 + sizeof_DebugHeader) s1 = Ok tt s2 ∧
    debugBytesAlive s1 = debugBytesAlive demo_state + (strlen "leak" + 1) ∧
    debugBytesAlive s2 = debugBytesAlive demo_state.
Proof.
  assert (H1 : ops_ok demo_ops init)
    by (apply (bool_decide_unpack _); vm_compute; exact I).
  assert (H2 : run demo_ops init = Ok [1; 2] demo_state)
    by (vm_compute; reflexivity).
  split; [exact H1|]. split; [exact H2|].
  apply (xstrdup_free_roundtrip demo_ops [1; 2] demo_state "leak" 20480 H1 H2).
  - vm_compute. reflexivity.
  - apply (bool_decide_unpack _). vm_compute. exact I.
Defined.

Lemma app_cons_unique {A} (l1 l1' l2 l2' : list A) x :
  l1 ++ x :: l2 = l1' ++ x :: l2' → NoDup (l1 ++ x :: l2) →
  l1 = l1' ∧ l2 = l2'.
Proof.
  revert l1'. induction l1 as [|a t IH]; intros [|b t'] Heq Hnd; simpl in *.
  - by injection Heq as <-.
  - injection Heq as <- ->. apply NoDup_cons in Hnd as [Hn _].
    exfalso. apply Hn. rewrite elem_of_app, elem_of_cons. tauto.
  - injection Heq as -> <-. apply NoDup_cons in Hnd as [Hn _].
    exfalso. apply Hn. rewrite elem_of_app, elem_of_cons. tauto.
  - injection Heq as <- Heq. apply NoDup_cons in Hnd as [_ Hnd].
    destruct (IH t' Heq Hnd) as [-> ->]. done.
Qed.

(** C10.  For a tracked pointer and a nonzero size, whenever [debugRealloc]
    returns it has left [debugAllocCount] unchanged and the list is what it
    was, record for record, except that the resized record has the new
    address and the new size; it keeps its sequence number.  It does return
    when the system allocator hands out a block and header plus payload
    fit in a [size_t]. *)
Theorem debugRealloc_keeps_number ops ns s fuel l1 rec l2 r sz :
  ops_ok ops init → run ops init = Ok ns s →
  walk fuel (mem s) (dbgHead s) = Some (l1 ++ rec :: l2) →
  sz ≠ 0 →
  op_ok s (OpRealloc r (h_addr rec + sizeof_DebugHeader) sz) →
  (∀ v s',
     debugRealloc r (h_addr rec + sizeof_DebugHeader) sz s = Ok v s' →
     debugAllocCount s' = debugAllocCount s ∧
     ∃ a, r = Some a ∧ v = a + sizeof_DebugHeader ∧
          walk fuel (mem s') (dbgHead s')
          = Some (l1 ++ mkHdr a sz (h_num rec) :: l2)) ∧
  (∀ a, r = Some a → sizeof_DebugHeader + sz < SIZE_MOD →
        ∃ s', debugRealloc r (h_addr rec + sizeof_DebugHeader) sz s
              = Ok (a + sizeof_DebugHeader) s').
Proof.
  intros Hok Hrun Hwalk Hnz Hop.
  destruct (run_inv _ _ _ _ init_inv Hok Hrun) as [l Hrepr].
  pose proof (repr_walk_eq _ _ _ _ Hrepr Hwalk) as <-.
  pose proof (walk_length _ _ _ _ Hwalk) as Hfuel.
  pose proof (repr_addr_range _ _ rec Hrepr ltac:(solve_elem)) as [Hpos _].
  simpl in Hop. destruct Hop as [Hsz Hans].
  rewrite decide_False in Hans by (offs; lia).
  replace (h_addr rec + sizeof_DebugHeader - sizeof_DebugHeader)
    with (h_addr rec) in Hans by lia.
  split.
  - intros v s' H.
    destruct (debugRealloc_Ok_inv s (l1 ++ rec :: l2) r
                (h_addr rec + sizeof_DebugHeader) sz v s' Hrepr
                ltac:(offs; lia) Hnz Hsz)
      as (a & l1' & rec' & l2' & -> & -> & Hl & Hp & Hlt & Hr & Hc & _);
      [|done|].
    { by replace (h_addr rec + sizeof_DebugHeader - sizeof_DebugHeader)
        with (h_addr rec) by lia. }
    assert (h_addr rec' = h_addr rec) as Haddr by lia.
    assert (rec' = rec) as ->.
    { eapply (repr_same_addr _ _ _ _ Hrepr); [rewrite Hl; solve_elem|solve_elem|done]. }
    assert (l1 = l1' ∧ l2 = l2') as [<- <-].
    { pose proof (repr_nodup _ _ Hrepr) as Hnd.
      apply (NoDup_fmap_1 h_addr) in Hnd.
      by apply (app_cons_unique _ _ _ _ _ Hl). }
    split; [done|]. exists a. split_and!; [done|done|].
    apply repr_walk; [done|]. rewrite length_app in *. simpl in *. lia.
  - intros a -> Hlt. simpl in Hans.
    rewrite wrap_small in Hans by (offs; lia).
    destruct (debugRealloc_spec s l1 rec l2 a sz Hrepr ltac:(lia) Hlt Hans)
      as (s' & H & _).
    by exists s'.
Qed.

(** C3 on the state with two records, freeing the older one. *)
Lemma debug_ops_preserve_dll_witness :
  ops_ok two_allocs init ∧ run two_allocs init = Ok [1; 2] two_state ∧
  op_ok two_state (OpFree (4096 + sizeof_DebugHeader)) ∧
  exec (OpFree (4096 + sizeof_DebugHeader)) two_state
  = Ok NULL (final_state [OpFree (4096 + sizeof_DebugHeader)] two_state) ∧
  dll_valid two_state ∧
  dll_valid (final_state [OpFree (4096 + sizeof_DebugHeader)] two_state).
Proof.
  assert (H1 : ops_ok two_allocs init)
    by (apply (bool_decide_unpack _); vm_compute; exact I).
  assert (H2 : run two_allocs init = Ok [1; 2] two_state)
    by (vm_compute; reflexivity).
  assert (H3 : op_ok two_state (OpFree (4096 + sizeof_DebugHeader)))
    by exact I.
  assert (H4 : exec (OpFree (4096 + sizeof_DebugHeader)) two_state
               = Ok NULL (final_state [OpFree (4096 + sizeof_DebugHeader)] two_state))
    by (vm_compute; reflexivity).
  split; [exact H1|]. split; [exact H2|]. split; [exact H3|]. split; [exact H4|].
  exact (debug_ops_preserve_dll two_allocs [1; 2] two_state _ _ _ H1 H2 H3 H4).
Defined.

(** C4, as amended, on the end-to-end scenario. *)
Lemma sequence_numbers_increase_witness :
  ops_ok demo_ops init ∧ run demo_ops init = Ok [1; 2] demo_state ∧
  Z.of_nat (length [1; 2]) < SIZE_MOD ∧
  [1; 2] = seqZ 1 (Z.of_nat (length [1; 2])) ∧
  StronglySorted Z.lt [1; 2] ∧ NoDup [1; 2] ∧
  debugAllocCount demo_state = Z.of_nat (length [1; 2]).
Proof.
  assert (H1 : ops_ok demo_ops init)
    by (apply (bool_decide_unpack _); vm_compute; exact I).
  assert (H2 : run demo_ops init = Ok [1; 2] demo_state)
    by (vm_compute; reflexivity).
  assert (H3 : Z.of_nat (length [1; 2]) < SIZE_MOD) by (vm_compute; reflexivity).
  split; [exact H1|]. split; [exact H2|]. split; [exact H3|].
  exact (sequence_numbers_increase demo_ops [1; 2] demo_state H1 H2 H3).
Defined.

(** C10 on the state with two records, growing the older one to 40 bytes
    at a new address. *)
Lemma debugRealloc_keeps_number_witness :
  ops_ok two_allocs init ∧ run two_allocs init = Ok [1; 2] two_state ∧
  walk 2 (mem two_state) (dbgHead two_state)
  = Some ([mkHdr 8192 20 2] ++ mkHdr 4096 10 1 :: []) ∧
  40 ≠ 0 ∧
  op_ok two_state (OpRealloc (Some 12288) (4096 + sizeof_DebugHeader) 40) ∧
  (∀ v s',
     debugRealloc (Some 12288) (4096 + sizeof_DebugHeader) 40 two_state = Ok v s' →
     debugAllocCount s' = debugAllocCount two_state ∧
     ∃ a, Some 12288 = Some a ∧ v = a + sizeof_DebugHeader ∧
          walk 2 (mem s') (dbgHead s')
          = Some ([mkHdr 8192 20 2] ++ mkHdr a 40 1 :: [])) ∧
  (∀ a, Some 12288 = Some a → sizeof_DebugHeader + 40 < SIZE_MOD →
        ∃ s', debugRealloc (Some 12288) (4096 + sizeof_DebugHeader) 40 two_state
              = Ok (a + sizeof_DebugHeader) s').
Proof.
  assert (H1 : ops_ok two_allocs init)
    by (apply (bool_decide_unpack _); vm_compute; exact I).
  assert (H2 : run two_allocs init = Ok [1; 2] two_state)
    by (vm_compute; reflexivity).
  assert (H3 : walk 2 (mem two_state) (dbgHead two_state)
               = Some ([mkHdr 8192 20 2] ++ mkHdr 4096 10 1 :: []))
    by (vm_compute; reflexivity).
  assert (H4 : 40 ≠ 0) by lia.
  assert (H5 : op_ok two_state
                 (OpRealloc (Some 12288) (4096 + sizeof_DebugHeader) 40))
    by (apply (bool_decide_unpack _); vm_compute; exact I).
  split; [exact H1|]. split; [exact H2|]. split; [exact H3|].
  split; [exact H4|]. split; [exact H5|].
  exact (debugRealloc_keeps_number two_allocs [1; 2] two_state 2
           [mkHdr 8192 20 2] (mkHdr 4096 10 1) [] (Some 12288) 40
           H1 H2 H3 H4 H5).
Defined.

(** ** The fail-fast allocator *)

(** [xfree] has the body of [debugFree], word for word. *)
Lemma xfree_is_debugFree : xfree = debugFree.
Proof. reflexivity. Qed.

(** It reads a header in front of the block, and that is undefined when no
    live block holds the 32 bytes before the pointer. *)
Lemma xfree_outside_faults p s :
  p ≠ NULL →
  valid_access s (p - sizeof_DebugHeader) sizeof_DebugHeader = false →
  free SafeAllocator p s = Fault.
Proof.
  intros Hp Hv. simpl. unfold xfree. rewrite decide_False by done.
  unfold bind at 1, load_field. by rewrite Hv.
Qed.

(** When it does return, what it gave back to the system is the address 32
    bytes before the pointer, never the pointer. *)
Lemma xfree_frees_header p s u s' :
  p ≠ NULL → free SafeAllocator p s = Ok u s' →
  calls s' = (if decide (p - sizeof_DebugHeader = NULL) then []
              else [EvFree (p - sizeof_DebugHeader)]) ++ calls s.
Proof.
  intros Hp H. simpl in H. rewrite xfree_is_debugFree in H.
  apply debugFree_reaches_free in H as (s1 & Ho & _ & H); [|done].
  assert (calls s1 = calls s) as <-.
  { unfold outside in Ho. by injection Ho. }
  unfold Libc.free in H. destruct (decide _); [by injection H as _ <-|].
  snorm. destruct (blocks s1 !! _); [|done]. by injection H as _ <-.
Qed.

Lemma xalloc_raw : alloc SafeAllocator (Some 4096) 16 init = Ok 4096 raw_state.
Proof. vm_compute. reflexivity. Qed.

(** C1 does not hold of the code.  [xfree] on a pointer that [xalloc]
    returned looks for a [DebugHeader] in front of the block, where [xalloc]
    never put one: the read leaves the block.  Passing the pointer to the
    system's [free] would have released the block. *)
Theorem xfree_reads_missing_header :
  alloc SafeAllocator (Some 4096) 16 init = Ok 4096 raw_state ∧
  free SafeAllocator 4096 raw_state = Fault ∧
  free BasicAllocator 4096 raw_state
  = Ok tt (set_blocks ∅ (log_call (EvFree 4096) raw_state)).
Proof. split_and!; vm_compute; reflexivity. Qed.

(** C5 fails for [BasicAllocator]: its [alloc] is [malloc], so [alloc(0)] is
    a request to the system allocator, and the result is whatever [malloc(0)]
    gives. *)
Lemma basic_alloc0_calls_malloc :
  alloc BasicAllocator (Some 4096) 0 init
  = Ok 4096 (set_blocks {[ 4096 := 0 ]} (log_call (EvMalloc 0) init)) ∧
  ¬ alloc0_silent BasicAllocator.
Proof.
  split; [vm_compute; reflexivity|].
  intros H. specialize (H None init). discriminate H.
Qed.

(** C5, as amended.  For [SafeAllocator] and [DebugAllocator], allocating
    zero bytes returns null and changes nothing, the system allocator not
    being called.  For [BasicAllocator] it is one call [malloc(0)], which
    returns what the system allocator answers and leaves the debug
    bookkeeping alone. *)
Theorem alloc0_contract :
  alloc0_silent SafeAllocator ∧ alloc0_silent DebugAllocator ∧
  ∀ r s, alloc BasicAllocator r 0 s = Libc.malloc r 0 s ∧
         ∃ v s', alloc BasicAllocator r 0 s = Ok v s' ∧
                 calls s' = EvMalloc 0 :: calls s ∧
                 dbgHead s' = dbgHead s ∧
                 debugBytesAlive s' = debugBytesAlive s ∧
                 debugAllocCount s' = debugAllocCount s.
Proof.
  split_and!.
  - intros r s. reflexivity.
  - intros r s. reflexivity.
  - intros r s. split; [reflexivity|].
    destruct r as [a|]; eexists _, _; (split; [reflexivity|done]).
Qed.

(** ** resize with a zero size, with an empty pointer *)

Lemma realloc0_debug r p s :
  p ≠ NULL →
  realloc DebugAllocator r p 0 s = (free DebugAllocator p ;; ret NULL) s.
Proof.
  intros Hp. simpl. unfold debugRealloc. rewrite decide_False by done.
  by rewrite decide_True by done.
Qed.

Lemma realloc0_basic r p s :
  p ≠ NULL →
  realloc BasicAllocator r p 0 s = (free BasicAllocator p ;; ret NULL) s.
Proof.
  intros Hp. simpl. unfold Libc.realloc. rewrite decide_False by done.
  by rewrite decide_True by done.
Qed.

Lemma xrealloc0_never_returns r p s v s' :
  p ≠ NULL → realloc SafeAllocator r p 0 s ≠ Ok v s'.
Proof.
  intros Hp. simpl. unfold xrealloc, bind, Libc.realloc.
  rewrite decide_False by done. rewrite decide_True by done.
  unfold bind. destruct (Libc.free p s); done.
Qed.

(** C6 does not hold of the code.  [xrealloc(p, 0)] hands the request to
    [realloc], which releases the block and returns null, and [checkPtr]
    takes the null for an allocation failure: the process panics instead of
    returning empty. *)
Theorem xrealloc_zero_panics r :
  alloc SafeAllocator (Some 4096) 16 init = Ok 4096 raw_state ∧
  realloc SafeAllocator r 4096 0 raw_state = Panic "out of memory" ∧
  (free BasicAllocator 4096 ;; ret NULL) raw_state
  = Ok NULL (set_blocks ∅ (log_call (EvFree 4096) raw_state)).
Proof. split_and!; destruct r; vm_compute; reflexivity. Qed.

Lemma realloc_null_basic r n s :
  realloc BasicAllocator r NULL n s = alloc BasicAllocator r n s.
Proof. reflexivity. Qed.

Lemma realloc_null_debug r n s :
  realloc DebugAllocator r NULL n s = alloc DebugAllocator r n s.
Proof. reflexivity. Qed.

Lemma realloc_null_safe r n s :
  n ≠ 0 → realloc SafeAllocator r NULL n s = alloc SafeAllocator r n s.
Proof.
  intros Hn. simpl. unfold xrealloc, xalloc. by rewrite decide_False by done.
Qed.

(** C7 does not hold of the code.  [xalloc(0)] returns null without calling
    the system allocator; [xrealloc(NULL, 0)] calls it, and panics when the
    answer is null or returns the block when it is not. *)
Theorem xrealloc_null_zero :
  alloc SafeAllocator None 0 init = Ok NULL init ∧
  realloc SafeAllocator None NULL 0 init = Panic "out of memory" ∧
  alloc SafeAllocator (Some 4096) 0 init = Ok NULL init ∧
  realloc SafeAllocator (Some 4096) NULL 0 init
  = Ok 4096 (set_blocks {[ 4096 := 0 ]} (log_call (EvMalloc 0) init)).
Proof. split_and!; vm_compute; reflexivity. Qed.

(** ** The report *)

(** With nothing tracked the report is the single line. *)
Lemma report_no_leaks :
  debugReportLeaks 0 init
  = Ok tt (set_stderr ["No memory leaks detected." +:+ nl] init).
Proof. vm_compute. reflexivity. Qed.

(** C8 does not hold of the code to the letter.  On the end-to-end scenario
    the report is the header, one line for record 2 and the trailer, but the
    line for the record ends in a space before the newline. *)
Theorem report_leak_line_trailing_space :
  run demo_ops init = Ok [1; 2] demo_state ∧
  debugReportLeaks 1 demo_state
  = Ok tt (set_stderr [ "MEMORY LEAKS DETECTED:" +:+ nl;
                        "Leak: allocation 2 leaked 5 bytes " +:+ nl;
                        "Total leaked: 5 bytes" +:+ nl ] demo_state) ∧
  leak_line 2 5 ≠ "Leak: allocation 2 leaked 5 bytes" +:+ nl.
Proof. split_and!; [vm_compute; reflexivity..|]. vm_compute. discriminate. Qed.

(** * Further properties *)

(** ** Reading a successful call backwards *)

Ltac istore Hv :=
  rewrite ?bind_assoc; unfold bind at 1, store_field at 1;
  match goal with
  | |- context [valid_access ?s ?a ?n] => destruct (valid_access s a n) eqn:Hv
  end; [|done]; snorm.
Ltac iload Hv Hm :=
  rewrite ?bind_assoc; unfold bind at 1, load_field at 1;
  match goal with
  | |- context [valid_access ?s ?a ?n] => destruct (valid_access s a n) eqn:Hv
  end; [|done];
  match goal with
  | |- context [match ?m !! ?k with _ => _ end] => destruct (m !! k) eqn:Hm
  end; [|done]; snorm.

(** The same steps, read off a hypothesis. *)
Ltac hload H Hv Hm :=
  let x := fresh "x" in
  let s1 := fresh "s" in
  let H1 := fresh "H" in
  rewrite ?bind_assoc in H;
  apply bind_Ok_inv in H as (x & s1 & H1 & H);
  apply load_field_Ok_inv in H1 as (-> & Hv & Hm); snorm.
Ltac hstore H Hv :=
  let x := fresh "x" in
  let s1 := fresh "s" in
  let H1 := fresh "H" in
  rewrite ?bind_assoc in H;
  apply bind_Ok_inv in H as (x & s1 & H1 & H);
  apply store_field_Ok_inv in H1 as (-> & Hv); snorm.
Ltac hpure H :=
  rewrite ?bind_assoc in H; erewrite bind_Ok in H by reflexivity; snorm.

(** Whatever the state, a [debugAlloc] of a nonzero size that returns has
    asked the system allocator once, for header plus payload, has counted
    the allocation, and has written nowhere but in the new header and in
    the [prev] field of the old head. *)
Lemma debugAlloc_effects r sz s v s' :
  sz ≠ 0 → debugAlloc r sz s = Ok v s' →
  ∃ a, r = Some a ∧ a ≠ NULL ∧ v = a + sizeof_DebugHeader ∧
       blocks s' = <[a := wrap (sizeof_DebugHeader + sz)]> (blocks s) ∧
       calls s' = EvMalloc (wrap (sizeof_DebugHeader + sz)) :: calls s ∧
       stderr s' = stderr s ∧
       debugAllocCount s' = wrap (debugAllocCount s + 1) ∧
       debugBytesAlive s' = wrap (debugBytesAlive s + sz) ∧
       dbgHead s' = a ∧
       ∀ k, ¬ (a ≤ k < a + sizeof_DebugHeader) → k ≠ dbgHead s + off_prev →
            mem s' !! k = mem s !! k.
Proof.
  intros Hnz. unfold debugAlloc. rewrite decide_False by done.
  destruct r as [a|].
  2:{ mpure. unfold checkPtr. by rewrite decide_True by done. }
  mpure. unfold checkPtr. destruct (decide (a = NULL)) as [|Ha]; [done|].
  mpure. mpure. istore Hv1. mpure. istore Hv2. mpure. istore Hv3. istore Hv4.
  mpure.
  destruct (decide (dbgHead s ≠ NULL)).
  - rewrite !bind_assoc. mpure. istore Hv5. mpure. mpure.
    intros H. injection H as <- <-. exists a. snorm. split_and!; try done.
    intros k Hk1 Hk2. rewrite !lookup_insert_ne by (offs; lia). done.
  - mpure. mpure. mpure. intros H. injection H as <- <-. exists a. snorm.
    split_and!; try done.
    intros k Hk1 Hk2. rewrite !lookup_insert_ne by (offs; lia). done.
Qed.

Lemma debugFree_effects ptr s v s' :
  ptr ≠ NULL → ptr - sizeof_DebugHeader ≠ NULL →
  debugFree ptr s = Ok v s' →
  is_Some (blocks s !! (ptr - sizeof_DebugHeader)) ∧
  blocks s' = delete (ptr - sizeof_DebugHeader) (blocks s) ∧
  calls s' = EvFree (ptr - sizeof_DebugHeader) :: calls s ∧
  stderr s' = stderr s ∧ debugAllocCount s' = debugAllocCount s.
Proof.
  intros Hp Hh H.
  apply debugFree_reaches_free in H as (s1 & Ho & _ & H); [|done].
  unfold outside in Ho. injection Ho as Hb Hc Hn He.
  unfold Libc.free in H. rewrite decide_False in H by done. snorm.
  rewrite Hb in H. destruct (blocks s !! _) as [n|] eqn:Hblk; [|done].
  injection H as _ <-. snorm. rewrite ?Hb, ?Hc, ?He, ?Hn. eauto.
Qed.

Lemma free_keeps_cells p s u s' : Libc.free p s = Ok u s' → mem s' = mem s.
Proof.
  unfold Libc.free. destruct (decide _); [by intros [= _ <-]|].
  snorm. destruct (blocks s !! _); [|done]. by intros [= _ <-].
Qed.

(** [debugFree] writes at most two cells: the [next] field of what the
    header names as predecessor and the [prev] field of what it names as
    successor. *)
Lemma debugFree_cells ptr s v s' :
  ptr ≠ NULL → debugFree ptr s = Ok v s' →
  ∃ p n, mem s !! (ptr - sizeof_DebugHeader + off_prev) = Some p ∧
         mem s !! (ptr - sizeof_DebugHeader + off_next) = Some n ∧
         ∀ k, k ≠ p + off_next → k ≠ n + off_prev →
              mem s' !! k = mem s !! k.
Proof.
  intros Hp H. unfold debugFree in H. rewrite decide_False in H by done.
  hload H Hv1 Hp1. rename x into p.
  assert (Hfin : ∀ (m : gmap Z Z) n hd,
    mem s !! (ptr - sizeof_DebugHeader + off_next) = Some n →
    m !! (ptr - sizeof_DebugHeader + off_next) = Some n →
    (∀ k, k ≠ p + off_next → m !! k = mem s !! k) →
    (let* hnext := load_field (ptr - sizeof_DebugHeader) off_next in
     (if decide (hnext ≠ NULL) then
        let* hnext := load_field (ptr - sizeof_DebugHeader) off_next in
        let* hprev := load_field (ptr - sizeof_DebugHeader) off_prev in
        store_field hnext off_prev hprev
      else ret tt) ;;
     let* hsize := load_field (ptr - sizeof_DebugHeader) off_size in
     modify (λ s, set_debugBytesAlive (wrap (debugBytesAlive s - hsize)) s) ;;
     Libc.free (ptr - sizeof_DebugHeader))
      (mkState m (blocks s) hd (debugBytesAlive s) (debugAllocCount s)
               (calls s) (stderr s)) = Ok v s' →
    ∃ p0 n0, mem s !! (ptr - sizeof_DebugHeader + off_prev) = Some p0 ∧
             mem s !! (ptr - sizeof_DebugHeader + off_next) = Some n0 ∧
             ∀ k, k ≠ p0 + off_next → k ≠ n0 + off_prev →
                  mem s' !! k = mem s !! k).
  { intros m n hd Hn Hmn Hm H'.
    hload H' Hv2 Hp2. rewrite Hmn in Hp2. injection Hp2 as <-.
    exists p, n. split_and!; [done|done|]. intros k Hk1 Hk2.
    destruct (decide (n ≠ NULL)) as [Hnn|Hnn].
    - hload H' Hv3 Hp3. hload H' Hv4 Hp4. hstore H' Hv5.
      hload H' Hv6 Hp6. hpure H'. apply free_keeps_cells in H'. snorm.
      rewrite Hmn in Hp3. injection Hp3 as <-.
      rewrite H', lookup_insert_ne by done. by apply Hm.
    - hpure H'. hload H' Hv6 Hp6. hpure H'. apply free_keeps_cells in H'.
      snorm. rewrite H'. by apply Hm. }
  destruct (decide (p ≠ NULL)) as [Hpn|Hpn].
  - hload H Hv2 Hp2. hload H Hv3 Hp3. hstore H Hv4.
    rewrite Hp1 in Hp2. injection Hp2 as <-. rename x0 into n.
    eapply (Hfin _ n); [done| |  |exact H].
    + destruct (decide (p + off_next = ptr - sizeof_DebugHeader + off_next))
        as [->|Hne]; [apply lookup_insert_eq|by rewrite lookup_insert_ne].
    + intros k Hk. by rewrite lookup_insert_ne.
  - hload H Hv2 Hp2. hpure H. rename x into n.
    eapply (Hfin _ n); [done|done| |exact H]. done.
Qed.

Lemma kb_panic {A} msg : keeps (panic (A := A) msg).
Proof. intros s v s' H. discriminate H. Qed.

(** When [debugRealloc] returns for a non-null pointer and a nonzero size,
    the system allocator was asked once, to resize the block at the header
    address, and nothing after that touched the table of blocks or the
    log. *)
Lemma debugRealloc_reaches_realloc r ptr sz s v s' :
  ptr ≠ NULL → sz ≠ 0 → debugRealloc r ptr sz s = Ok v s' →
  ∃ new s2,
    Libc.realloc r (ptr - sizeof_DebugHeader) (wrap (sizeof_DebugHeader + sz)) s
    = Ok new s2 ∧ new ≠ NULL ∧ outside s' = outside s2.
Proof.
  intros Hp Hnz. unfold debugRealloc. rewrite !decide_False by done. intros H.
  apply bind_Ok_inv in H as (oldSize & s1 & H1 & H).
  apply load_field_Ok_inv in H1 as (-> & _ & _).
  apply bind_Ok_inv in H as (new & s2 & H2 & H).
  apply bind_Ok_inv in H as (u & s3 & H3 & H).
  assert (new ≠ NULL ∧ s3 = s2) as [Hnew ->].
  { unfold checkPtr, panic, ret in H3. destruct (decide (new = NULL)); [done|].
    by injection H3 as _ <-. }
  exists new, s2. split_and!; [done|done|].
  revert H. generalize s2 v s'.
  change (keeps
    ((if decide (new ≠ ptr - sizeof_DebugHeader) then
        let* nprev := load_field new off_prev in
        (if decide (nprev ≠ NULL) then
           let* nprev := load_field new off_prev in
           store_field nprev off_next new
         else modify (set_dbgHead new)) ;;
        let* nnext := load_field new off_next in
        (if decide (nnext ≠ NULL) then
           let* nnext := load_field new off_next in
           store_field nnext off_prev new
         else ret tt)
      else ret tt) ;;
     store_field new off_size sz ;;
     modify (λ s, set_debugBytesAlive (wrap (debugBytesAlive s - oldSize)) s) ;;
     modify (λ s, set_debugBytesAlive (wrap (debugBytesAlive s + sz)) s) ;;
     ret (new + sizeof_DebugHeader))).
  kb.
Qed.

(** ** States the debug allocator can be in *)

Lemma reached_repr ops ns s :
  ops_ok ops init → run ops init = Ok ns s → ∃ l, dbg_repr s l.
Proof. apply run_inv, init_inv. Qed.

(** X1.  In every state the debug allocator can be in, [debugAlloc] of a
    nonzero size for which the system allocator hands out a fresh block
    (header plus payload fitting in a [size_t]) returns the address 32
    bytes into that block and puts one record in front of the list: its
    size is the requested one, its number the incremented counter, and the
    records that were there follow unchanged and in the same order.
    [debugBytesAlive] grows by the size, the system allocator has been
    asked once for 32 bytes more than the size, and nothing is printed. *)
Theorem debugAlloc_pushes_front ops ns s fuel l a sz :
  ops_ok ops init → run ops init = Ok ns s →
  walk fuel (mem s) (dbgHead s) = Some l →
  0 < sz → sizeof_DebugHeader + sz < SIZE_MOD →
  fresh_block (blocks s) a (sizeof_DebugHeader + sz) →
  ∃ s', debugAlloc (Some a) sz s = Ok (a + sizeof_DebugHeader) s' ∧
        walk (S fuel) (mem s') (dbgHead s')
        = Some (mkHdr a sz (debugAllocCount s') :: l) ∧
        debugAllocCount s' = wrap (debugAllocCount s + 1) ∧
        debugBytesAlive s' = debugBytesAlive s + sz ∧
        blocks s' = <[a := sizeof_DebugHeader + sz]> (blocks s) ∧
        calls s' = EvMalloc (sizeof_DebugHeader + sz) :: calls s ∧
        stderr s' = stderr s.
Proof.
  intros Hok Hrun Hwalk Hsz Hlt Hfresh.
  destruct (reached_repr _ _ _ Hok Hrun) as [l0 Hrepr].
  pose proof (repr_walk_eq _ _ _ _ Hrepr Hwalk) as ->.
  pose proof (walk_length _ _ _ _ Hwalk) as Hfuel.
  destruct (debugAlloc_spec s l0 a sz Hrepr Hsz Hlt Hfresh)
    as (s' & H & Hr' & Hc & He).
  destruct (debugAlloc_effects (Some a) sz s _ s' ltac:(lia) H)
    as (a' & [= <-] & _ & _ & Hb & Hcl & _ & _ & _ & _).
  rewrite wrap_small in Hb, Hcl by (offs; lia).
  exists s'. split_and!; try done.
  - rewrite Hc. apply repr_walk; [done|]. simpl. lia.
  - rewrite (repr_bytes_exact _ _ Hr'), (repr_bytes_exact _ _ Hrepr),
      sum_sizes_cons. simpl. lia.
Qed.

(** X1 on the state with two records, allocating 7 bytes at 12288. *)
Lemma debugAlloc_pushes_front_witness :
  ops_ok two_allocs init ∧ run two_allocs init = Ok [1; 2] two_state ∧
  walk 2 (mem two_state) (dbgHead two_state)
  = Some [mkHdr 8192 20 2; mkHdr 4096 10 1] ∧
  0 < 7 ∧ sizeof_DebugHeader + 7 < SIZE_MOD ∧
  fresh_block (blocks two_state) 12288 (sizeof_DebugHeader + 7) ∧
  ∃ s', debugAlloc (Some 12288) 7 two_state
        = Ok (12288 + sizeof_DebugHeader) s' ∧
        walk 3 (mem s') (dbgHead s')
        = Some (mkHdr 12288 7 (debugAllocCount s')
                :: [mkHdr 8192 20 2; mkHdr 4096 10 1]) ∧
        debugAllocCount s' = wrap (debugAllocCount two_state + 1) ∧
        debugBytesAlive s' = debugBytesAlive two_state + 7 ∧
        blocks s' = <[12288 := sizeof_DebugHeader + 7]> (blocks two_state) ∧
        calls s' = EvMalloc (sizeof_DebugHeader + 7) :: calls two_state ∧
        stderr s' = stderr two_state.
Proof.
  assert (H1 : ops_ok two_allocs init)
    by (apply (bool_decide_unpack _); vm_compute; exact I).
  assert (H2 : run two_allocs init = Ok [1; 2] two_state)
    by (vm_compute; reflexivity).
  assert (H3 : walk 2 (mem two_state) (dbgHead two_state)
               = Some [mkHdr 8192 20 2; mkHdr 4096 10 1])
    by (vm_compute; reflexivity).
  assert (H4 : 0 < 7) by lia.
  assert (H5 : sizeof_DebugHeader + 7 < SIZE_MOD) by (vm_compute; reflexivity).
  assert (H6 : fresh_block (blocks two_state) 12288 (sizeof_DebugHeader + 7))
    by (apply (bool_decide_unpack _); vm_compute; exact I).
  split; [exact H1|]. split; [exact H2|]. split; [exact H3|].
  split; [exact H4|]. split; [exact H5|]. split; [exact H6|].
  exact (debugAlloc_pushes_front two_allocs [1; 2] two_state 2 _ 12288 7
           H1 H2 H3 H4 H5 H6).
Defined.

(** X2.  In every state the debug allocator can be in, [debugFree] on the
    payload pointer of any record of the list returns and takes exactly
    that record out: the records before it and after it stay, in order.
    [debugBytesAlive] drops by the record's size, [debugAllocCount] stays,
    the block goes back to the system allocator with one [free] of the
    header address, and nothing is printed. *)
Theorem debugFree_unlinks ops ns s fuel l1 rec l2 :
  ops_ok ops init → run ops init = Ok ns s →
  walk fuel (mem s) (dbgHead s) = Some (l1 ++ rec :: l2) →
  ∃ s', debugFree (h_addr rec + sizeof_DebugHeader) s = Ok tt s' ∧
        walk fuel (mem s') (dbgHead s') = Some (l1 ++ l2) ∧
        debugBytesAlive s' = debugBytesAlive s - h_size rec ∧
        debugAllocCount s' = debugAllocCount s ∧
        blocks s' = delete (h_addr rec) (blocks s) ∧
        calls s' = EvFree (h_addr rec) :: calls s ∧
        stderr s' = stderr s.
Proof.
  intros Hok Hrun Hwalk.
  destruct (reached_repr _ _ _ Hok Hrun) as [l0 Hrepr].
  pose proof (repr_walk_eq _ _ _ _ Hrepr Hwalk) as <-.
  pose proof (walk_length _ _ _ _ Hwalk) as Hfuel.
  pose proof (repr_addr_range _ _ rec Hrepr ltac:(solve_elem)) as [Hpos _].
  destruct (debugFree_spec s l1 rec l2 Hrepr) as (s' & H & Hr' & Hc & He).
  destruct (debugFree_effects (h_addr rec + sizeof_DebugHeader) s tt s'
              ltac:(offs; lia) ltac:(offs; lia) H)
    as (_ & Hb & Hcl & _ & _).
  replace (h_addr rec + sizeof_DebugHeader - sizeof_DebugHeader)
    with (h_addr rec) in Hb, Hcl by lia.
  exists s'. split_and!; try done.
  - apply repr_walk; [done|]. rewrite length_app in *. simpl in *. lia.
  - rewrite (repr_bytes_exact _ _ Hr'), (repr_bytes_exact _ _ Hrepr),
      !sum_sizes_app, sum_sizes_cons. lia.
Qed.

(** X2 on the state with two records, freeing the older one. *)
Lemma debugFree_unlinks_witness :
  ops_ok two_allocs init ∧ run two_allocs init = Ok [1; 2] two_state ∧
  walk 2 (mem two_state) (dbgHead two_state)
  = Some ([mkHdr 8192 20 2] ++ mkHdr 4096 10 1 :: []) ∧
  ∃ s', debugFree (4096 + sizeof_DebugHeader) two_state = Ok tt s' ∧
        walk 2 (mem s') (dbgHead s') = Some ([mkHdr 8192 20 2] ++ []) ∧
        debugBytesAlive s' = debugBytesAlive two_state - 10 ∧
        debugAllocCount s' = debugAllocCount two_state ∧
        blocks s' = delete 4096 (blocks two_state) ∧
        calls s' = EvFree 4096 :: calls two_state ∧
        stderr s' = stderr two_state.
Proof.
  assert (H1 : ops_ok two_allocs init)
    by (apply (bool_decide_unpack _); vm_compute; exact I).
  assert (H2 : run two_allocs init = Ok [1; 2] two_state)
    by (vm_compute; reflexivity).
  assert (H3 : walk 2 (mem two_state) (dbgHead two_state)
               = Some ([mkHdr 8192 20 2] ++ mkHdr 4096 10 1 :: []))
    by (vm_compute; reflexivity).
  split; [exact H1|]. split; [exact H2|]. split; [exact H3|].
  exact (debugFree_unlinks two_allocs [1; 2] two_state 2
           [mkHdr 8192 20 2] (mkHdr 4096 10 1) [] H1 H2 H3).
Defined.

(** X3.  After any sequence of [debugAlloc], [debugFree] and
    [debugRealloc] calls that runs to completion from the initial state,
    the records of the list and the blocks held from the system allocator
    correspond one to one: every live block is the block of exactly one
    record, at the record's address and 32 bytes larger than its size, and
    every record has its live block.  No record has size zero or sits at
    the null address. *)
Theorem records_are_live_blocks ops ns s :
  ops_ok ops init → run ops init = Ok ns s →
  ∃ l, walk (length l) (mem s) (dbgHead s) = Some l ∧
       NoDup (h_addr <$> l) ∧
       Forall (λ r, h_addr r ≠ NULL ∧ 0 < h_size r) l ∧
       ∀ a n, blocks s !! a = Some n ↔
              ∃ r, r ∈ l ∧ h_addr r = a ∧ n = sizeof_DebugHeader + h_size r.
Proof.
  intros Hok Hrun.
  destruct (reached_repr _ _ _ Hok Hrun) as [l Hrepr].
  exists l. split_and!.
  - by apply repr_walk.
  - apply (repr_nodup _ _ Hrepr).
  - apply Forall_forall. intros r Hr. split.
    + pose proof (repr_addr_range _ _ _ Hrepr Hr). offs. lia.
    + by eapply repr_size_pos.
  - apply (repr_blocks _ _ Hrepr).
Qed.

(** X3 on the end-to-end scenario. *)
Lemma records_are_live_blocks_witness :
  ops_ok demo_ops init ∧ run demo_ops init = Ok [1; 2] demo_state ∧
  ∃ l, walk (length l) (mem demo_state) (dbgHead demo_state) = Some l ∧
       NoDup (h_addr <$> l) ∧
       Forall (λ r, h_addr r ≠ NULL ∧ 0 < h_size r) l ∧
       ∀ a n, blocks demo_state !! a = Some n ↔
              ∃ r, r ∈ l ∧ h_addr r = a ∧ n = sizeof_DebugHeader + h_size r.
Proof.
  assert (H1 : ops_ok demo_ops init)
    by (apply (bool_decide_unpack _); vm_compute; exact I).
  assert (H2 : run demo_ops init = Ok [1; 2] demo_state)
    by (vm_compute; reflexivity).
  split; [exact H1|]. split; [exact H2|].
  exact (records_are_live_blocks demo_ops [1; 2] demo_state H1 H2).
Defined.

(** ** Legitimate requests are served *)

Lemma alloc_runs s l r sz :
  dbg_repr s l → op_ok s (OpAlloc r sz) → proper s (OpAlloc r sz) →
  ∃ v s', debugAlloc r sz s = Ok v s' ∧ usable s' v.
Proof.
  intros Hrepr [Hsz Hans] Hpr. simpl in Hpr.
  destruct (decide (sz = 0)) as [->|Hnz].
  { exists NULL, s. split; [done|by left]. }
  destruct Hpr as [?|[[a ->] Hlt]]; [done|]. simpl in Hans.
  rewrite wrap_small in Hans by (offs; lia).
  destruct (debugAlloc_spec s l a sz Hrepr ltac:(lia) Hlt Hans)
    as (s' & H & Hr' & _).
  exists (a + sizeof_DebugHeader), s'. split; [done|]. right.
  replace (a + sizeof_DebugHeader - sizeof_DebugHeader) with a by lia.
  pose proof (repr_block _ _ (mkHdr a sz (wrap (debugAllocCount s + 1))) Hr'
                ltac:(left)) as Hb.
  cbn [h_addr] in Hb. by rewrite Hb.
Qed.

Lemma free_runs s l ptr :
  dbg_repr s l → usable s ptr → ∃ s', debugFree ptr s = Ok tt s'.
Proof.
  intros Hrepr [->|[n Hb]]; [by exists s|].
  apply (repr_blocks _ _ Hrepr) in Hb as (r & Hr & Ha & _).
  apply list_elem_of_split in Hr as (l1 & l2 & ->).
  destruct (debugFree_spec s l1 r l2 Hrepr) as (s' & H & _).
  exists s'. by replace ptr with (h_addr r + sizeof_DebugHeader) by lia.
Qed.

Lemma realloc_runs s l r ptr sz :
  dbg_repr s l → op_ok s (OpRealloc r ptr sz) → proper s (OpRealloc r ptr sz) →
  ∃ v s', debugRealloc r ptr sz s = Ok v s' ∧ usable s' v.
Proof.
  intros Hrepr [Hsz Hans] [Hptr Hpr].
  destruct (decide (ptr = NULL)) as [->|Hp].
  { unfold debugRealloc. rewrite decide_True by done.
    by apply (alloc_runs s l). }
  destruct (decide (sz = 0)) as [->|Hnz].
  { destruct (free_runs s l ptr Hrepr Hptr) as (s' & H).
    exists NULL, s'. unfold debugRealloc. rewrite decide_False by done.
    rewrite decide_True by done. unfold bind. rewrite H. split; [done|by left]. }
  destruct Hpr as [?|[[a ->] Hlt]]; [done|]. simpl in Hans.
  destruct Hptr as [?|[n Hb]]; [done|].
  apply (repr_blocks _ _ Hrepr) in Hb as (rec & Hr & Ha & _).
  apply list_elem_of_split in Hr as (l1 & l2 & ->).
  rewrite <- Ha in Hans. rewrite wrap_small in Hans by (offs; lia).
  destruct (debugRealloc_spec s l1 rec l2 a sz Hrepr ltac:(lia) Hlt Hans)
    as (s' & H & Hr' & _).
  exists (a + sizeof_DebugHeader), s'.
  replace ptr with (h_addr rec + sizeof_DebugHeader) by lia.
  split; [done|]. right.
  replace (a + sizeof_DebugHeader - sizeof_DebugHeader) with a by lia.
  pose proof (repr_block _ _ (mkHdr a sz (h_num rec)) Hr'
                ltac:(solve_elem)) as Hb.
  cbn [h_addr] in Hb. by rewrite Hb.
Qed.

(** X4.  Used by the rules the debug allocator never goes wrong: in every
    state it can be in, a [debugAlloc], [debugFree] or [debugRealloc] whose
    pointer argument is null or was handed out and not yet released, and
    for which the system allocator answers with a fresh block (header plus
    payload fitting in a [size_t]), returns; it neither panics nor touches
    memory outside the live blocks.  What it returns is again null or the
    payload pointer of a live block. *)
Theorem proper_use_never_faults ops ns s o :
  ops_ok ops init → run ops init = Ok ns s →
  op_ok s o → proper s o →
  ∃ v s', exec o s = Ok v s' ∧ usable s' v.
Proof.
  intros Hok Hrun Hop Hpr.
  destruct (reached_repr _ _ _ Hok Hrun) as [l Hrepr].
  destruct o as [r sz|ptr|r ptr sz]; simpl exec.
  - by apply (alloc_runs s l).
  - destruct (free_runs s l ptr Hrepr Hpr) as (s' & H).
    exists NULL, s'. unfold bind. rewrite H. split; [done|by left].
  - by apply (realloc_runs s l).
Qed.

(** X4 on the state with two records, growing the older one. *)
Lemma proper_use_never_faults_witness :
  ops_ok two_allocs init ∧ run two_allocs init = Ok [1; 2] two_state ∧
  op_ok two_state (OpRealloc (Some 12288) (4096 + sizeof_DebugHeader) 40) ∧
  proper two_state (OpRealloc (Some 12288) (4096 + sizeof_DebugHeader) 40) ∧
  ∃ v s', exec (OpRealloc (Some 12288) (4096 + sizeof_DebugHeader) 40) two_state
          = Ok v s' ∧ usable s' v.
Proof.
  assert (H1 : ops_ok two_allocs init)
    by (apply (bool_decide_unpack _); vm_compute; exact I).
  assert (H2 : run two_allocs init = Ok [1; 2] two_state)
    by (vm_compute; reflexivity).
  assert (H3 : op_ok two_state
                 (OpRealloc (Some 12288) (4096 + sizeof_DebugHeader) 40))
    by (apply (bool_decide_unpack _); vm_compute; exact I).
  assert (H4 : proper two_state
                 (OpRealloc (Some 12288) (4096 + sizeof_DebugHeader) 40))
    by (apply (bool_decide_unpack _); vm_compute; exact I).
  split; [exact H1|]. split; [exact H2|]. split; [exact H3|]. split; [exact H4|].
  exact (proper_use_never_faults two_allocs [1; 2] two_state _ H1 H2 H3 H4).
Defined.

(** ** The report, for every list *)

(** X5.  In every state the debug allocator can be in, [debugReportLeaks]
    returns and appends to stderr: the single line [No memory leaks
    detected.] when the list is empty; otherwise the line [MEMORY LEAKS
    DETECTED:], then for each record from the head to the tail the line
    [Leak: allocation N leaked S bytes ] (with the space before the
    newline) carrying its number and size, then [Total leaked: B bytes]
    with [B] the value of [debugBytesAlive].  Nothing but stderr changes. *)
Theorem debugReportLeaks_output ops ns s fuel l :
  ops_ok ops init → run ops init = Ok ns s →
  walk fuel (mem s) (dbgHead s) = Some l →
  debugReportLeaks fuel s
  = Ok tt (set_stderr (stderr s ++ report_of l (debugBytesAlive s)) s).
Proof.
  intros Hok Hrun Hwalk.
  destruct (reached_repr _ _ _ Hok Hrun) as [l0 Hrepr].
  pose proof (repr_walk_eq _ _ _ _ Hrepr Hwalk) as ->.
  apply debugReportLeaks_spec; [done|]. by eapply walk_length.
Qed.

(** X5 on the state with two records. *)
Lemma debugReportLeaks_output_witness :
  ops_ok two_allocs init ∧ run two_allocs init = Ok [1; 2] two_state ∧
  walk 2 (mem two_state) (dbgHead two_state)
  = Some [mkHdr 8192 20 2; mkHdr 4096 10 1] ∧
  debugReportLeaks 2 two_state
  = Ok tt (set_stderr
             (stderr two_state
              ++ report_of [mkHdr 8192 20 2; mkHdr 4096 10 1]
                   (debugBytesAlive two_state)) two_state).
Proof.
  assert (H1 : ops_ok two_allocs init)
    by (apply (bool_decide_unpack _); vm_compute; exact I).
  assert (H2 : run two_allocs init = Ok [1; 2] two_state)
    by (vm_compute; reflexivity).
  assert (H3 : walk 2 (mem two_state) (dbgHead two_state)
               = Some [mkHdr 8192 20 2; mkHdr 4096 10 1])
    by (vm_compute; reflexivity).
  split; [exact H1|]. split; [exact H2|]. split; [exact H3|].
  exact (debugReportLeaks_output two_allocs [1; 2] two_state 2 _ H1 H2 H3).
Defined.

Lemma report_loop_appends fuel h s u s' :
  report_loop fuel h s = Ok u s' → ∃ t, stderr s' = stderr s ++ t.
Proof.
  revert h s. induction fuel as [|fuel IH]; intros h s; simpl;
    destruct (decide (h = NULL)).
  - intros [= _ <-]. exists []. by rewrite app_nil_r.
  - done.
  - intros [= _ <-]. exists []. by rewrite app_nil_r.
  - iload Hv1 Hm1. iload Hv2 Hm2. mpure. iload Hv3 Hm3.
    intros H. apply IH in H as [t Ht]. snorm.
    eexists (_ :: t). rewrite Ht. by rewrite <- app_assoc.
Qed.

Lemma repr_nil_blocks s l : dbg_repr s l → (l = [] ↔ blocks s = ∅).
Proof.
  intros Hrepr. split.
  - intros ->. apply map_empty. intros a.
    destruct (blocks s !! a) as [n|] eqn:Hb; [|done].
    apply (repr_blocks _ _ Hrepr) in Hb as (r & Hr & _).
    by apply elem_of_nil in Hr.
  - intros Hb. destruct l as [|r t]; [done|].
    pose proof (repr_block _ _ r Hrepr ltac:(left)) as Hr.
    by rewrite Hb, lookup_empty in Hr.
Qed.

(** X6.  After any sequence of [debugAlloc], [debugFree] and
    [debugRealloc] calls that runs to completion from the initial state,
    the report is the single line [No memory leaks detected.] exactly when
    every block obtained from the system allocator has been given back;
    [debugBytesAlive] is then zero. *)
Theorem report_clean_iff_nothing_live ops ns s fuel :
  ops_ok ops init → run ops init = Ok ns s →
  (debugReportLeaks fuel s = Ok tt (put_stderr no_leaks_line s)
   ↔ blocks s = ∅) ∧
  (blocks s = ∅ → debugBytesAlive s = 0).
Proof.
  intros Hok Hrun.
  destruct (reached_repr _ _ _ Hok Hrun) as [l Hrepr].
  pose proof (repr_nil_blocks _ _ Hrepr) as Hnil.
  split; [split|].
  - intros H. apply Hnil. destruct l as [|r t]; [done|exfalso].
    pose proof (repr_addr_range _ _ r Hrepr ltac:(left)) as [Hpos _].
    revert H. unfold debugReportLeaks. mpure.
    rewrite (repr_head _ _ Hrepr), first_addr_cons.
    rewrite decide_False by (offs; lia). mpure.
    intros H. apply bind_Ok_inv in H as (u & s1 & H1 & H).
    apply report_loop_appends in H1 as [t' Ht]. snorm.
    revert H. mpure. unfold fprintf_stderr, modify, put_stderr.
    intros H.
    apply (f_equal (λ o, match o with Ok _ x => stderr x | _ => [] end)) in H.
    snorm. rewrite Ht in H. rewrite <- !app_assoc in H.
    apply app_inv_head in H. simpl in H. injection H as H _. discriminate H.
  - intros Hb. apply Hnil in Hb as ->.
    rewrite (debugReportLeaks_spec fuel s [] Hrepr) by (simpl; lia).
    done.
  - intros Hb. apply Hnil in Hb as ->.
    by rewrite (repr_bytes_exact _ _ Hrepr).
Qed.

(** X6 after one allocation and its release. *)
Lemma report_clean_iff_nothing_live_witness :
  ops_ok (churns 1) init ∧
  run (churns 1) init = Ok [1] (final_state (churns 1) init) ∧
  (debugReportLeaks 0 (final_state (churns 1) init)
   = Ok tt (put_stderr no_leaks_line (final_state (churns 1) init))
   ↔ blocks (final_state (churns 1) init) = ∅) ∧
  (blocks (final_state (churns 1) init) = ∅ →
   debugBytesAlive (final_state (churns 1) init) = 0).
Proof.
  assert (H1 : ops_ok (churns 1) init)
    by (apply (bool_decide_unpack _); vm_compute; exact I).
  assert (H2 : run (churns 1) init = Ok [1] (final_state (churns 1) init))
    by (vm_compute; reflexivity).
  split; [exact H1|]. split; [exact H2|].
  exact (report_clean_iff_nothing_live (churns 1) [1] _ 0 H1 H2).
Defined.

(** ** Allocating and freeing again *)

(** X7.  In every state the debug allocator can be in, a successful
    [debugAlloc] followed by [debugFree] of the pointer it returned brings
    the bookkeeping back: the same head, the same records in the same
    order, the same [debugBytesAlive] and the same live blocks.  Only
    [debugAllocCount] is one higher, and the system allocator has seen one
    [malloc] and one [free]. *)
Theorem alloc_free_roundtrip ops ns s fuel l a sz :
  ops_ok ops init → run ops init = Ok ns s →
  walk fuel (mem s) (dbgHead s) = Some l →
  0 < sz → sizeof_DebugHeader + sz < SIZE_MOD →
  fresh_block (blocks s) a (sizeof_DebugHeader + sz) →
  ∃ s1 s2,
    debugAlloc (Some a) sz s = Ok (a + sizeof_DebugHeader) s1 ∧
    debugFree (a + sizeof_DebugHeader) s1 = Ok tt s2 ∧
    walk fuel (mem s2) (dbgHead s2) = Some l ∧
    dbgHead s2 = dbgHead s ∧
    debugBytesAlive s2 = debugBytesAlive s ∧
    blocks s2 = blocks s ∧
    debugAllocCount s2 = wrap (debugAllocCount s + 1) ∧
    calls s2 = EvFree a :: EvMalloc (sizeof_DebugHeader + sz) :: calls s.
Proof.
  intros Hok Hrun Hwalk Hsz Hlt Hfresh.
  destruct (reached_repr _ _ _ Hok Hrun) as [l0 Hrepr].
  pose proof (repr_walk_eq _ _ _ _ Hrepr Hwalk) as ->.
  pose proof (walk_length _ _ _ _ Hwalk) as Hfuel.
  pose proof Hfresh as (Ha & _ & Hnone & _).
  destruct (debugAlloc_spec s l0 a sz Hrepr Hsz Hlt Hfresh)
    as (s1 & H1 & Hr1 & Hc1 & _).
  destruct (debugAlloc_effects (Some a) sz s _ s1 ltac:(lia) H1)
    as (a' & [= <-] & _ & _ & Hb1 & Hcl1 & _).
  rewrite wrap_small in Hb1, Hcl1 by (offs; lia).
  destruct (debugFree_spec s1 [] _ l0 Hr1) as (s2 & H2 & Hr2 & Hc2 & _).
  cbn [h_addr app] in H2, Hr2.
  destruct (debugFree_effects (a + sizeof_DebugHeader) s1 tt s2
              ltac:(offs; lia) ltac:(offs; lia) H2) as (_ & Hb2 & Hcl2 & _).
  replace (a + sizeof_DebugHeader - sizeof_DebugHeader) with a in Hb2, Hcl2
    by lia.
  exists s1, s2. split_and!; try done.
  - by apply repr_walk.
  - by rewrite (repr_head _ _ Hr2), (repr_head _ _ Hrepr).
  - by rewrite (repr_bytes_exact _ _ Hr2), (repr_bytes_exact _ _ Hrepr).
  - rewrite Hb2, Hb1, delete_insert_eq. by apply delete_id.
  - by rewrite Hc2.
  - by rewrite Hcl2, Hcl1.
Qed.

(** X7 on the state with two records. *)
Lemma alloc_free_roundtrip_witness :
  ops_ok two_allocs init ∧ run two_allocs init = Ok [1; 2] two_state ∧
  walk 2 (mem two_state) (dbgHead two_state)
  = Some [mkHdr 8192 20 2; mkHdr 4096 10 1] ∧
  0 < 7 ∧ sizeof_DebugHeader + 7 < SIZE_MOD ∧
  fresh_block (blocks two_state) 12288 (sizeof_DebugHeader + 7) ∧
  ∃ s1 s2,
    debugAlloc (Some 12288) 7 two_state = Ok (12288 + sizeof_DebugHeader) s1 ∧
    debugFree (12288 + sizeof_DebugHeader) s1 = Ok tt s2 ∧
    walk 2 (mem s2) (dbgHead s2) = Some [mkHdr 8192 20 2; mkHdr 4096 10 1] ∧
    dbgHead s2 = dbgHead two_state ∧
    debugBytesAlive s2 = debugBytesAlive two_state ∧
    blocks s2 = blocks two_state ∧
    debugAllocCount s2 = wrap (debugAllocCount two_state + 1) ∧
    calls s2 = EvFree 12288 :: EvMalloc (sizeof_DebugHeader + 7)
               :: calls two_state.
Proof.
  assert (H1 : ops_ok two_allocs init)
    by (apply (bool_decide_unpack _); vm_compute; exact I).
  assert (H2 : run two_allocs init = Ok [1; 2] two_state)
    by (vm_compute; reflexivity).
  assert (H3 : walk 2 (mem two_state) (dbgHead two_state)
               = Some [mkHdr 8192 20 2; mkHdr 4096 10 1])
    by (vm_compute; reflexivity).
  assert (H4 : 0 < 7) by lia.
  assert (H5 : sizeof_DebugHeader + 7 < SIZE_MOD) by (vm_compute; reflexivity).
  assert (H6 : fresh_block (blocks two_state) 12288 (sizeof_DebugHeader + 7))
    by (apply (bool_decide_unpack _); vm_compute; exact I).
  split; [exact H1|]. split; [exact H2|]. split; [exact H3|].
  split; [exact H4|]. split; [exact H5|]. split; [exact H6|].
  exact (alloc_free_roundtrip two_allocs [1; 2] two_state 2 _ 12288 7
           H1 H2 H3 H4 H5 H6).
Defined.

(** ** Freeing twice *)

(** Once a record is gone, no live block holds its header. *)
Lemma freed_header_invalid s l1 rec l2 s' :
  dbg_repr s (l1 ++ rec :: l2) → dbg_repr s' (l1 ++ l2) →
  valid_access s' (h_addr rec) sizeof_DebugHeader = false.
Proof.
  intros Hrepr Hr'. apply bool_decide_eq_false. rewrite map_Exists_lookup.
  intros (b & m & Hb & H1 & H2).
  apply (repr_blocks _ _ Hr') in Hb as (x & Hx & <- & ->).
  pose proof (repr_block _ _ x Hrepr ltac:(solve_elem)) as Hbx.
  pose proof (repr_block _ _ rec Hrepr ltac:(solve_elem)) as Hbr.
  pose proof (repr_size_pos _ _ rec Hrepr ltac:(solve_elem)) as Hsz.
  pose proof (repr_split_far _ _ _ _ x Hrepr Hx) as Hfar.
  destruct (heap_disjoint _ (repr_heap _ _ Hrepr) _ _ _ _ Hbx Hbr);
    offs; lia.
Qed.

(** X8.  [debugFree] does not detect a second release.  In every state the
    debug allocator can be in, after [debugFree] of a tracked pointer has
    returned, [debugFree] of the same pointer reads [h->prev] from a header
    that lies in no live block any more: undefined behaviour. *)
Theorem double_free_is_undefined ops ns s fuel l1 rec l2 :
  ops_ok ops init → run ops init = Ok ns s →
  walk fuel (mem s) (dbgHead s) = Some (l1 ++ rec :: l2) →
  ∃ s', debugFree (h_addr rec + sizeof_DebugHeader) s = Ok tt s' ∧
        valid_access s' (h_addr rec) sizeof_DebugHeader = false ∧
        debugFree (h_addr rec + sizeof_DebugHeader) s' = Fault.
Proof.
  intros Hok Hrun Hwalk.
  destruct (reached_repr _ _ _ Hok Hrun) as [l0 Hrepr].
  pose proof (repr_walk_eq _ _ _ _ Hrepr Hwalk) as <-.
  pose proof (repr_addr_range _ _ rec Hrepr ltac:(solve_elem)) as [Hpos _].
  destruct (debugFree_spec s l1 rec l2 Hrepr) as (s' & H & Hr' & _).
  pose proof (freed_header_invalid _ _ _ _ _ Hrepr Hr') as Hv.
  exists s'. split_and!; [done|done|].
  apply (xfree_outside_faults (h_addr rec + sizeof_DebugHeader) s').
  - offs. lia.
  - by replace (h_addr rec + sizeof_DebugHeader - sizeof_DebugHeader)
      with (h_addr rec) by lia.
Qed.

(** X8 on the state with two records, freeing the older one twice. *)
Lemma double_free_is_undefined_witness :
  ops_ok two_allocs init ∧ run two_allocs init = Ok [1; 2] two_state ∧
  walk 2 (mem two_state) (dbgHead two_state)
  = Some ([mkHdr 8192 20 2] ++ mkHdr 4096 10 1 :: []) ∧
  ∃ s', debugFree (4096 + sizeof_DebugHeader) two_state = Ok tt s' ∧
        valid_access s' 4096 sizeof_DebugHeader = false ∧
        debugFree (4096 + sizeof_DebugHeader) s' = Fault.
Proof.
  assert (H1 : ops_ok two_allocs init)
    by (apply (bool_decide_unpack _); vm_compute; exact I).
  assert (H2 : run two_allocs init = Ok [1; 2] two_state)
    by (vm_compute; reflexivity).
  assert (H3 : walk 2 (mem two_state) (dbgHead two_state)
               = Some ([mkHdr 8192 20 2] ++ mkHdr 4096 10 1 :: []))
    by (vm_compute; reflexivity).
  split; [exact H1|]. split; [exact H2|]. split; [exact H3|].
  exact (double_free_is_undefined two_allocs [1; 2] two_state 2
           [mkHdr 8192 20 2] (mkHdr 4096 10 1) [] H1 H2 H3).
Defined.

(** ** What xstrdup writes *)

Lemma write_chars_other cs m a k :
  ¬ (a ≤ k < a + Z.of_nat (length cs)) → write_chars m a cs !! k = m !! k.
Proof.
  revert m a. induction cs as [|c cs IH]; intros m a Hk; simpl; [done|].
  simpl length in Hk. rewrite IH by lia. apply lookup_insert_ne. lia.
Qed.

Lemma write_chars_lookup cs m a i c :
  cs !! i = Some c → write_chars m a cs !! (a + Z.of_nat i) = Some c.
Proof.
  revert m a i. induction cs as [|c0 cs IH]; intros m a i Hi; [done|].
  destruct i as [|i]; cbn [write_chars].
  - injection Hi as ->. rewrite write_chars_other by lia.
    change (Z.of_nat 0) with 0. rewrite Z.add_0_r. apply lookup_insert_eq.
  - rewrite Nat2Z.inj_succ.
    replace (a + Z.succ (Z.of_nat i)) with (a + 1 + Z.of_nat i) by lia.
    by apply IH.
Qed.

Lemma copy_loop_run cs dup i s :
  (∀ k, dup + i ≤ k < dup + i + Z.of_nat (length cs) →
        valid_access s k 1 = true) →
  copy_loop dup i cs s
  = Ok tt (if cs is [] then s else set_mem (write_chars (mem s) (dup + i) cs) s).
Proof.
  revert i s. induction cs as [|c cs IH]; intros i s Hv; [done|].
  simpl length in Hv. simpl. unfold bind at 1, store_char.
  rewrite Hv by lia.
  rewrite IH.
  2:{ intros k Hk. rewrite (valid_access_blocks s) by done. apply Hv. lia. }
  snorm. rewrite Z.add_assoc. by destruct cs.
Qed.

Lemma valid_access_byte s a n k :
  valid_access s a n = true → a ≤ k < a + n → valid_access s k 1 = true.
Proof.
  intros (b & m & Hb & H1 & H2)%valid_access_inv Hk.
  apply (valid_access_true s _ _ b m); [done|lia|lia].
Qed.

(** X9.  Through any allocator: when the allocation inside [xstrdup]
    returns a buffer of [strlen(s) + 1] bytes that lies in one live block,
    [xstrdup] returns that buffer holding the characters of [s] in order
    and a terminating NUL after them.  It writes nowhere else, and apart
    from those cells the state is the one the allocation left. *)
Theorem xstrdup_copies_string A r str s dup s0 :
  alloc A r (wrap (strlen str + 1)) s = Ok dup s0 →
  valid_access s0 dup (strlen str + 1) = true →
  ∃ s1, xstrdup A r (Some str) s = Ok dup s1 ∧
        (∀ i c, c_chars str !! i = Some c →
                mem s1 !! (dup + Z.of_nat i) = Some c) ∧
        mem s1 !! (dup + strlen str) = Some 0 ∧
        (∀ k, ¬ (dup ≤ k ≤ dup + strlen str) → mem s1 !! k = mem s0 !! k) ∧
        s1 = set_mem (mem s1) s0.
Proof.
  intros Halloc Hv. unfold xstrdup. rewrite (bind_Ok _ _ _ _ _ Halloc).
  unfold strlen in *. set (cs := c_chars str) in *.
  erewrite bind_Ok.
  2:{ apply copy_loop_run. intros k Hk. apply (valid_access_byte _ _ _ _ Hv). lia. }
  set (m1 := write_chars (mem s0) (dup + 0) cs).
  assert (Hs1 : (if cs is [] then s0 else set_mem m1 s0) = set_mem m1 s0).
  { destruct cs; [|done]. subst m1. simpl. by destruct s0. }
  rewrite Hs1. unfold bind at 1, store_char.
  rewrite (valid_access_blocks s0) by done.
  rewrite (valid_access_byte _ _ _ _ Hv) by lia.
  eexists. split; [reflexivity|]. snorm. split_and!.
  - intros i c Hi. pose proof (lookup_lt_Some _ _ _ Hi) as Hlt.
    rewrite lookup_insert_ne by lia. subst m1.
    rewrite Z.add_0_r. by apply write_chars_lookup.
  - apply lookup_insert_eq.
  - intros k Hk. rewrite lookup_insert_ne by lia. subst m1.
    apply write_chars_other. lia.
  - done.
Qed.

(** X9 on the end-to-end scenario, duplicating a four-letter string through
    the debug allocator. *)
Lemma xstrdup_copies_string_witness :
  alloc DebugAllocator (Some 20480) (wrap (strlen "leak" + 1)) demo_state
  = Ok (20480 + sizeof_DebugHeader)
       (after (alloc DebugAllocator (Some 20480) (wrap (strlen "leak" + 1)))
              demo_state) ∧
  valid_access
    (after (alloc DebugAllocator (Some 20480) (wrap (strlen "leak" + 1)))
           demo_state)
    (20480 + sizeof_DebugHeader) (strlen "leak" + 1) = true ∧
  ∃ s1, xstrdup DebugAllocator (Some 20480) (Some "leak") demo_state
        = Ok (20480 + sizeof_DebugHeader) s1 ∧
        (∀ i c, c_chars "leak" !! i = Some c →
                mem s1 !! (20480 + sizeof_DebugHeader + Z.of_nat i) = Some c) ∧
        mem s1 !! (20480 + sizeof_DebugHeader + strlen "leak") = Some 0 ∧
        (∀ k, ¬ (20480 + sizeof_DebugHeader ≤ k
                 ≤ 20480 + sizeof_DebugHeader + strlen "leak") →
              mem s1 !! k
              = mem (after (alloc DebugAllocator (Some 20480)
                              (wrap (strlen "leak" + 1))) demo_state) !! k) ∧
        s1 = set_mem (mem s1)
               (after (alloc DebugAllocator (Some 20480)
                         (wrap (strlen "leak" + 1))) demo_state).
Proof.
  assert (H1 : alloc DebugAllocator (Some 20480) (wrap (strlen "leak" + 1))
                 demo_state
               = Ok (20480 + sizeof_DebugHeader)
                    (after (alloc DebugAllocator (Some 20480)
                              (wrap (strlen "leak" + 1))) demo_state))
    by (vm_compute; reflexivity).
  assert (H2 : valid_access
                 (after (alloc DebugAllocator (Some 20480)
                           (wrap (strlen "leak" + 1))) demo_state)
                 (20480 + sizeof_DebugHeader) (strlen "leak" + 1) = true)
    by (vm_compute; reflexivity).
  split; [exact H1|]. split; [exact H2|].
  exact (xstrdup_copies_string DebugAllocator (Some 20480) "leak" demo_state
           _ _ H1 H2).
Defined.

(** X10.  [xstrdup] does not look at what the allocation returned.  When
    the system allocator fails, [xstrdup] through [SafeAllocator] or
    [DebugAllocator] ends in the [out of memory] panic of the allocation;
    through [BasicAllocator] the allocation returns null and [xstrdup]
    writes the first character (or the terminator, for an empty string)
    through the null pointer: undefined behaviour. *)
Theorem xstrdup_allocation_failure str s :
  strlen str + 1 < SIZE_MOD → valid_access s NULL 1 = false →
  xstrdup SafeAllocator None (Some str) s = Panic "out of memory" ∧
  xstrdup DebugAllocator None (Some str) s = Panic "out of memory" ∧
  xstrdup BasicAllocator None (Some str) s = Fault.
Proof.
  intros Hlt Hv. pose proof (strlen_nonneg str) as Hnn.
  assert (wrap (strlen str + 1) ≠ 0) as Hnz by (rewrite wrap_small; lia).
  split_and!.
  - unfold xstrdup. simpl alloc. unfold xalloc.
    rewrite decide_False by done. done.
  - unfold xstrdup. simpl alloc. unfold debugAlloc.
    rewrite decide_False by done. done.
  - unfold xstrdup. simpl alloc. unfold bind at 1. simpl.
    unfold strlen. destruct (c_chars str) as [|c cs]; simpl.
    + unfold bind, ret, store_char. simpl.
      rewrite (valid_access_blocks s) by done.
      change (NULL + Z.of_nat 0) with NULL. by rewrite Hv.
    + unfold bind at 1. unfold bind at 1, store_char.
      rewrite (valid_access_blocks s) by done.
      change (NULL + 0) with NULL. by rewrite Hv.
Qed.

(** X10 on the end-to-end scenario. *)
Lemma xstrdup_allocation_failure_witness :
  strlen "leak" + 1 < SIZE_MOD ∧ valid_access demo_state NULL 1 = false ∧
  xstrdup SafeAllocator None (Some "leak") demo_state = Panic "out of memory" ∧
  xstrdup DebugAllocator None (Some "leak") demo_state = Panic "out of memory" ∧
  xstrdup BasicAllocator None (Some "leak") demo_state = Fault.
Proof.
  assert (H1 : strlen "leak" + 1 < SIZE_MOD) by (vm_compute; reflexivity).
  assert (H2 : valid_access demo_state NULL 1 = false)
    by (vm_compute; reflexivity).
  split; [exact H1|]. split; [exact H2|].
  exact (xstrdup_allocation_failure "leak" demo_state H1 H2).
Defined.

(** ** Failing fast *)

(** X11.  For a nonzero size, [xalloc] and [xrealloc] never return null:
    whenever one of them returns, the result is the non-null block the
    system allocator answered with and the state is the one [malloc] or
    [realloc] left.  When the system allocator fails, [xalloc] panics with
    [out of memory], and so does [xrealloc] on a null pointer or a live
    block. *)
Theorem safe_allocator_fail_fast r ptr sz s :
  sz ≠ 0 →
  (∀ v s', alloc SafeAllocator r sz s = Ok v s' →
           v ≠ NULL ∧ r = Some v ∧ Libc.malloc r sz s = Ok v s') ∧
  (∀ v s', realloc SafeAllocator r ptr sz s = Ok v s' →
           v ≠ NULL ∧ r = Some v ∧ Libc.realloc r ptr sz s = Ok v s') ∧
  alloc SafeAllocator None sz s = Panic "out of memory" ∧
  (ptr = NULL ∨ is_Some (blocks s !! ptr) →
   realloc SafeAllocator None ptr sz s = Panic "out of memory").
Proof.
  intros Hnz. simpl. unfold xalloc, xrealloc. rewrite !decide_False by done.
  split_and!.
  - intros v s'. unfold bind at 1.
    destruct r as [a|]; simpl; unfold checkPtr; [|done].
    unfold bind. destruct (decide (a = NULL)); [done|]. by intros [= <- <-].
  - intros v s'. unfold bind at 1.
    destruct (Libc.realloc r ptr sz s) as [w s1| | |] eqn:Hr; try done.
    unfold bind, checkPtr. destruct (decide (w = NULL)) as [|Hw]; [done|].
    intros [= <- <-]. split_and!; [done| |done].
    revert Hr. unfold Libc.realloc, Libc.malloc.
    destruct (decide (ptr = NULL)).
    + destruct r; [by intros [= ->]|by intros [= <-]].
    + rewrite decide_False by done.
      destruct (blocks s !! ptr); [|done].
      destruct r; [by intros [= ->]|by intros [= <-]].
  - done.
  - intros [->|[m Hb]].
    + done.
    + unfold bind at 1, Libc.realloc.
      destruct (decide (ptr = NULL)); [done|].
      rewrite decide_False by done. by rewrite Hb.
Qed.

(** X11 after one [xalloc(16)], asking for 16 bytes more. *)
Lemma safe_allocator_fail_fast_witness :
  16 ≠ 0 ∧
  (∀ v s', alloc SafeAllocator (Some 8192) 16 raw_state = Ok v s' →
           v ≠ NULL ∧ Some 8192 = Some v
           ∧ Libc.malloc (Some 8192) 16 raw_state = Ok v s') ∧
  (∀ v s', realloc SafeAllocator (Some 8192) 4096 16 raw_state = Ok v s' →
           v ≠ NULL ∧ Some 8192 = Some v
           ∧ Libc.realloc (Some 8192) 4096 16 raw_state = Ok v s') ∧
  alloc SafeAllocator None 16 raw_state = Panic "out of memory" ∧
  (4096 = NULL ∨ is_Some (blocks raw_state !! 4096) →
   realloc SafeAllocator None 4096 16 raw_state = Panic "out of memory").
Proof.
  assert (H1 : 16 ≠ 0) by lia.
  split; [exact H1|].
  exact (safe_allocator_fail_fast (Some 8192) 4096 16 raw_state H1).
Defined.



(** ** A size that does not fit *)



(** ** Newest first *)

Lemma StronglySorted_sublist {A} (R : relation A) (l1 l2 : list A) :
  sublist l1 l2 → StronglySorted R l2 → StronglySorted R l1.
Proof.
  induction 1 as [|x l1 l2 Hsub IH|x l1 l2 Hsub IH]; intros Hs.
  - constructor.
  - apply StronglySorted_inv in Hs as [Hs Hall]. constructor; [by apply IH|].
    rewrite Forall_forall in *. intros y Hy. apply Hall.
    by eapply elem_of_sublist.
  - apply StronglySorted_inv in Hs as [Hs _]. by apply IH.
Qed.

Lemma nums_remove_sub (l1 l2 : list hdr) r :
  sublist (h_num <$> l1 ++ l2) (h_num <$> l1 ++ r :: l2).
Proof.
  rewrite !fmap_app, fmap_cons. apply sublist_app; [done|].
  by apply sublist_cons.
Qed.

(** What one operation does to the numbers in the list, order included. *)
Lemma exec_step_sub s l o v s' :
  dbg_repr s l → op_ok s o → exec o s = Ok v s' →
  (creates o && bool_decide (v ≠ NULL) = true ∧
   ∃ sz, dbg_repr s' (mkHdr (v - sizeof_DebugHeader) sz
                            (wrap (debugAllocCount s + 1)) :: l) ∧
         debugAllocCount s' = wrap (debugAllocCount s + 1)) ∨
  (creates o && bool_decide (v ≠ NULL) = false ∧
   debugAllocCount s' = debugAllocCount s ∧
   ∃ l', dbg_repr s' l' ∧ sublist (h_num <$> l') (h_num <$> l)).
Proof.
  intros Hrepr Hok H.
  assert (Halloc : ∀ r sz, 0 ≤ sz < SIZE_MOD →
    answer_ok (blocks s) r (wrap (sizeof_DebugHeader + sz)) →
    debugAlloc r sz s = Ok v s' →
    (bool_decide (v ≠ NULL) = true ∧
     ∃ sz, dbg_repr s' (mkHdr (v - sizeof_DebugHeader) sz
                              (wrap (debugAllocCount s + 1)) :: l) ∧
           debugAllocCount s' = wrap (debugAllocCount s + 1)) ∨
    (bool_decide (v ≠ NULL) = false ∧
     debugAllocCount s' = debugAllocCount s ∧
     ∃ l', dbg_repr s' l' ∧ sublist (h_num <$> l') (h_num <$> l))).
  { intros r sz Hsz Hans Hrun.
    destruct (debugAlloc_Ok_inv _ _ _ _ _ _ Hrepr Hsz Hans Hrun)
      as [(-> & -> & ->)|(a & -> & -> & Hpos & Hlt & Hr & Hc & _)].
    - right. split; [by apply bool_decide_eq_false; intros ?|].
      split; [done|]. by exists l.
    - left. destruct Hans as (Ha & _). split.
      + apply bool_decide_eq_true. offs. lia.
      + exists sz. by replace (a + sizeof_DebugHeader - sizeof_DebugHeader) with a by lia. }
  destruct o as [r sz|ptr|r ptr sz]; simpl in *.
  - destruct Hok as [Hsz Hans]. by apply Halloc in H.
  - right. split; [done|].
    apply bind_Ok_inv in H as (u & s1 & H & Hret). injection Hret as _ <-.
    destruct (debugFree_tracked _ _ _ _ _ Hrepr H)
      as [(-> & ->)|(l1 & r & l2 & -> & ->)].
    + split; [done|]. by exists l.
    + destruct (debugFree_spec _ _ _ _ Hrepr) as (s'' & Hrun & Hr & Hc & _).
      rewrite Hrun in H. simplify_eq. split; [done|].
      exists (l1 ++ l2). split; [done|]. apply nums_remove_sub.
  - destruct Hok as [Hsz Hans].
    destruct (decide (ptr = NULL)) as [->|Hp].
    + rewrite bool_decide_eq_true_2 by done. simpl.
      unfold debugRealloc in H. rewrite decide_True in H by done.
      by apply Halloc in H.
    + rewrite bool_decide_eq_false_2 by done. simpl. right. split; [done|].
      destruct (decide (sz = 0)) as [->|Hnz].
      * unfold debugRealloc in H. rewrite decide_False, decide_True in H by done.
        apply bind_Ok_inv in H as (u & s1 & H & Hret). injection Hret as _ <-.
        destruct (debugFree_tracked _ _ _ _ _ Hrepr H)
          as [(-> & ->)|(l1 & r0 & l2 & -> & ->)]; [done|].
        destruct (debugFree_spec _ _ _ _ Hrepr) as (s'' & Hrun & Hr & Hc & _).
        rewrite Hrun in H. simplify_eq. split; [done|].
        exists (l1 ++ l2). split; [done|]. apply nums_remove_sub.
      * destruct (debugRealloc_Ok_inv _ _ _ _ _ _ _ Hrepr Hp Hnz Hsz Hans H)
          as (a & l1 & rec & l2 & -> & -> & -> & -> & Hlt & Hr & Hc & _).
        split; [done|]. eexists. split; [exact Hr|].
        rewrite !fmap_app, !fmap_cons. done.
Qed.

Lemma run_newest_first ops s l ns s' :
  dbg_repr s l →
  StronglySorted (λ x y, y < x) (h_num <$> l) →
  Forall (λ n, 1 ≤ n ≤ debugAllocCount s) (h_num <$> l) →
  ops_ok ops s → run ops s = Ok ns s' →
  debugAllocCount s + Z.of_nat (length ns) < SIZE_MOD →
  ∃ l', dbg_repr s' l' ∧
        StronglySorted (λ x y, y < x) (h_num <$> l') ∧
        Forall (λ n, 1 ≤ n ≤ debugAllocCount s') (h_num <$> l').
Proof.
  revert s l ns. induction ops as [|o ops IH]; intros s l ns Hrepr Hs Hall Hok H Hlt.
  - injection H as <- <-. by exists l.
  - apply run_cons_inv in H as (v & s1 & ns' & He & Hr & ->).
    simpl in Hok. rewrite He in Hok. destruct Hok as [Ho Hok].
    pose proof (repr_count _ _ Hrepr) as Hcnt.
    destruct (exec_step_sub _ _ _ _ _ Hrepr Ho He)
      as [(Hc & sz & Hr1 & Hc1)|(Hc & Hc1 & l' & Hr1 & Hsub)].
    + rewrite (assigned_created _ _ _ _ _ _ Hc Hr1) in Hlt.
      simpl length in Hlt. rewrite wrap_small in Hc1, Hr1 by lia.
      eapply (IH s1); [exact Hr1| | |done|done|lia].
      * rewrite fmap_cons. constructor; [done|]. simpl.
        eapply Forall_impl; [exact Hall|]. simpl. lia.
      * rewrite fmap_cons. constructor; [simpl; lia|].
        eapply Forall_impl; [exact Hall|]. simpl. lia.
    + rewrite (assigned_none _ _ _ Hc) in Hlt. simpl in Hlt.
      eapply (IH s1); [exact Hr1| | |done|done|lia].
      * by eapply StronglySorted_sublist.
      * rewrite Hc1. rewrite Forall_forall in *. intros y Hy. apply Hall.
        by eapply elem_of_sublist.
Qed.

(** X14.  As long as fewer than [2^64] records have been created, the list
    is ordered newest first: following [next] from [dbgHead], the
    allocation numbers strictly decrease, frees and resizes in between
    notwithstanding (a resized record keeps its place), and every number
    lies between 1 and [debugAllocCount].  The leak report, which walks
    the list from the head, therefore lists the most recent allocation
    first. *)
Theorem records_newest_first ops ns s :
  ops_ok ops init → run ops init = Ok ns s →
  Z.of_nat (length ns) < SIZE_MOD →
  ∃ l, walk (length l) (mem s) (dbgHead s) = Some l ∧
       StronglySorted (λ x y, y < x) (h_num <$> l) ∧
       Forall (λ n, 1 ≤ n ≤ debugAllocCount s) (h_num <$> l).
Proof.
  intros Hok Hrun Hlt.
  destruct (run_newest_first ops init [] ns s init_repr) as (l & Hr & Hs & Hall);
    [constructor|constructor|done|done|simpl; lia|].
  exists l. split; [by apply repr_walk|done].
Qed.

(** X14 on the state with two records. *)
Lemma records_newest_first_witness :
  ops_ok two_allocs init ∧ run two_allocs init = Ok [1; 2] two_state ∧
  Z.of_nat (length [1; 2]) < SIZE_MOD ∧
  ∃ l, walk (length l) (mem two_state) (dbgHead two_state) = Some l ∧
       StronglySorted (λ x y, y < x) (h_num <$> l) ∧
       Forall (λ n, 1 ≤ n ≤ debugAllocCount two_state) (h_num <$> l).
Proof.
  assert (H1 : ops_ok two_allocs init)
    by (apply (bool_decide_unpack _); vm_compute; exact I).
  assert (H2 : run two_allocs init = Ok [1; 2] two_state)
    by (vm_compute; reflexivity).
  assert (H3 : Z.of_nat (length [1; 2]) < SIZE_MOD) by (vm_compute; reflexivity).
  split; [exact H1|]. split; [exact H2|]. split; [exact H3|].
  exact (records_newest_first two_allocs [1; 2] two_state H1 H2 H3).
Defined.

(** ** The payload travels with the block *)

(** The neighbours of the resized record have their headers outside the
    new block. *)
Lemma resize_neighbours_outside s l1 r l2 a sz off :
  dbg_repr s (l1 ++ r :: l2) →
  fresh_block (delete (h_addr r) (blocks s)) a (sizeof_DebugHeader + sz) →
  0 ≤ off < sizeof_DebugHeader →
  (last_addr l1 NULL ≠ NULL →
   ¬ (a ≤ last_addr l1 NULL + off < a + (sizeof_DebugHeader + sz))) ∧
  (first_addr l2 NULL ≠ NULL →
   ¬ (a ≤ first_addr l2 NULL + off < a + (sizeof_DebugHeader + sz))).
Proof.
  intros Hrepr Hfresh Hoff. split.
  - destruct (list_snoc_case l1) as [->|(l1' & q & ->)]; [done|].
    rewrite last_addr_snoc. intros _.
    apply (resize_outside s _ r l2 a sz q off Hrepr Hfresh); [solve_elem|done].
  - destruct l2 as [|q l2']; [done|]. rewrite first_addr_cons. intros _.
    apply (resize_outside s l1 r _ a sz q off Hrepr Hfresh); [solve_elem|done].
Qed.

(** What the link repairs and the new size overwrite lies in headers: three
    cells at most, after the system allocator has moved the block. *)
Lemma debugRealloc_cells s l1 rec l2 a sz v s' k :
  dbg_repr s (l1 ++ rec :: l2) →
  0 < sz → sizeof_DebugHeader + sz < SIZE_MOD →
  fresh_block (delete (h_addr rec) (blocks s)) a (sizeof_DebugHeader + sz) →
  debugRealloc (Some a) (h_addr rec + sizeof_DebugHeader) sz s = Ok v s' →
  k ≠ a + off_size →
  k ≠ last_addr l1 NULL + off_next → k ≠ first_addr l2 NULL + off_prev →
  mem s' !! k
  = (if decide (a = h_addr rec) then mem s
     else move_cells (mem s) (h_addr rec) a
            (Z.min (sizeof_DebugHeader + h_size rec)
                   (sizeof_DebugHeader + sz))) !! k.
Proof.
  intros Hrepr Hsz Hlt Hfresh H Hk0 Hk1 Hk2. revert H.
  pose proof (repr_addr_range _ _ rec Hrepr ltac:(solve_elem)) as [Hrpos _].
  pose proof (repr_size_pos _ _ rec Hrepr ltac:(solve_elem)) as Hrsz.
  pose proof (repr_cells _ _ Hrepr) as Hcells.
  apply dll_seg_app in Hcells as [_ (Hsize & _ & Hnx & Hpv & _)].
  pose proof Hfresh as (Ha & _).
  pose proof (resize_neighbours_outside s l1 rec l2 a sz off_next Hrepr
                Hfresh ltac:(by offs)) as [Hout1 _].
  unfold debugRealloc. rewrite decide_False by (offs; lia).
  rewrite decide_False by lia.
  replace (h_addr rec + sizeof_DebugHeader - sizeof_DebugHeader)
    with (h_addr rec) by lia.
  rewrite wrap_small by (offs; lia).
  mloadv Hrepr.
  erewrite bind_Ok.
  2:{ unfold Libc.realloc. rewrite decide_False by (offs; lia).
      rewrite decide_False by (offs; lia).
      rewrite (repr_block _ _ rec Hrepr) by solve_elem. snorm. reflexivity. }
  unfold checkPtr. rewrite (decide_False (P := a = NULL)) by (offs; lia).
  mpure.
  destruct (decide (a = h_addr rec)) as [Heq|Hne].
  - (* resized in place *)
    rewrite decide_False by (intros Hx; by apply Hx).
    mpure. intros H. hstore H Hv0. hpure H. hpure H.
    injection H as _ <-. snorm. by rewrite lookup_insert_ne.
  - (* moved *)
    rewrite decide_True by done.
    set (m1 := move_cells _ _ _ _).
    assert (Hm1p : m1 !! (a + off_prev) = Some (last_addr l1 NULL)).
    { subst m1. rewrite move_cells_dst by (offs; lia).
      by replace (a + off_prev - a + h_addr rec) with (h_addr rec + off_prev) by lia. }
    assert (Hm1n : m1 !! (a + off_next) = Some (first_addr l2 NULL)).
    { subst m1. rewrite move_cells_dst by (offs; lia).
      by replace (a + off_next - a + h_addr rec) with (h_addr rec + off_next) by lia. }
    clearbody m1. intros H.
    hload H Hv1 Hp1. rewrite Hm1p in Hp1. injection Hp1 as <-.
    assert (Hrest : ∀ (m : gmap Z Z) hd,
      m !! (a + off_next) = Some (first_addr l2 NULL) →
      (∀ x, x ≠ last_addr l1 NULL + off_next → m !! x = m1 !! x) →
      (let* nnext := load_field a off_next in
       (if decide (nnext ≠ NULL) then
          let* nnext := load_field a off_next in
          store_field nnext off_prev a
        else ret tt) ;;
       store_field a off_size sz ;;
       modify (λ s0, set_debugBytesAlive (wrap (debugBytesAlive s0 - h_size rec)) s0) ;;
       modify (λ s0, set_debugBytesAlive (wrap (debugBytesAlive s0 + sz)) s0) ;;
       ret (a + sizeof_DebugHeader))
        (mkState m (<[a:=sizeof_DebugHeader + sz]> (delete (h_addr rec) (blocks s)))
           hd (debugBytesAlive s) (debugAllocCount s)
           (EvRealloc (h_addr rec) (sizeof_DebugHeader + sz) :: calls s)
           (stderr s)) = Ok v s' →
      mem s' !! k = m1 !! k).
    { intros m hd Hmn Hm H'.
      hload H' Hv4 Hp4. rewrite Hmn in Hp4. injection Hp4 as <-.
      destruct (decide (first_addr l2 NULL ≠ NULL)) as [Hn2|Hn2].
      - hload H' Hv5 Hp5. rewrite Hmn in Hp5. injection Hp5 as <-.
        hstore H' Hv6. hstore H' Hv7. hpure H'. hpure H'.
        injection H' as _ <-. snorm.
        rewrite !lookup_insert_ne by done. by apply Hm.
      - hpure H'. hstore H' Hv7. hpure H'. hpure H'.
        injection H' as _ <-. snorm.
        rewrite !lookup_insert_ne by done. by apply Hm. }
    destruct (decide (last_addr l1 NULL ≠ NULL)) as [Hn1|Hn1].
    + hload H Hv2 Hp2. rewrite Hm1p in Hp2. injection Hp2 as <-.
      hstore H Hv3. rewrite ?bind_assoc in H. eapply Hrest; [| |exact H].
      * rewrite lookup_insert_ne by (specialize (Hout1 Hn1); offs; lia). done.
      * intros y Hy. by rewrite lookup_insert_ne.
    + hpure H. rewrite ?bind_assoc in H. eapply Hrest; [| |exact H]; done.
Qed.

Lemma debugRealloc_contents s l1 rec l2 a sz v s' i :
  dbg_repr s (l1 ++ rec :: l2) →
  0 < sz → sizeof_DebugHeader + sz < SIZE_MOD →
  fresh_block (delete (h_addr rec) (blocks s)) a (sizeof_DebugHeader + sz) →
  debugRealloc (Some a) (h_addr rec + sizeof_DebugHeader) sz s = Ok v s' →
  0 ≤ i < Z.min (h_size rec) sz →
  mem s' !! (a + sizeof_DebugHeader + i)
  = mem s !! (h_addr rec + sizeof_DebugHeader + i).
Proof.
  intros Hrepr Hsz Hlt Hfresh H Hi.
  pose proof Hfresh as (Ha & _).
  pose proof (resize_neighbours_outside s l1 rec l2 a sz off_next Hrepr
                Hfresh ltac:(by offs)) as [Hout1 _].
  pose proof (resize_neighbours_outside s l1 rec l2 a sz off_prev Hrepr
                Hfresh ltac:(by offs)) as [_ Hout2].
  rewrite (debugRealloc_cells s l1 rec l2 a sz v s' _ Hrepr Hsz Hlt Hfresh H).
  - destruct (decide (a = h_addr rec)) as [->|Hne]; [done|].
    rewrite move_cells_dst by (offs; lia). f_equal. lia.
  - offs. lia.
  - destruct (decide (last_addr l1 NULL = NULL)) as [->|Hn];
      [|specialize (Hout1 Hn)]; offs; lia.
  - destruct (decide (first_addr l2 NULL = NULL)) as [->|Hn];
      [|specialize (Hout2 Hn)]; offs; lia.
Qed.

(** X15.  In every state the debug allocator can be in, [debugRealloc] of
    a tracked pointer to a nonzero size, the system allocator answering
    with a block (the old one resized in place, or a fresh one), returns
    the address 32 bytes into that block with the payload carried over:
    the first [min(old size, new size)] bytes of the new payload are those
    of the old one, the link repairs and the store of the new size having
    touched headers only.  [debugBytesAlive] changes by the difference of
    the sizes, and the system allocator has seen one [realloc] of the old
    header address to 32 bytes more than the new size. *)
Theorem debugRealloc_keeps_contents ops ns s fuel l1 rec l2 a sz :
  ops_ok ops init → run ops init = Ok ns s →
  walk fuel (mem s) (dbgHead s) = Some (l1 ++ rec :: l2) →
  0 < sz → sizeof_DebugHeader + sz < SIZE_MOD →
  fresh_block (delete (h_addr rec) (blocks s)) a (sizeof_DebugHeader + sz) →
  ∃ s', debugRealloc (Some a) (h_addr rec + sizeof_DebugHeader) sz s
        = Ok (a + sizeof_DebugHeader) s' ∧
        (∀ i, 0 ≤ i < Z.min (h_size rec) sz →
              mem s' !! (a + sizeof_DebugHeader + i)
              = mem s !! (h_addr rec + sizeof_DebugHeader + i)) ∧
        debugBytesAlive s' = debugBytesAlive s - h_size rec + sz ∧
        blocks s'
        = <[a := sizeof_DebugHeader + sz]> (delete (h_addr rec) (blocks s)) ∧
        calls s' = EvRealloc (h_addr rec) (sizeof_DebugHeader + sz) :: calls s.
Proof.
  intros Hok Hrun Hwalk Hsz Hlt Hfresh.
  destruct (reached_repr _ _ _ Hok Hrun) as [l0 Hrepr].
  pose proof (repr_walk_eq _ _ _ _ Hrepr Hwalk) as <-.
  pose proof (repr_addr_range _ _ rec Hrepr ltac:(solve_elem)) as [Hrpos _].
  destruct (debugRealloc_spec s l1 rec l2 a sz Hrepr Hsz Hlt Hfresh)
    as (s' & H & Hr' & _).
  exists s'. split; [exact H|]. split; [|split].
  - intros i Hi.
    exact (debugRealloc_contents s l1 rec l2 a sz _ s' i Hrepr Hsz Hlt Hfresh H Hi).
  - rewrite (repr_bytes_exact _ _ Hr'), (repr_bytes_exact _ _ Hrepr),
      !sum_sizes_app, !sum_sizes_cons. simpl. lia.
  - destruct (debugRealloc_reaches_realloc (Some a)
                (h_addr rec + sizeof_DebugHeader) sz s _ s'
                ltac:(offs; lia) ltac:(lia) H) as (new & s2 & H2 & _ & Ho).
    revert H2.
    replace (h_addr rec + sizeof_DebugHeader - sizeof_DebugHeader)
      with (h_addr rec) by lia.
    rewrite wrap_small by (offs; lia).
    unfold Libc.realloc. rewrite decide_False by (offs; lia).
    rewrite decide_False by (offs; lia).
    rewrite (repr_block _ _ rec Hrepr) by solve_elem.
    intros H2. injection H2 as _ <-.
    unfold outside in Ho. injection Ho as -> -> _ _. snorm. done.
Qed.

(** X15 on the state with two records, growing the older one to 40 bytes
    at a new address. *)
Lemma debugRealloc_keeps_contents_witness :
  ops_ok two_allocs init ∧ run two_allocs init = Ok [1; 2] two_state ∧
  walk 2 (mem two_state) (dbgHead two_state)
  = Some ([mkHdr 8192 20 2] ++ mkHdr 4096 10 1 :: []) ∧
  0 < 40 ∧ sizeof_DebugHeader + 40 < SIZE_MOD ∧
  fresh_block (delete 4096 (blocks two_state)) 12288 (sizeof_DebugHeader + 40) ∧
  ∃ s', debugRealloc (Some 12288) (4096 + sizeof_DebugHeader) 40 two_state
        = Ok (12288 + sizeof_DebugHeader) s' ∧
        (∀ i, 0 ≤ i < Z.min 10 40 →
              mem s' !! (12288 + sizeof_DebugHeader + i)
              = mem two_state !! (4096 + sizeof_DebugHeader + i)) ∧
        debugBytesAlive s' = debugBytesAlive two_state - 10 + 40 ∧
        blocks s'
        = <[12288 := sizeof_DebugHeader + 40]> (delete 4096 (blocks two_state)) ∧
        calls s' = EvRealloc 4096 (sizeof_DebugHeader + 40) :: calls two_state.
Proof.
  assert (H1 : ops_ok two_allocs init)
    by (apply (bool_decide_unpack _); vm_compute; exact I).
  assert (H2 : run two_allocs init = Ok [1; 2] two_state)
    by (vm_compute; reflexivity).
  assert (H3 : walk 2 (mem two_state) (dbgHead two_state)
               = Some ([mkHdr 8192 20 2] ++ mkHdr 4096 10 1 :: []))
    by (vm_compute; reflexivity).
  assert (H4 : 0 < 40) by lia.
  assert (H5 : sizeof_DebugHeader + 40 < SIZE_MOD) by (vm_compute; reflexivity).
  assert (H6 : fresh_block (delete 4096 (blocks two_state)) 12288
                 (sizeof_DebugHeader + 40))
    by (apply (bool_decide_unpack _); vm_compute; exact I).
  split; [exact H1|]. split; [exact H2|]. split; [exact H3|].
  split; [exact H4|]. split; [exact H5|]. split; [exact H6|].
  exact (debugRealloc_keeps_contents two_allocs [1; 2] two_state 2
           [mkHdr 8192 20 2] (mkHdr 4096 10 1) [] 12288 40
           H1 H2 H3 H4 H5 H6).
Defined.

(** ** Other allocations are left alone *)

(** A header cell and a payload cell of tracked records never coincide. *)
Lemma hdr_payload_apart s l y x off j :
  dbg_repr s l → y ∈ l → x ∈ l →
  0 ≤ off < sizeof_DebugHeader → 0 ≤ j < h_size x →
  h_addr x + sizeof_DebugHeader + j ≠ h_addr y + off.
Proof.
  intros Hrepr Hy Hx Hoff Hj.
  destruct (decide (h_addr x = h_addr y)) as [Heq|Hne]; [offs; lia|].
  pose proof (repr_block _ _ _ Hrepr Hx) as Hbx.
  pose proof (repr_block _ _ _ Hrepr Hy) as Hby.
  pose proof (repr_size_pos _ _ _ Hrepr Hy).
  destruct (heap_disjoint _ (repr_heap _ _ Hrepr) _ _ _ _ Hbx Hby Hne);
    offs; lia.
Qed.

(** Nor does a payload cell coincide with a field of a neighbour of some
    record, or of the null address when there is no neighbour. *)
Lemma link_payload_apart s l1 rec l2 x off j :
  dbg_repr s (l1 ++ rec :: l2) → x ∈ l1 ++ rec :: l2 →
  0 ≤ off < sizeof_DebugHeader → 0 ≤ j < h_size x →
  h_addr x + sizeof_DebugHeader + j ≠ last_addr l1 NULL + off ∧
  h_addr x + sizeof_DebugHeader + j ≠ first_addr l2 NULL + off.
Proof.
  intros Hrepr Hx Hoff Hj.
  pose proof (repr_addr_range _ _ x Hrepr Hx) as [Hpos _].
  split.
  - destruct (list_snoc_case l1) as [->|(l1' & q & ->)].
    + rewrite last_addr_nil. offs. lia.
    + rewrite last_addr_snoc.
      apply (hdr_payload_apart s _ q x off j Hrepr); [solve_elem|done..].
  - destruct l2 as [|q l2'].
    + rewrite first_addr_nil. offs. lia.
    + rewrite first_addr_cons.
      apply (hdr_payload_apart s _ q x off j Hrepr); [solve_elem|done..].
Qed.

Lemma alloc_spares_payloads s l r sz v s' x j :
  dbg_repr s l → 0 ≤ sz < SIZE_MOD →
  answer_ok (blocks s) r (wrap (sizeof_DebugHeader + sz)) →
  debugAlloc r sz s = Ok v s' →
  x ∈ l → 0 ≤ j < h_size x →
  mem s' !! (h_addr x + sizeof_DebugHeader + j)
  = mem s !! (h_addr x + sizeof_DebugHeader + j) ∧
  blocks s' !! h_addr x = blocks s !! h_addr x.
Proof.
  intros Hrepr Hsz Hans H Hx Hj.
  destruct (decide (sz = 0)) as [->|Hnz].
  { unfold debugAlloc in H. rewrite decide_True in H by done.
    by injection H as _ <-. }
  destruct (debugAlloc_effects _ _ _ _ _ Hnz H)
    as (a & -> & _ & _ & Hb & _ & _ & _ & _ & _ & Hcells).
  destruct (debugAlloc_Ok_inv _ _ _ _ _ _ Hrepr Hsz Hans H)
    as [(? & _)|(a' & [= <-] & _ & _ & Hlt & _)]; [done|].
  simpl in Hans. rewrite wrap_small in Hans, Hb by (offs; lia).
  pose proof Hans as (Ha & _ & Hnone & Hall).
  pose proof (repr_block _ _ _ Hrepr Hx) as Hbx.
  pose proof (Hall _ _ Hbx) as Hdis. simpl in Hdis.
  split.
  - apply Hcells; [offs; lia|].
    rewrite (repr_head _ _ Hrepr).
    destruct l as [|y l']; [by apply elem_of_nil in Hx|]. rewrite first_addr_cons.
    apply (hdr_payload_apart s _ y x off_prev j Hrepr); [left|done|by offs|done].
  - rewrite Hb. apply lookup_insert_ne. congruence.
Qed.

Lemma free_spares_payloads s l ptr u s' x j :
  dbg_repr s l → debugFree ptr s = Ok u s' →
  x ∈ l → h_addr x + sizeof_DebugHeader ≠ ptr → 0 ≤ j < h_size x →
  mem s' !! (h_addr x + sizeof_DebugHeader + j)
  = mem s !! (h_addr x + sizeof_DebugHeader + j) ∧
  blocks s' !! h_addr x = blocks s !! h_addr x.
Proof.
  intros Hrepr H Hx Hne Hj.
  destruct (debugFree_tracked _ _ _ _ _ Hrepr H)
    as [(-> & ->)|(l1 & rec & l2 & -> & ->)]; [done|].
  pose proof (repr_addr_range _ _ rec Hrepr ltac:(solve_elem)) as [Hpos _].
  destruct (debugFree_cells (h_addr rec + sizeof_DebugHeader) s u s'
              ltac:(offs; lia) H)
    as (p & n & Hp & Hn & Hcells).
  destruct (debugFree_effects (h_addr rec + sizeof_DebugHeader) s u s'
              ltac:(offs; lia) ltac:(offs; lia) H)
    as (_ & Hb & _).
  replace (h_addr rec + sizeof_DebugHeader - sizeof_DebugHeader)
    with (h_addr rec) in Hp, Hn, Hb by lia.
  pose proof (repr_cells _ _ Hrepr) as Hc.
  apply dll_seg_app in Hc as [_ (_ & _ & Hnx & Hpv & _)].
  rewrite Hpv in Hp. injection Hp as <-. rewrite Hnx in Hn. injection Hn as <-.
  split.
  - apply Hcells.
    + by apply (link_payload_apart s l1 rec l2 x off_next j Hrepr); [|offs|].
    + by apply (link_payload_apart s l1 rec l2 x off_prev j Hrepr); [|offs|].
  - rewrite Hb. apply lookup_delete_ne. lia.
Qed.

Lemma realloc_spares_payloads s l r ptr sz v s' x j :
  dbg_repr s l → ptr ≠ NULL → sz ≠ 0 → 0 ≤ sz < SIZE_MOD →
  answer_ok (delete (ptr - sizeof_DebugHeader) (blocks s)) r
            (wrap (sizeof_DebugHeader + sz)) →
  debugRealloc r ptr sz s = Ok v s' →
  x ∈ l → h_addr x + sizeof_DebugHeader ≠ ptr → 0 ≤ j < h_size x →
  mem s' !! (h_addr x + sizeof_DebugHeader + j)
  = mem s !! (h_addr x + sizeof_DebugHeader + j) ∧
  blocks s' !! h_addr x = blocks s !! h_addr x.
Proof.
  intros Hrepr Hp Hnz Hsz Hans H Hx Hne Hj.
  destruct (debugRealloc_Ok_inv _ _ _ _ _ _ _ Hrepr Hp Hnz Hsz Hans H)
    as (a & l1 & rec & l2 & -> & -> & -> & -> & Hlt & Hr' & _).
  replace (h_addr rec + sizeof_DebugHeader - sizeof_DebugHeader)
    with (h_addr rec) in Hans by lia.
  simpl in Hans. rewrite wrap_small in Hans by (offs; lia).
  assert (x ∈ l1 ++ l2) as Hx'.
  { rewrite elem_of_app, elem_of_cons in Hx. rewrite elem_of_app.
    destruct Hx as [?|[->|?]]; [by left|done|by right]. }
  pose proof (resize_other_block _ _ _ _ x Hrepr Hx') as Hbx.
  pose proof Hans as (Ha & _ & Hnone & Hall).
  pose proof (Hall _ _ Hbx) as Hdis. simpl in Hdis.
  pose proof (repr_addr_range _ _ rec Hrepr ltac:(solve_elem)) as [Hrpos _].
  split.
  - rewrite (debugRealloc_cells s l1 rec l2 a sz _ s' _ Hrepr ltac:(lia) Hlt Hans H).
    + destruct (decide (a = h_addr rec)); [done|].
      apply move_cells_other. offs. lia.
    + offs. lia.
    + by apply (link_payload_apart s l1 rec l2 x off_next j Hrepr); [|offs|].
    + by apply (link_payload_apart s l1 rec l2 x off_prev j Hrepr); [|offs|].
  - destruct (debugRealloc_reaches_realloc (Some a)
                (h_addr rec + sizeof_DebugHeader) sz s _ s' Hp Hnz H)
      as (new & s2 & H2 & _ & Ho).
    revert H2.
    replace (h_addr rec + sizeof_DebugHeader - sizeof_DebugHeader)
      with (h_addr rec) by lia.
    rewrite wrap_small by (offs; lia).
    unfold Libc.realloc. rewrite decide_False by (offs; lia).
    rewrite decide_False by (offs; lia).
    rewrite (repr_block _ _ rec Hrepr) by solve_elem.
    intros H2. injection H2 as _ <-.
    unfold outside in Ho. injection Ho as -> _ _ _. snorm.
    rewrite lookup_insert_ne by congruence.
    apply lookup_delete_ne. lia.
Qed.

(** X16.  No operation of the debug allocator touches another
    allocation.  In every state the debug allocator can be in, whenever
    [debugAlloc], [debugFree] or [debugRealloc] returns, every tracked
    block other than the one the call was applied to still is a live block
    of the same size, and its payload holds what it held: the bookkeeping
    writes go to headers, and a resize copies into the block it was given. *)
Theorem other_payloads_untouched ops ns s fuel l o v s' x j :
  ops_ok ops init → run ops init = Ok ns s →
  walk fuel (mem s) (dbgHead s) = Some l →
  op_ok s o → exec o s = Ok v s' →
  x ∈ l → h_addr x + sizeof_DebugHeader ≠ target o → 0 ≤ j < h_size x →
  mem s' !! (h_addr x + sizeof_DebugHeader + j)
  = mem s !! (h_addr x + sizeof_DebugHeader + j) ∧
  blocks s' !! h_addr x = Some (sizeof_DebugHeader + h_size x).
Proof.
  intros Hok Hrun Hwalk Hop He Hx Hne Hj.
  destruct (reached_repr _ _ _ Hok Hrun) as [l0 Hrepr].
  pose proof (repr_walk_eq _ _ _ _ Hrepr Hwalk) as ->.
  rewrite <- (repr_block _ _ _ Hrepr Hx).
  destruct o as [r sz|ptr|r ptr sz]; simpl in *.
  - destruct Hop as [Hsz Hans]. by eapply alloc_spares_payloads.
  - apply bind_Ok_inv in He as (u & s1 & He & Hret). injection Hret as _ <-.
    by eapply free_spares_payloads.
  - destruct Hop as [Hsz Hans].
    destruct (decide (ptr = NULL)) as [->|Hp].
    { unfold debugRealloc in He. rewrite decide_True in He by done.
      by eapply alloc_spares_payloads. }
    destruct (decide (sz = 0)) as [->|Hnz].
    { unfold debugRealloc in He. rewrite decide_False, decide_True in He by done.
      apply bind_Ok_inv in He as (u & s1 & He & Hret). injection Hret as _ <-.
      by eapply free_spares_payloads. }
    exact (realloc_spares_payloads s l0 r ptr sz v s' x j Hrepr Hp Hnz Hsz Hans He Hx Hne Hj).
Qed.

(** X16 on the state with two records: growing the older block leaves the
    last byte of the newer one alone. *)
Lemma other_payloads_untouched_witness :
  ops_ok two_allocs init ∧ run two_allocs init = Ok [1; 2] two_state ∧
  walk 2 (mem two_state) (dbgHead two_state)
  = Some [mkHdr 8192 20 2; mkHdr 4096 10 1] ∧
  op_ok two_state (OpRealloc (Some 12288) (4096 + sizeof_DebugHeader) 40) ∧
  exec (OpRealloc (Some 12288) (4096 + sizeof_DebugHeader) 40) two_state
  = Ok (12288 + sizeof_DebugHeader)
       (after (exec (OpRealloc (Some 12288) (4096 + sizeof_DebugHeader) 40))
              two_state) ∧
  mkHdr 8192 20 2 ∈ [mkHdr 8192 20 2; mkHdr 4096 10 1] ∧
  h_addr (mkHdr 8192 20 2) + sizeof_DebugHeader
  ≠ target (OpRealloc (Some 12288) (4096 + sizeof_DebugHeader) 40) ∧
  0 ≤ 19 < h_size (mkHdr 8192 20 2) ∧
  mem (after (exec (OpRealloc (Some 12288) (4096 + sizeof_DebugHeader) 40))
             two_state)
  !! (h_addr (mkHdr 8192 20 2) + sizeof_DebugHeader + 19)
  = mem two_state !! (h_addr (mkHdr 8192 20 2) + sizeof_DebugHeader + 19) ∧
  blocks (after (exec (OpRealloc (Some 12288) (4096 + sizeof_DebugHeader) 40))
                two_state)
  !! h_addr (mkHdr 8192 20 2)
  = Some (sizeof_DebugHeader + h_size (mkHdr 8192 20 2)).
Proof.
  assert (H1 : ops_ok two_allocs init)
    by (apply (bool_decide_unpack _); vm_compute; exact I).
  assert (H2 : run two_allocs init = Ok [1; 2] two_state)
    by (vm_compute; reflexivity).
  assert (H3 : walk 2 (mem two_state) (dbgHead two_state)
               = Some [mkHdr 8192 20 2; mkHdr 4096 10 1])
    by (vm_compute; reflexivity).
  assert (H4 : op_ok two_state
                 (OpRealloc (Some 12288) (4096 + sizeof_DebugHeader) 40))
    by (apply (bool_decide_unpack _); vm_compute; exact I).
  assert (H5 : exec (OpRealloc (Some 12288) (4096 + sizeof_DebugHeader) 40)
                 two_state
               = Ok (12288 + sizeof_DebugHeader)
                    (after (exec (OpRealloc (Some 12288)
                                    (4096 + sizeof_DebugHeader) 40))
                           two_state))
    by (vm_compute; reflexivity).
  assert (H6 : mkHdr 8192 20 2 ∈ [mkHdr 8192 20 2; mkHdr 4096 10 1])
    by (apply (bool_decide_unpack _); vm_compute; exact I).
  assert (H7 : h_addr (mkHdr 8192 20 2) + sizeof_DebugHeader
               ≠ target (OpRealloc (Some 12288) (4096 + sizeof_DebugHeader) 40))
    by (vm_compute; discriminate).
  assert (H8 : 0 ≤ 19 < h_size (mkHdr 8192 20 2)) by (simpl; lia).
  split; [exact H1|]. split; [exact H2|]. split; [exact H3|].
  split; [exact H4|]. split; [exact H5|]. split; [exact H6|].
  split; [exact H7|]. split; [exact H8|].
  exact (other_payloads_untouched two_allocs [1; 2] two_state 2 _ _ _ _ _ 19
           H1 H2 H3 H4 H5 H6 H7 H8).
Defined.

(** ** xfree, for every pointer *)

(** X17.  Whatever the state and whatever non-null pointer it is given,
    [xfree] never releases the block that starts at that pointer.  It
    returns only if the 32 bytes in front of the pointer lie in a live
    block, and what it has then handed to [free] is the address 32 bytes
    before the pointer (nothing at all when that address is null): a block
    that starts at the pointer itself, as every block returned by [xalloc]
    does, is still live afterwards. *)
Theorem xfree_never_frees_its_block p s u s' :
  p ≠ NULL → free SafeAllocator p s = Ok u s' →
  blocks s' !! p = blocks s !! p ∧
  calls s' = (if decide (p - sizeof_DebugHeader = NULL) then []
              else [EvFree (p - sizeof_DebugHeader)]) ++ calls s ∧
  valid_access s (p - sizeof_DebugHeader) sizeof_DebugHeader = true.
Proof.
  intros Hp H. simpl in H. rewrite xfree_is_debugFree in H.
  apply debugFree_reaches_free in H as (s1 & Ho & Hv & H); [|done].
  unfold outside in Ho. injection Ho as Hb Hc _ _.
  unfold Libc.free in H. destruct (decide _).
  - injection H as _ <-. by rewrite Hb, Hc.
  - snorm. destruct (blocks s1 !! _); [|done]. injection H as _ <-. snorm.
    rewrite Hb, Hc. split; [|done].
    apply lookup_delete_ne. offs. lia.
Qed.

(** X17 on two adjacent raw blocks: [xfree] of the second one takes the
    first for its header and releases that. *)
Lemma xfree_never_frees_its_block_witness :
  4128 ≠ NULL ∧
  free SafeAllocator 4128 adjacent_state
  = Ok tt (after (free SafeAllocator 4128) adjacent_state) ∧
  blocks (after (free SafeAllocator 4128) adjacent_state) !! 4128
  = blocks adjacent_state !! 4128 ∧
  calls (after (free SafeAllocator 4128) adjacent_state)
  = (if decide (4128 - sizeof_DebugHeader = NULL) then []
     else [EvFree (4128 - sizeof_DebugHeader)]) ++ calls adjacent_state ∧
  valid_access adjacent_state (4128 - sizeof_DebugHeader) sizeof_DebugHeader
  = true.
Proof.
  assert (H1 : 4128 ≠ NULL) by (unfold NULL; lia).
  assert (H2 : free SafeAllocator 4128 adjacent_state
               = Ok tt (after (free SafeAllocator 4128) adjacent_state))
    by (vm_compute; reflexivity).
  split; [exact H1|]. split; [exact H2|].
  exact (xfree_never_frees_its_block 4128 adjacent_state tt _ H1 H2).
Defined.
